(** * Rewire: rule engine, store and checker

    A shallow embedding of the Python package [rewire]
    ([src/python/rewire/rules.py], [db.py], [server.py]).

    - [Json]: the values [json.loads] produces and the Python builtins the
      parameter parser applies to them ([dict.get], [int], [bool]).
    - [Rules]: [parse_params], [schedule_evaluate],
      [alertpath_should_send_test].  The wall clock [now_i()] is an explicit
      argument [t] of the functions that read it.
    - [Store]: the SQLite tables as Rocq data and the [Store] methods used
      by the checker and by the admin enable/disable handler.
    - [Server]: the checker ([Checker.tick], [Checker.run]) and the admin
      enable/disable handler, in a clock-reader / state / exception monad. *)

From Stdlib Require Import ZArith String List Ascii Sorting.Sorted.
From stdpp Require Import base gmap strings list pretty.

Import ListNotations.
Open Scope string_scope.
Set Warnings "-register-all".

(** Characters used to build message texts. *)
Definition nl : string := String (ascii_of_nat 10) EmptyString.
Definition dq : string := String (ascii_of_nat 34) EmptyString.

(** ** Python exceptions that the modelled code can raise *)
Inductive exc :=
| KeyError (k : string)
| ValueError (msg : string)
| TypeError
| AttributeError
| IntegrityError        (** sqlite3: UNIQUE / PRIMARY KEY constraint *)
| OverflowError         (** sqlite3: an [int] parameter outside the signed 64-bit range *)
| SMTPError.            (** OSError / smtplib error raised by [send_email] *)

Module Json.

(** Values produced by [json.loads].  JSON numbers with a fractional part
    are not modelled; objects keep their key/value pairs in source order. *)
Inductive json :=
| JNull
| JBool (b : bool)
| JInt (z : Z)
| JStr (s : string)
| JArr (l : list json)
| JObj (kvs : list (string * json)).

(** [d.get(k)] on the dict built by [json.loads]: a duplicated key keeps its
    last value. *)
Definition dict_get (kvs : list (string * json)) (k : string) : option json :=
  match List.find (fun kv => String.eqb (fst kv) k) (rev kvs) with
  | Some kv => Some (snd kv)
  | None => None
  end.

(** [d.get(k, default)]. *)
Definition dict_get_default (kvs : list (string * json)) (k : string)
  (default : json) : json :=
  match dict_get kvs k with Some v => v | None => default end.

(** [d[k]]: [KeyError] when absent. *)
Definition dict_index (kvs : list (string * json)) (k : string) : exc + json :=
  match dict_get kvs k with Some v => inr v | None => inl (KeyError k) end.

(** [str.isspace()] on the characters [U+0000..U+00FF] a string holds:
    [\t \n \v \f \r], the separators [\x1c..\x1f], the space, [\x85] and
    [\xa0]. *)
Definition is_space (c : ascii) : bool :=
  match nat_of_ascii c with
  | 9 | 10 | 11 | 12 | 13 | 28 | 29 | 30 | 31 | 32 | 133 | 160 => true
  | _ => false
  end.

Fixpoint lstrip_by (sp : ascii -> bool) (s : string) : string :=
  match s with
  | String c s' => if sp c then lstrip_by sp s' else s
  | EmptyString => EmptyString
  end.

Definition rev_string (s : string) : string :=
  string_of_list_ascii (rev (list_ascii_of_string s)).

Definition strip_by (sp : ascii -> bool) (s : string) : string :=
  rev_string (lstrip_by sp (rev_string (lstrip_by sp s))).

(** [str.strip()]. *)
Definition strip (s : string) : string := strip_by is_space s.

(** The whitespace [int()] skips around a literal: CPython maps the
    non-ASCII whitespace [\x85] and [\xa0] to a space and then skips
    C [isspace] characters, so [\x1c..\x1f] are not skipped. *)
Definition int_space (c : ascii) : bool :=
  match nat_of_ascii c with
  | 9 | 10 | 11 | 12 | 13 | 32 | 133 | 160 => true
  | _ => false
  end.

Definition is_digit (c : ascii) : bool :=
  let n := nat_of_ascii c in (48 <=? n)%nat && (n <=? 57)%nat.

Definition digit_value (c : ascii) : Z := Z.of_nat (nat_of_ascii c - 48).

(** The scan of the digits after the first one: a digit, or one [_]
    followed by a digit ([None]: a doubled or trailing underscore); it
    stops at any other character.  [acc] is the value read so far and [n]
    the number of digits. *)
Fixpoint digits_value (acc : Z) (n : nat) (s : string) : option (Z * nat * string) :=
  match s with
  | EmptyString => Some (acc, n, EmptyString)
  | String c s' =>
      if is_digit c then digits_value (acc * 10 + digit_value c)%Z (S n) s'
      else if Ascii.eqb c "_" then
        match s' with
        | String c2 s'' =>
            if is_digit c2 then digits_value (acc * 10 + digit_value c2)%Z (S n) s''
            else None
        | EmptyString => None
        end
      else Some (acc, n, s)
  end.

(** [digit (["_"] digit)*] at the start of [s]: its value, its number of
    digits and the rest of [s]. *)
Definition parse_unsigned (s : string) : option (Z * nat * string) :=
  match s with
  | String c s' => if is_digit c then digits_value (digit_value c) 1 s' else None
  | EmptyString => None
  end.

(** [int(s)] for a string: surrounding whitespace ([int_space]), an
    optional sign, and decimal digits with single underscores between them.
    More than 4300 digits exceed [sys.get_int_max_str_digits()]'s default
    limit, which is checked before the characters after the digits. *)
Definition int_of_string (s : string) : exc + Z :=
  let s := strip_by int_space s in
  let r := match s with
           | String "-" s' =>
               option_map (fun '(z, n, rest) => (Z.opp z, n, rest)) (parse_unsigned s')
           | String "+" s' => parse_unsigned s'
           | _ => parse_unsigned s
           end in
  match r with
  | Some (z, n, rest) =>
      if (4300 <? n)%nat
      then inl (ValueError "Exceeds the limit (4300 digits) for integer string conversion")
      else if String.eqb rest "" then inr z
      else inl (ValueError "invalid literal for int()")
  | None => inl (ValueError "invalid literal for int()")
  end.

(** Python [int(v)] on a JSON value. *)
Definition py_int (v : json) : exc + Z :=
  match v with
  | JInt z => inr z
  | JBool b => inr (if b then 1%Z else 0%Z)
  | JStr s => int_of_string s
  | JNull | JArr _ | JObj _ => inl TypeError
  end.

(** Python [bool(v)]: truthiness. *)
Definition py_bool (v : json) : bool :=
  match v with
  | JNull => false
  | JBool b => b
  | JInt z => negb (Z.eqb z 0)
  | JStr s => negb (String.eqb s "")
  | JArr l => negb (Nat.eqb (length l) 0)
  | JObj kvs => negb (Nat.eqb (length kvs) 0)
  end.

End Json.

Import Json.

(** Error-raising computations: [inl] is a raised exception. *)
Definition bind_exc {A B} (m : exc + A) (k : A -> exc + B) : exc + B :=
  match m with inl e => inl e | inr a => k a end.
Notation "'let?' x := m 'in' k" := (bind_exc m (fun x => k))
  (at level 200, x name, m at level 100, k at level 200).

Module Rules.

Record ScheduleParams := {
  max_runtime_s : Z;   (** 0 disables check *)
  min_spacing_s : Z;   (** 0 disables check *)
  allow_overlap : bool
}.

Record AlertPathParams := {
  ack_window_s : Z;
  test_interval_s : Z
}.

Inductive params :=
| PSchedule (p : ScheduleParams)
| PAlertPath (p : AlertPathParams).

(** [parse_params(exp_type, params_json)], applied to the value
    [json.loads(params_json)] returned. *)
Definition parse_params (exp_type : string) (obj : json) : exc + params :=
  if String.eqb exp_type "schedule" then
    match obj with
    | JObj kvs =>
        let? m := py_int (dict_get_default kvs "max_runtime_s" (JInt 0)) in
        let? s := py_int (dict_get_default kvs "min_spacing_s" (JInt 0)) in
        let o := py_bool (dict_get_default kvs "allow_overlap" (JBool false)) in
        inr (PSchedule {| max_runtime_s := m; min_spacing_s := s; allow_overlap := o |})
    | _ => inl AttributeError           (** [obj.get] on a non-dict *)
    end
  else if String.eqb exp_type "alert_path" then
    match obj with
    | JObj kvs =>
        let? a := (let? v := dict_index kvs "ack_window_s" in py_int v) in
        let? i := (let? v := dict_index kvs "test_interval_s" in py_int v) in
        inr (PAlertPath {| ack_window_s := a; test_interval_s := i |})
    | _ => inl TypeError                (** [obj["..."]] on a non-dict *)
    end
  else inl (ValueError ("unknown expectation type: " ++ exp_type)).

(** [parse_params("schedule", ...)] used as a [ScheduleParams]. *)
Definition parse_schedule (obj : json) : exc + ScheduleParams :=
  match parse_params "schedule" obj with
  | inr (PSchedule p) => inr p
  | inr (PAlertPath _) => inl TypeError
  | inl e => inl e
  end.

Definition parse_alertpath (obj : json) : exc + AlertPathParams :=
  match parse_params "alert_path" obj with
  | inr (PAlertPath p) => inr p
  | inr (PSchedule _) => inl TypeError
  | inl e => inl e
  end.

Inductive obs_kind := Start | End | Ping | Ack.

Definition obs_kind_eqb (a b : obs_kind) : bool :=
  match a, b with
  | Start, Start | End, End | Ping, Ping | Ack, Ack => true
  | _, _ => false
  end.

(** A row of table [observations]. *)
Record observation := {
  obs_id : Z;
  obs_exp : string;
  kind : obs_kind;
  observed_at : Z;
  obs_meta : option string
}.

(** A row of table [expectations]. *)
Record expectation := {
  exp_id : string;
  exp_type : string;
  name : string;
  expected_interval_s : Z;
  tolerance_s : Z;
  params_json : json;
  owner_email : string;
  is_enabled : bool;
  created_at : Z;
  updated_at : Z
}.

(** [Evidence = Dict[str, Any]]. *)
Definition evidence := list (string * json).

(** [(code, message, evidence)]. *)
Definition violation_tuple := (string * string * evidence)%type.

Definition vt_code (v : violation_tuple) : string := fst (fst v).

Definition is_start (r : observation) : bool := obs_kind_eqb (kind r) Start.

(** [schedule_evaluate(exp_row, obs_rows_desc)]; [t] is the value [now_i()]
    returns during the call. *)
Definition schedule_evaluate (e : expectation) (obs_rows_desc : list observation)
  (t : Z) : exc + (list violation_tuple * list string) :=
  let? params := parse_schedule (params_json e) in
  let expected := expected_interval_s e in
  let tol := tolerance_s e in
  let last_start := List.find is_start obs_rows_desc in
  match last_start with
  | None => inr ([], [])
  | Some ls =>
      (* Check: missed execution *)
      let age := (t - observed_at ls)%Z in
      let '(v1, c1) :=
        if (age >? expected + tol)%Z then
          ([("missed",
             "Expected a start within " ++ pretty expected ++ "s (+" ++ pretty tol
               ++ "s); last start was " ++ pretty age ++ "s ago.",
             [("last_start_at", JInt (observed_at ls)); ("age_s", JInt age);
              ("expected_s", JInt expected); ("tolerance_s", JInt tol)])], [])
        else ([], ["missed"]) in
      (* Check: overlap / longrun *)
      let start_t := observed_at ls in
      let newer_end := List.find (fun r => obs_kind_eqb (kind r) End
                                           && (start_t <=? observed_at r)%Z)
                                 obs_rows_desc in
      match newer_end with
      | None =>
          let run_for := (t - start_t)%Z in
          let '(v2, c2) :=
            if negb (Z.eqb (max_runtime_s params) 0) && (run_for >? max_runtime_s params)%Z
            then ([("longrun",
                    "Run exceeded max_runtime_s=" ++ pretty (max_runtime_s params)
                      ++ "; running for " ++ pretty run_for ++ "s.",
                    [("start_at", JInt start_t); ("running_for_s", JInt run_for);
                     ("max_runtime_s", JInt (max_runtime_s params))])], [])
            else ([], ["longrun"]) in
          let '(v3, c3) :=
            if negb (allow_overlap params) then
              let starts_without_end := List.filter is_start obs_rows_desc in
              if (1 <? length starts_without_end)%nat then
                match nth_error starts_without_end 1 with
                | Some second =>
                    if (observed_at second <? start_t)%Z then
                      ([("overlap", "Detected overlapping runs.",
                         [("newest_start_at", JInt start_t);
                          ("other_start_at", JInt (observed_at second))])], [])
                    else ([], ["overlap"])
                | None => ([], ["overlap"])
                end
              else ([], ["overlap"])
            else ([], []) in
          inr ((v1 ++ v2 ++ v3)%list, (c1 ++ c2 ++ c3)%list)
      | Some _ =>
          let c2 := ["longrun"; "overlap"] in
          let '(v3, c3) :=
            if negb (Z.eqb (min_spacing_s params) 0) then
              match List.find (fun r => obs_kind_eqb (kind r) End
                                        && (observed_at r <? start_t)%Z)
                              obs_rows_desc with
              | Some prev_end =>
                  let gap := (start_t - observed_at prev_end)%Z in
                  if (gap <? min_spacing_s params)%Z then
                    ([("spacing",
                       "Start occurred " ++ pretty gap
                         ++ "s after previous end; min_spacing_s="
                         ++ pretty (min_spacing_s params) ++ ".",
                       [("gap_s", JInt gap); ("min_spacing_s", JInt (min_spacing_s params));
                        ("prev_end_at", JInt (observed_at prev_end)); ("start_at", JInt start_t)])], [])
                  else ([], ["spacing"])
              | None => ([], [])
              end
            else ([], []) in
          inr ((v1 ++ v3)%list, (c1 ++ c2 ++ c3)%list)
      end
  end.

(** [alertpath_should_send_test(exp_row, last_any_obs_time)] at clock [t]. *)
Definition alertpath_should_send_test (e : expectation) (last_any_obs_time : option Z)
  (t : Z) : exc + bool :=
  let? params := parse_alertpath (params_json e) in
  match last_any_obs_time with
  | None => inr true
  | Some last => inr (t - last >=? test_interval_s params)%Z
  end.

End Rules.

Module Store.
Import Rules.

Inductive trial_status := Pending | Acked | Expired.

Definition trial_status_eqb (a b : trial_status) : bool :=
  match a, b with
  | Pending, Pending | Acked, Acked | Expired, Expired => true
  | _, _ => false
  end.

(** A row of table [alert_trials] (its key [id] is the map key). *)
Record trial := {
  tr_exp : string;
  sent_at : Z;
  acked_at : option Z;
  status : trial_status;
  tr_meta : string
}.

(** A row of table [violations]. *)
Record violation := {
  v_id : Z;
  v_exp : string;
  detected_at : Z;
  code : string;
  message : string;
  v_evidence : evidence;   (** [evidence_json], decoded *)
  is_open : bool;
  last_notified_at : option Z
}.

(** The database: [expectations] and [alert_trials] keyed by their primary
    key; [observations] and [violations] in rowid order with the next
    AUTOINCREMENT value. *)
Record db := {
  exps : gmap string expectation;
  obs : list observation;
  next_seq : Z;
  trials : gmap string trial;
  viols : list violation;
  next_vid : Z
}.

Definition with_exps (d : db) (m : gmap string expectation) : db :=
  {| exps := m; obs := obs d; next_seq := next_seq d; trials := trials d;
     viols := viols d; next_vid := next_vid d |}.
Definition with_obs (d : db) (l : list observation) (n : Z) : db :=
  {| exps := exps d; obs := l; next_seq := n; trials := trials d;
     viols := viols d; next_vid := next_vid d |}.
Definition with_trials (d : db) (m : gmap string trial) : db :=
  {| exps := exps d; obs := obs d; next_seq := next_seq d; trials := m;
     viols := viols d; next_vid := next_vid d |}.
Definition with_viols (d : db) (l : list violation) (n : Z) : db :=
  {| exps := exps d; obs := obs d; next_seq := next_seq d; trials := trials d;
     viols := l; next_vid := n |}.

Definition empty_db : db :=
  {| exps := ∅; obs := []; next_seq := 1; trials := ∅; viols := []; next_vid := 1 |}.

(** The FOREIGN KEY check on [expectation_id]. *)
Definition fk_ok (d : db) (exp : string) : bool :=
  match exps d !! exp with Some _ => true | None => false end.

(** === Expectations === *)

(** [set_enabled(exp_id, enabled)]: [UPDATE ... WHERE id = ?]; returns
    [rowcount > 0]. *)
Definition set_enabled (now : Z) (id : string) (enabled : bool) (d : db) : bool * db :=
  match exps d !! id with
  | Some e =>
      (true, with_exps d (<[id := {| exp_id := exp_id e; exp_type := exp_type e;
             name := name e; expected_interval_s := expected_interval_s e;
             tolerance_s := tolerance_s e; params_json := params_json e;
             owner_email := owner_email e; is_enabled := enabled;
             created_at := created_at e; updated_at := now |}]> (exps d)))
  | None => (false, d)
  end.

(** [list_enabled_expectations()]. *)
Definition list_enabled_expectations (d : db) : list expectation :=
  List.filter is_enabled (map snd (map_to_list (exps d))).

(** === Observations === *)

(** [add_observation(exp_id, kind, meta_json)]: returns the new rowid. *)
Definition add_observation (now : Z) (exp : string) (k : obs_kind) (meta : option string)
  (d : db) : exc + (Z * db) :=
  if fk_ok d exp then
    let r := {| obs_id := next_seq d; obs_exp := exp; kind := k;
                observed_at := now; obs_meta := meta |} in
    inr (next_seq d, with_obs d (obs d ++ [r])%list (next_seq d + 1))
  else inl IntegrityError.

Fixpoint insert_desc (r : observation) (l : list observation) : list observation :=
  match l with
  | [] => [r]
  | x :: l' => if (observed_at x <=? observed_at r)%Z then r :: l
               else x :: insert_desc r l'
  end.

(** [ORDER BY observed_at DESC]: a stable sort of the rows, scanned from
    the newest rowid, as SQLite's backward index scan does. *)
Definition sort_desc (l : list observation) : list observation :=
  fold_right insert_desc [] l.

(** [recent_observations(exp_id, limit)]. *)
Definition recent_observations (exp : string) (limit : nat) (d : db) : list observation :=
  firstn limit (sort_desc (rev (List.filter (fun r => String.eqb (obs_exp r) exp) (obs d)))).

(** [last_observation_time(exp_id, kind)]. *)
Definition last_observation_time (exp : string) (k : option obs_kind) (d : db) : option Z :=
  let rows := List.filter (fun r => String.eqb (obs_exp r) exp
                              && match k with Some k' => obs_kind_eqb (kind r) k'
                                              | None => true end) (obs d) in
  fold_left (fun acc r => match acc with
                          | Some m => Some (Z.max m (observed_at r))
                          | None => Some (observed_at r)
                          end) rows None.

(** === Alert trials === *)

(** [create_trial(trial_id, exp_id, meta_json)]: [INSERT] with [status =
    'pending'] and [acked_at = NULL]; a used id violates the PRIMARY KEY. *)
Definition create_trial (now : Z) (id exp meta : string) (d : db) : exc + db :=
  match trials d !! id with
  | Some _ => inl IntegrityError
  | None =>
      if fk_ok d exp then
        inr (with_trials d (<[id := {| tr_exp := exp; sent_at := now; acked_at := None;
                                       status := Pending; tr_meta := meta |}]> (trials d)))
      else inl IntegrityError
  end.

(** [ack_trial(trial_id)]. *)
Definition ack_trial (now : Z) (id : string) (d : db) : bool * db :=
  match trials d !! id with
  | Some tr =>
      if trial_status_eqb (status tr) Pending then
        (true, with_trials d (<[id := {| tr_exp := tr_exp tr; sent_at := sent_at tr;
                                         acked_at := Some now; status := Acked;
                                         tr_meta := tr_meta tr |}]> (trials d)))
      else (false, d)
  | None => (false, d)
  end.

(** [pending_trials(exp_id)]: the rows as [(id, row)]. *)
Definition pending_trials (exp : string) (d : db) : list (string * trial) :=
  List.filter (fun p => String.eqb (tr_exp (snd p)) exp
                        && trial_status_eqb (status (snd p)) Pending)
              (map_to_list (trials d)).

(** [expire_trial(trial_id)]: [UPDATE ... SET status = 'expired' WHERE id = ?
    AND status = 'pending']. *)
Definition expire_trial (id : string) (d : db) : db :=
  match trials d !! id with
  | Some tr =>
      if trial_status_eqb (status tr) Pending then
        with_trials d (<[id := {| tr_exp := tr_exp tr; sent_at := sent_at tr;
                                  acked_at := acked_at tr; status := Expired;
                                  tr_meta := tr_meta tr |}]> (trials d))
      else d
  | None => d
  end.

(** === Violations === *)

Definition update_violation (vid : Z) (f : violation -> violation) (l : list violation) :
  list violation :=
  map (fun v => if Z.eqb (v_id v) vid then f v else v) l.

(** [open_violation(exp_id, code)]: the open row with the greatest
    [detected_at] (the first in rowid order among equal ones). *)
Definition open_violation (exp code0 : string) (d : db) : option violation :=
  fold_left (fun acc v =>
               if String.eqb (v_exp v) exp && String.eqb (code v) code0 && is_open v then
                 match acc with
                 | Some b => if (detected_at b <? detected_at v)%Z then Some v else acc
                 | None => Some v
                 end
               else acc) (viols d) None.

(** [create_violation(exp_id, code, message, evidence_json)]. *)
Definition create_violation (now : Z) (exp code0 msg : string) (ev : evidence) (d : db) :
  exc + (Z * db) :=
  if fk_ok d exp then
    let v := {| v_id := next_vid d; v_exp := exp; detected_at := now; code := code0;
                message := msg; v_evidence := ev; is_open := true;
                last_notified_at := None |} in
    inr (next_vid d, with_viols d (viols d ++ [v])%list (next_vid d + 1))
  else inl IntegrityError.

Definition close_row (v : violation) : violation :=
  {| v_id := v_id v; v_exp := v_exp v; detected_at := detected_at v; code := code v;
     message := message v; v_evidence := v_evidence v; is_open := false;
     last_notified_at := last_notified_at v |}.

Definition closes (exp : string) (codes : list string) (v : violation) : bool :=
  String.eqb (v_exp v) exp && is_open v && existsb (String.eqb (code v)) codes.

(** [close_violations(exp_id, codes)]: returns the number of rows closed. *)
Definition close_violations (exp : string) (codes : list string) (d : db) : Z * db :=
  match codes with
  | [] => (0%Z, d)
  | _ =>
      (Z.of_nat (length (List.filter (closes exp codes) (viols d))),
       with_viols d (map (fun v => if closes exp codes v then close_row v else v) (viols d))
                  (next_vid d))
  end.

(** [mark_notified(viol_id)]. *)
Definition mark_notified (now : Z) (vid : Z) (d : db) : db :=
  with_viols d (update_violation vid (fun v =>
    {| v_id := v_id v; v_exp := v_exp v; detected_at := detected_at v; code := code v;
       message := message v; v_evidence := v_evidence v; is_open := is_open v;
       last_notified_at := Some now |}) (viols d)) (next_vid d).

End Store.

Module Server.
Import Rules Store.

(** [Config]. *)
Record config := {
  base_url : string;
  admin_token : string;
  check_every_s : Z;
  renotify_after_s : Z;   (** 0 disables *)
  send_recovery : bool
}.

(** [WebhookPayload]. *)
Record payload := {
  event : string;
  expectation_id : string;
  expectation_name : string;
  expectation_type : string;
  violation_code : string;
  p_message : string;
  p_evidence : evidence;
  timestamp : Z
}.

(** The process state: the database, the token generator, the SMTP
    relay ([smtp_host = None] is dev mode, where [send_email] prints), the
    mail and webhook deliveries made, and the lines written to stderr. *)
Record world := {
  wdb : db;
  next_token : nat;
  smtp_host : option string;
  smtp_up : bool;
  outbox : list (string * string * string);
  hooks : list payload;
  errlog : list string
}.

Definition with_db (w : world) (d : db) : world :=
  {| wdb := d; next_token := next_token w; smtp_host := smtp_host w; smtp_up := smtp_up w;
     outbox := outbox w; hooks := hooks w; errlog := errlog w |}.

(** Computations of the server: they read the wall clock [now_i()], update
    the world, and may raise.  A Store call commits on its own, so the
    effects made before an exception stay. *)
Definition M (A : Type) : Type := Z -> world -> (exc + A) * world.

Definition retM {A} (a : A) : M A := fun _ w => (inr a, w).
Definition bindM {A B} (m : M A) (k : A -> M B) : M B :=
  fun t w => match m t w with
             | (inl e, w') => (inl e, w')
             | (inr a, w') => k a t w'
             end.
Notation "'let*' x := m 'in' k" := (bindM m (fun x => k))
  (at level 200, x name, m at level 100, k at level 200).

Definition now_i : M Z := fun t w => (inr t, w).
Definition raise {A} (e : exc) : M A := fun _ w => (inl e, w).
Definition lift {A} (r : exc + A) : M A := fun _ w => (r, w).

(** A Store call: it reads the clock and the database. *)
Definition db_read {A} (f : db -> A) : M A := fun _ w => (inr (f (wdb w)), w).
Definition db_op {A} (f : Z -> db -> A * db) : M A :=
  fun t w => let '(a, d) := f t (wdb w) in (inr a, with_db w d).
Definition db_op_exc {A} (f : Z -> db -> exc + (A * db)) : M A :=
  fun t w => match f t (wdb w) with
             | inl e => (inl e, w)
             | inr (a, d) => (inr a, with_db w d)
             end.

Fixpoint for_each {A} (f : A -> M unit) (l : list A) : M unit :=
  match l with
  | [] => retM tt
  | x :: l' => let* _ := f x in for_each f l'
  end.

(** [secrets.token_urlsafe(16)]: distinct tokens drawn from a counter. *)
Definition token_urlsafe : M string :=
  fun _ w => (inr ("tok" ++ pretty (next_token w)),
              {| wdb := wdb w; next_token := S (next_token w); smtp_host := smtp_host w;
                 smtp_up := smtp_up w; outbox := outbox w; hooks := hooks w;
                 errlog := errlog w |}).

(** [Notifier.send_email(to, subject, body)]: printed in dev mode; with a
    host, the SMTP exchange fails with an exception when the relay is down. *)
Definition send_email (to subj body : string) : M unit :=
  fun _ w =>
    let w' := {| wdb := wdb w; next_token := next_token w; smtp_host := smtp_host w;
                 smtp_up := smtp_up w; outbox := (outbox w ++ [(to, subj, body)])%list;
                 hooks := hooks w; errlog := errlog w |} in
    match smtp_host w with
    | None => (inr tt, w')
    | Some _ => if smtp_up w then (inr tt, w') else (inl SMTPError, w)
    end.

(** [WebhookNotifier.notify(payload)]: every endpoint's failure is caught. *)
Definition webhook_notify (p : payload) : M unit :=
  fun _ w => (inr tt, {| wdb := wdb w; next_token := next_token w; smtp_host := smtp_host w;
                         smtp_up := smtp_up w; outbox := outbox w;
                         hooks := (hooks w ++ [p])%list; errlog := errlog w |}).

Definition log_error (msg : string) (w : world) : world :=
  {| wdb := wdb w; next_token := next_token w; smtp_host := smtp_host w;
     smtp_up := smtp_up w; outbox := outbox w; hooks := hooks w;
     errlog := (errlog w ++ [msg])%list |}.

(** [json.dumps(v)] for the scalar values evidence holds. *)
Definition dumps_value (v : json) : string :=
  match v with
  | JNull => "null"
  | JBool true => "true"
  | JBool false => "false"
  | JInt z => pretty z
  | JStr s => dq ++ s ++ dq
  | JArr _ => "[...]"
  | JObj _ => "{...}"
  end.

(** [json.dumps(ev, indent=2)]. *)
Definition dumps_evidence (ev : evidence) : string :=
  match ev with
  | [] => "{}"
  | _ => "{" ++ nl ++ String.concat ("," ++ nl)
                 (map (fun kv => "  " ++ dq ++ fst kv ++ dq ++ ": " ++ dumps_value (snd kv)) ev)
         ++ nl ++ "}"
  end.

(** [json.dumps({k: v, ...})] for string values. *)
Definition dumps_strs (kvs : list (string * string)) : string :=
  "{" ++ String.concat ", " (map (fun kv => dq ++ fst kv ++ dq ++ ": " ++ dq ++ snd kv ++ dq) kvs)
  ++ "}".

Fixpoint rstrip_slash_rev (l : list ascii) : list ascii :=
  match l with
  | "/"%char :: l' => rstrip_slash_rev l'
  | _ => l
  end.

(** [s.rstrip("/")]. *)
Definition rstrip_slash (s : string) : string :=
  string_of_list_ascii (rev (rstrip_slash_rev (rev (list_ascii_of_string s)))).

(** [Checker._notify_violation(...)]. *)
Definition notify_violation (owner name0 exp_type0 code0 msg : string) (ev : evidence)
  (viol_id : Z) (exp_id0 : string) : M unit :=
  let subj := "[rewire] VIOLATION " ++ code0 ++ ": " ++ name0 in
  let body := "Rewire detected an expectation violation." ++ nl ++ nl
              ++ "Name: " ++ name0 ++ nl ++ "Type: " ++ exp_type0 ++ nl
              ++ "Code: " ++ code0 ++ nl ++ "Message: " ++ msg ++ nl ++ nl
              ++ "Evidence:" ++ nl ++ dumps_evidence ev ++ nl ++ nl
              ++ "Rewire reports only mismatches it can justify with evidence." ++ nl in
  let* _ := send_email owner subj body in
  let* ts := now_i in
  let* _ := webhook_notify {| event := "violation.opened"; expectation_id := exp_id0;
                              expectation_name := name0; expectation_type := exp_type0;
                              violation_code := code0; p_message := msg; p_evidence := ev;
                              timestamp := ts |} in
  db_op (fun t d => (tt, mark_notified t viol_id d)).

(** [Checker._check_schedule(exp, store, cfg, now)]. *)
Definition check_schedule (cfg : config) (exp : expectation) (now : Z) : M unit :=
  let id := exp_id exp in
  let* obs0 := db_read (recent_observations id 80) in
  let* t := now_i in
  let* r := lift (schedule_evaluate exp obs0 t) in
  let '(violations, close_codes) := r in
  let* _ := match close_codes with
            | [] => retM 0%Z
            | _ => db_op (fun _ => close_violations id close_codes)
            end in
  for_each (fun '(code0, msg, ev) =>
    let* openv := db_read (open_violation id code0) in
    match openv with
    | None =>
        let* vid := db_op_exc (fun t => create_violation t id code0 msg ev) in
        notify_violation (owner_email exp) (name exp) "schedule" code0 msg ev vid id
    | Some v =>
        match last_notified_at v with
        | Some lna =>
            if negb (Z.eqb (renotify_after_s cfg) 0) && negb (Z.eqb lna 0) then
              if (now - lna >=? renotify_after_s cfg)%Z then
                notify_violation (owner_email exp) (name exp) "schedule" code0
                  (message v) (v_evidence v) (v_id v) id
              else retM tt
            else retM tt
        | None => retM tt
        end
    end) violations.

(** Step (ii) of [_check_alertpath]: one pending trial. *)
Definition check_pending (exp : expectation) (params : AlertPathParams) (now : Z)
  (p : string * trial) : M unit :=
  let '(tid, tr) := p in
  let id := exp_id exp in
  let age := (now - sent_at tr)%Z in
  if (age >? ack_window_s params + tolerance_s exp)%Z then
    let* _ := db_op (fun _ d => (tt, expire_trial tid d)) in
    let code0 := "no_ack" in
    let msg := "No ACK received within " ++ pretty (ack_window_s params) ++ "s (+"
               ++ pretty (tolerance_s exp) ++ "s)." in
    let ev := [("trial_id", JStr tid); ("sent_at", JInt (sent_at tr)); ("age_s", JInt age)] in
    let* openv := db_read (open_violation id code0) in
    match openv with
    | None =>
        let* vid := db_op_exc (fun t => create_violation t id code0 msg ev) in
        notify_violation (owner_email exp) (name exp) "alert_path" code0 msg ev vid id
    | Some _ => retM tt
    end
  else retM tt.

(** [Checker._check_alertpath(exp, store, cfg, base, now)]. *)
Definition check_alertpath (base : string) (exp : expectation) (now : Z) : M unit :=
  let id := exp_id exp in
  let* last_obs := db_read (last_observation_time id None) in
  let* t := now_i in
  let* send := lift (alertpath_should_send_test exp last_obs t) in
  let* _ := if send then
              let* trial_id := token_urlsafe in
              let ack_url := base ++ "/ack/" ++ trial_id in
              let meta := dumps_strs [("ack_url", ack_url); ("note", "synthetic test")] in
              let* _ := db_op_exc (fun t d => let? d' := create_trial t trial_id id meta d in
                                              inr (tt, d')) in
              let* _ := db_op_exc (fun t => add_observation t id Ping
                                              (Some (dumps_strs [("sent_trial", trial_id)]))) in
              let subj := "[rewire] Alert-path test: " ++ name exp in
              let body := "This is a synthetic Rewire alert-path test." ++ nl ++ nl
                          ++ "Path: " ++ name exp ++ nl
                          ++ "Expectation ID: " ++ id ++ nl
                          ++ "To acknowledge delivery, open this link:" ++ nl
                          ++ ack_url ++ nl ++ nl
                          ++ "If no ack is received in time, Rewire will open a violation." ++ nl in
              send_email (owner_email exp) subj body
            else retM tt in
  (* Check pending trials for expiry *)
  let* params := lift (parse_alertpath (params_json exp)) in
  let* pending := db_read (pending_trials id) in
  let* _ := for_each (check_pending exp params now) pending in
  let* _ := db_op (fun _ => close_violations id ["no_ack"]) in
  retM tt.

(** The body of the [for exp in exps] loop of [Checker.tick]. *)
Definition check_one (cfg : config) (base : string) (now : Z) (exp : expectation) : M unit :=
  if String.eqb (exp_type exp) "schedule" then check_schedule cfg exp now
  else if String.eqb (exp_type exp) "alert_path" then check_alertpath base exp now
  else retM tt.

(** [Checker.tick()]. *)
Definition tick (cfg : config) : M unit :=
  let base := rstrip_slash (base_url cfg) in
  let* exps0 := db_read list_enabled_expectations in
  let* now := now_i in
  for_each (check_one cfg base now) exps0.

Definition show_exc (e : exc) : string :=
  match e with
  | KeyError k => "'" ++ k ++ "'"
  | ValueError m => m
  | TypeError => "TypeError"
  | AttributeError => "AttributeError"
  | IntegrityError => "IntegrityError"
  | OverflowError => "Python int too large to convert to SQLite INTEGER"
  | SMTPError => "SMTPError"
  end.

(** One iteration of [Checker.run]'s loop at clock [t]:
    [try: self.tick() except Exception as e: print(...)]. *)
Definition run_step (cfg : config) (t : Z) (w : world) : world :=
  match tick cfg t w with
  | (inl e, w') => log_error ("[checker] error: " ++ show_exc e) w'
  | (inr _, w') => w'
  end.

(** An HTTP response: [_text(code, s)] or [_json(code, obj)]. *)
Inductive response :=
| RText (status : Z) (body : string)
| RJson (status : Z) (body : json).

(** Whether every character of a string is ASCII. *)
Definition is_ascii_string (s : string) : bool :=
  forallb (fun c => Nat.ltb (nat_of_ascii c) 128) (list_ascii_of_string s).

(** [Handler._auth_admin()], given the [Authorization] header.
    [secrets.compare_digest] on two [str] raises [TypeError] when either
    holds a non-ASCII character (a header value is decoded as latin-1). *)
Definition auth_admin (cfg : config) (authorization : string) : exc + bool :=
  if String.prefix "Bearer " authorization then
    let tok := strip (substring 7 (String.length authorization - 7) authorization) in
    if is_ascii_string tok && is_ascii_string (admin_token cfg)
    then inr (String.eqb tok (admin_token cfg))
    else inl TypeError
  else inr false.

(** [dict(parse_qsl(raw))].get(k): the last value of a repeated field. *)
Definition form_get (form : list (string * string)) (k : string) : option string :=
  match List.find (fun kv => String.eqb (fst kv) k) (rev form) with
  | Some kv => Some (snd kv)
  | None => None
  end.

(** [Handler._handle_admin_enable(enable)], given the [Authorization]
    header and the decoded form. *)
Definition handle_admin_enable (cfg : config) (authorization : string)
  (form : list (string * string)) (enable : bool) : M response :=
  let* ok := lift (auth_admin cfg authorization) in
  if negb ok then retM (RText 401 ("unauthorized" ++ nl))
  else
    let exp_id0 := strip (match form_get form "id" with Some s => s | None => "" end) in
    if String.eqb exp_id0 "" then retM (RJson 400 (JObj [("error", JStr "need id")]))
    else
      let* _ := db_op (fun t => set_enabled t exp_id0 enable) in
      retM (RJson 200 (JObj [("ok", JBool true); ("enabled", JBool enable)])).

End Server.

(** ** The remaining HTTP handlers and Store calls they use *)
Module Handlers.
Import Rules Store Server.

(** [CreateExpectationParams]; [params_json] is held decoded, as
    [json.loads] returns it to every reader of the column. *)
Record create_params := {
  cp_exp_id : string;
  cp_exp_type : string;
  cp_name : string;
  cp_expected_interval_s : Z;
  cp_tolerance_s : Z;
  cp_params_json : json;
  cp_owner_email : string
}.

(** sqlite3 binds a Python [int] as a signed 64-bit INTEGER. *)
Definition int64_ok (z : Z) : bool := (- 2 ^ 63 <=? z)%Z && (z <? 2 ^ 63)%Z.

(** [Store.create_expectation(params)]: the [INSERT] with [is_enabled = 1]
    and both timestamps at [now_i()].  Binding an integer parameter outside
    the signed 64-bit range raises [OverflowError] before the statement
    runs; then a used id violates the PRIMARY KEY and a value outside the
    table's CHECK constraints ([type], [expected_interval_s >= 60],
    [tolerance_s >= 0]) makes SQLite raise [IntegrityError]. *)
Definition create_expectation (now : Z) (p : create_params) (d : db) : exc + db :=
  if negb (int64_ok (cp_expected_interval_s p) && int64_ok (cp_tolerance_s p) && int64_ok now)
  then inl OverflowError
  else
    match exps d !! cp_exp_id p with
    | Some _ => inl IntegrityError
    | None =>
        if (String.eqb (cp_exp_type p) "schedule" || String.eqb (cp_exp_type p) "alert_path")
           && (60 <=? cp_expected_interval_s p)%Z && (0 <=? cp_tolerance_s p)%Z
        then inr (with_exps d (<[cp_exp_id p := {| exp_id := cp_exp_id p;
                 exp_type := cp_exp_type p; name := cp_name p;
                 expected_interval_s := cp_expected_interval_s p;
                 tolerance_s := cp_tolerance_s p; params_json := cp_params_json p;
                 owner_email := cp_owner_email p; is_enabled := true;
                 created_at := now; updated_at := now |}]> (exps d)))
        else inl IntegrityError
    end.

(** [Store.get_expectation(exp_id)]. *)
Definition get_expectation (id : string) (d : db) : option expectation := exps d !! id.

Fixpoint lstrip_slash (s : string) : string :=
  match s with
  | String "/" s' => lstrip_slash s'
  | _ => s
  end.

(** [s.strip("/")]. *)
Definition strip_slash (s : string) : string := rstrip_slash (lstrip_slash s).


(** [s[n:]]. *)
Definition drop_prefix (n : nat) (s : string) : string :=
  substring n (String.length s - n) s.

(** [form.get(k) or default]: a missing or empty field gives [default]. *)
Definition form_or (form : list (string * string)) (k default : string) : string :=
  match form_get form k with
  | Some s => if String.eqb s "" then default else s
  | None => default
  end.

(** The [kind] strings the handler accepts, as the [kind] column holds them. *)
Definition kind_of_string (s : string) : option obs_kind :=
  if String.eqb s "start" then Some Start
  else if String.eqb s "end" then Some End
  else if String.eqb s "ping" then Some Ping
  else if String.eqb s "ack" then Some Ack
  else None.


(** [Handler._handle_observe_post()] for the request path and the decoded
    form. *)
Definition handle_observe_post (path : string) (form : list (string * string)) : M response :=
  let exp_id0 := strip_slash (drop_prefix 9 path) in
  let* row := db_read (get_expectation exp_id0) in
  match row with
  | None => retM (RText 404 ("unknown expectation" ++ nl))
  | Some _ =>
      let k := strip (form_or form "kind" "") in
      let meta := form_get form "meta" in
      match kind_of_string k with
      | None => retM (RJson 400 (JObj [("error", JStr "kind must be start|end|ping|ack")]))
      | Some k' =>
          let* _ := db_op_exc (fun t => add_observation t exp_id0 k' meta) in
          retM (RText 200 ("ok" ++ nl))
      end
  end.

(** [Handler._handle_admin_new()], given the [Authorization] header and the
    decoded form.  [json_loads] is [json.loads]; its [JSONDecodeError] is a
    [ValueError].  An exception of [int(...)] or of the insert is not caught
    by the handler. *)
Definition handle_admin_new (json_loads : string -> exc + json) (cfg : config)
  (authorization : string) (form : list (string * string)) : M response :=
  let* ok := lift (auth_admin cfg authorization) in
  if negb ok then retM (RText 401 ("unauthorized" ++ nl))
  else
    let exp_type0 := strip (form_or form "type" "") in
    let name0 := strip (form_or form "name" "") in
    let owner := strip (form_or form "email" "") in
    let* expected := lift (int_of_string (form_or form "expected_interval_s" "0")) in
    let* tol := lift (int_of_string (form_or form "tolerance_s" "0")) in
    let raw := form_or form "params_json" "{}" in
    if negb (String.eqb exp_type0 "schedule" || String.eqb exp_type0 "alert_path") then
      retM (RJson 400 (JObj [("error", JStr "type must be schedule|alert_path")]))
    else if String.eqb name0 "" || String.eqb owner "" || (expected <? 60)%Z then
      retM (RJson 400 (JObj [("error", JStr "need name,email,expected_interval_s>=60")]))
    else
      match (let? obj := json_loads raw in let? _ := parse_params exp_type0 obj in inr obj) with
      | inl e => retM (RJson 400 (JObj [("error", JStr ("invalid params_json: " ++ show_exc e))]))
      | inr obj =>
          let* exp_id0 := token_urlsafe in
          let* _ := db_op_exc (fun t d =>
                      let? d' := create_expectation t
                                   {| cp_exp_id := exp_id0; cp_exp_type := exp_type0;
                                      cp_name := name0; cp_expected_interval_s := expected;
                                      cp_tolerance_s := tol; cp_params_json := obj;
                                      cp_owner_email := owner |} d in
                      inr (tt, d')) in
          let observe_url := rstrip_slash (base_url cfg) ++ "/observe/" ++ exp_id0 in
          retM (RJson 200 (JObj [("id", JStr exp_id0); ("observe_url", JStr observe_url)]))
      end.

End Handlers.

(** ** The runtime invariant probe ([src/python/rewire/invariants.py]) *)
Module Probe.
Import Rules Store.

(** [InvariantResult]: its [name] and [passed] (the message and the
    evidence are not modelled). *)
Record inv_result := {
  inv_name : string;
  passed : bool
}.

(** [check_missed_correct(store)] at clock [now]. *)
Definition check_missed_correct (now : Z) (d : db) : list inv_result :=
  map (fun e =>
         let threshold := (expected_interval_s e + tolerance_s e)%Z in
         let should_be_missed :=
           match last_observation_time (exp_id e) (Some Start) d with
           | None => false
           | Some ls => (now - ls >? threshold)%Z
           end in
         let has_violation :=
           match open_violation (exp_id e) "missed" d with Some _ => true | None => false end in
         {| inv_name := "inv_missed_correct:" ++ exp_id e;
            passed := Bool.eqb should_be_missed has_violation |})
      (List.filter (fun e => String.eqb (exp_type e) "schedule") (list_enabled_expectations d)).

(** The loop of [check_longrun_correct]: [parse_params] may raise. *)
Fixpoint longrun_results (now : Z) (d : db) (l : list expectation) : exc + list inv_result :=
  match l with
  | [] => inr []
  | e :: l' =>
      if negb (String.eqb (exp_type e) "schedule") then longrun_results now d l'
      else
        let? p := parse_schedule (params_json e) in
        if Z.eqb (max_runtime_s p) 0 then longrun_results now d l'
        else
          let last_start := last_observation_time (exp_id e) (Some Start) d in
          let last_end := last_observation_time (exp_id e) (Some End) d in
          let is_running :=
            match last_start, last_end with
            | Some s, None => true
            | Some s, Some en => (en <? s)%Z
            | None, _ => false
            end in
          let should_be_longrun :=
            match last_start with
            | Some s => is_running && (now - s >? max_runtime_s p)%Z
            | None => false
            end in
          let has_violation :=
            match open_violation (exp_id e) "longrun" d with Some _ => true | None => false end in
          let r := {| inv_name := "inv_longrun_correct:" ++ exp_id e;
                      passed := Bool.eqb should_be_longrun has_violation |} in
          let? rest := longrun_results now d l' in
          inr (r :: rest)
  end.

(** [check_longrun_correct(store)] at clock [now]. *)
Definition check_longrun_correct (now : Z) (d : db) : exc + list inv_result :=
  longrun_results now d (list_enabled_expectations d).

(** [check_trial_states(store)]: one result per acked or expired trial. *)
Definition check_trial_states (d : db) : list inv_result :=
  flat_map (fun p : string * trial =>
              let '(tid, tr) := p in
              match status tr with
              | Acked =>
                  [{| inv_name := "inv_acked_has_timestamp:" ++ tid;
                      passed := match acked_at tr with Some a => (0 <? a)%Z | None => false end |}]
              | Expired =>
                  [{| inv_name := "inv_expired_not_acked:" ++ tid;
                      passed := match acked_at tr with None => true | Some _ => false end |}]
              | Pending => []
              end)
           (map_to_list (trials d)).

(** The scan of [check_observation_monotonicity]: [False] at the first row
    newer than the one before it. *)
Fixpoint monotonic_scan (prev_time : option Z) (l : list observation) : bool :=
  match l with
  | [] => true
  | o :: l' =>
      match prev_time with
      | Some p => if (p <? observed_at o)%Z then false else monotonic_scan (Some (observed_at o)) l'
      | None => monotonic_scan (Some (observed_at o)) l'
      end
  end.

(** [check_observation_monotonicity(store)]. *)
Definition check_observation_monotonicity (d : db) : list inv_result :=
  map (fun e => {| inv_name := "inv_observation_monotonic:" ++ exp_id e;
                   passed := monotonic_scan None (recent_observations (exp_id e) 1000 d) |})
      (list_enabled_expectations d).

End Probe.

(** ** The specification's reading of the checker tick

    Section 4.3, step 3 of the specification: "Exceptions during one
    expectation's evaluation must not abort the tick; they are logged and
    the loop continues."  This is the tick the specification describes, to
    be compared with [Server.run_step]. *)
Module SpecTick.
Import Rules Store Server.

Fixpoint for_each_isolated (f : expectation -> M unit) (l : list expectation) : M unit :=
  match l with
  | [] => retM tt
  | x :: l' =>
      fun t w =>
        let w1 := match f x t w with
                  | (inl e, w') => log_error ("[checker] error: " ++ show_exc e) w'
                  | (inr _, w') => w'
                  end in
        for_each_isolated f l' t w1
  end.

Definition run_step_isolated (cfg : config) (t : Z) (w : world) : world :=
  let base := rstrip_slash (base_url cfg) in
  snd (for_each_isolated (check_one cfg base t) (list_enabled_expectations (wdb w)) t w).

End SpecTick.

(** [schedule_evaluate] and [alertpath_should_send_test] as computations of
    the server: each reads the clock [now_i()] once. *)
Module EngineIO.
Import Rules Server.

(** What a call into [rules.py] can do: return, raise, or read the wall
    clock through [now_i()] and continue with the reading.  There is no
    write. *)
Inductive eng (A : Type) : Type :=
| ERet (a : A)
| ERaise (e : exc)
| ENow (k : Z -> eng A).

Arguments ERet {A} a.
Arguments ERaise {A} e.
Arguments ENow {A} k.

Definition of_exc {A} (r : exc + A) : eng A :=
  match r with inl e => ERaise e | inr a => ERet a end.

(** Running a call inside the server: [now_i()] reads the clock. *)
Fixpoint run_eng {A} (p : eng A) : M A :=
  match p with
  | ERet a => retM a
  | ERaise e => raise e
  | ENow k => let* t := now_i in run_eng (k t)
  end.

(** The number of clock readings of a call when the clock reads [t]. *)
Fixpoint clock_reads {A} (p : eng A) (t : Z) : nat :=
  match p with
  | ERet _ | ERaise _ => 0
  | ENow k => S (clock_reads (k t) t)
  end.

(** [schedule_evaluate(exp_row, obs_rows_desc)]: [parse_params] (which may
    raise), the two [int(...)] of INTEGER columns, then [t = now_i()] and the
    evaluation at [t]. *)
Definition schedule_evaluate_eng (e : expectation) (o : list observation) :
  eng (list violation_tuple * list string) :=
  match parse_schedule (params_json e) with
  | inl ex => ERaise ex
  | inr _ => ENow (fun t => of_exc (schedule_evaluate e o t))
  end.

(** [alertpath_should_send_test(exp_row, last_any_obs_time)]. *)
Definition alertpath_should_send_test_eng (e : expectation) (last_any_obs_time : option Z) :
  eng bool :=
  match parse_alertpath (params_json e) with
  | inl ex => ERaise ex
  | inr params =>
      match last_any_obs_time with
      | None => ERet true
      | Some last => ENow (fun t => ERet (t - last >=? test_interval_s params)%Z)
      end
  end.

End EngineIO.

(** ** Concrete inputs from the specification's scenarios *)
Module Examples.
Import Rules Store Server.
Open Scope Z_scope.

Definition ob (k : obs_kind) (t : Z) : observation :=
  {| obs_id := t; obs_exp := "E"; kind := k; observed_at := t; obs_meta := None |}.

(** A schedule expectation with [params_json = "{}"]. *)
Definition sched : expectation :=
  {| exp_id := "E"; exp_type := "schedule"; name := "job"; expected_interval_s := 60;
     tolerance_s := 10; params_json := JObj []; owner_email := "o@example.com";
     is_enabled := true; created_at := 0; updated_at := 0 |}.

(** The alert-path expectation of scenarios S4 and S5. *)
Definition alert (id : string) : expectation :=
  {| exp_id := id; exp_type := "alert_path"; name := "path"; expected_interval_s := 3600;
     tolerance_s := 0;
     params_json := JObj [("test_interval_s", JInt 3600); ("ack_window_s", JInt 300)];
     owner_email := "o@example.com"; is_enabled := true; created_at := 0; updated_at := 0 |}.

Definition cfg0 : config :=
  {| base_url := "https://rewire.example/"; admin_token := "secret"; check_every_s := 60;
     renotify_after_s := 0; send_recovery := false |}.

Definition world_of (d : db) : world :=
  {| wdb := d; next_token := 0; smtp_host := None; smtp_up := true; outbox := [];
     hooks := []; errlog := [] |}.

(** S5 at [t=400]: trial [T] sent at [t=0], its [ping], no ack. *)
Definition db_s5 : db :=
  {| exps := <["E" := alert "E"]> ∅;
     obs := [{| obs_id := 1; obs_exp := "E"; kind := Ping; observed_at := 0;
                obs_meta := None |}];
     next_seq := 2;
     trials := <["T" := {| tr_exp := "E"; sent_at := 0; acked_at := None; status := Pending;
                           tr_meta := "" |}]> ∅;
     viols := []; next_vid := 1 |}.

(** Two alert-path expectations due for a test, the SMTP relay down. *)
Definition db_two : db :=
  {| exps := <["A" := alert "A"]> (<["B" := alert "B"]> ∅); obs := []; next_seq := 1;
     trials := ∅; viols := []; next_vid := 1 |}.

Definition world_smtp_down : world :=
  {| wdb := db_two; next_token := 0; smtp_host := Some "smtp.example.com"; smtp_up := false;
     outbox := []; hooks := []; errlog := [] |}.

(** An expectation [E] with no trial yet. *)
Definition db_one : db :=
  {| exps := <["E" := alert "E"]> ∅; obs := []; next_seq := 1; trials := ∅; viols := [];
     next_vid := 1 |}.

End Examples.

(** ** Vocabulary of the properties *)
Module Model.
Import Rules Store.

(** Entries of a [violations] list with code [c]. *)
Definition is_code (c : string) (v : violation_tuple) : bool := String.eqb (vt_code v) c.

(** The keys [parse_params(exp_type, ...)] reads for each type. *)
Definition keys_read (exp_type : string) : list string :=
  if String.eqb exp_type "schedule" then ["max_runtime_s"; "min_spacing_s"; "allow_overlap"]
  else if String.eqb exp_type "alert_path" then ["ack_window_s"; "test_interval_s"]
  else [].

(** The Store calls that write [alert_trials]: [create_trial] (a failing
    insert leaves the table as it was), [ack_trial], [expire_trial]. *)
Inductive trial_step : db -> db -> Prop :=
| step_create now id exp meta d d' :
    create_trial now id exp meta d = inr d' -> trial_step d d'
| step_create_fails now id exp meta d err :
    create_trial now id exp meta d = inl err -> trial_step d d
| step_ack now id d : trial_step d (snd (ack_trial now id d))
| step_expire id d : trial_step d (expire_trial id d).

(** Databases reachable from one with no trial. *)
Inductive reachable : db -> Prop :=
| reach_init d : trials d = ∅ -> reachable d
| reach_step d d' : reachable d -> trial_step d d' -> reachable d'.

(** The trial invariants of the data model. *)
Definition trial_ok (tr : trial) : Prop :=
  match status tr with
  | Pending => acked_at tr = None
  | Acked => acked_at tr <> None
  | Expired => acked_at tr = None
  end.

Definition trial_inv (d : db) : Prop :=
  forall id tr, trials d !! id = Some tr -> trial_ok tr.

End Model.

(** The open rows of [violations] for one expectation and code, and the
    data-model invariant that there is at most one of them. *)
Module ViolModel.
Import Rules Store Server.

Definition open_rows (exp c : string) (d : db) : list violation :=
  List.filter (fun v => String.eqb (v_exp v) exp && String.eqb (code v) c && is_open v) (viols d).

Definition unique_open (d : db) : Prop :=
  forall exp c, (length (open_rows exp c d) <= 1)%nat.

(** A server computation that keeps a property of the database, whatever
    it returns or raises. *)
Definition preserves {A} (P : db -> Prop) (m : M A) : Prop :=
  forall t w r w', m t w = (r, w') -> P (wdb w) -> P (wdb w').

End ViolModel.

(** The remaining read paths: [GET /observe/<id>], [open_violations_count]
    and the per-trial test of [check_trial_states]. *)
Module Reads.
Import Rules Store Server Handlers.

(** The [kind] column as the handler stores it. *)
Definition kind_str (k : obs_kind) : string :=
  match k with Start => "start" | End => "end" | Ping => "ping" | Ack => "ack" end.

(** The [meta_json] column, a nullable text. *)
Definition meta_json (m : option string) : json :=
  match m with Some s => JStr s | None => JNull end.

(** One entry of ["recent_observations"] in the [GET] answer. *)
Definition obs_json (r : observation) : json :=
  JObj [("kind", JStr (kind_str (kind r))); ("observed_at", JInt (observed_at r));
        ("meta", meta_json (obs_meta r))].

(** [Handler._handle_observe_get()] for the request path. *)
Definition handle_observe_get (path : string) : M response :=
  let exp_id0 := strip_slash (drop_prefix 9 path) in
  let* row := db_read (get_expectation exp_id0) in
  match row with
  | None => retM (RText 404 ("unknown expectation" ++ nl))
  | Some e =>
      let* rows := db_read (recent_observations exp_id0 10) in
      retM (RJson 200 (JObj [("id", JStr (exp_id e)); ("type", JStr (exp_type e));
              ("name", JStr (name e));
              ("expected_interval_s", JInt (expected_interval_s e));
              ("tolerance_s", JInt (tolerance_s e)); ("params", params_json e);
              ("owner_email", JStr (owner_email e)); ("is_enabled", JBool (is_enabled e));
              ("recent_observations", JArr (map obs_json rows))]))
  end.

(** [Store.open_violations_count(exp_id)]: [if exp_id:] filters by
    expectation, so [None] and the empty string count every open row. *)
Definition open_violations_count (exp_id0 : option string) (d : db) : Z :=
  match exp_id0 with
  | Some e =>
      if String.eqb e "" then Z.of_nat (length (List.filter is_open (viols d)))
      else Z.of_nat (length (List.filter (fun v => String.eqb (v_exp v) e && is_open v)
                                         (viols d)))
  | None => Z.of_nat (length (List.filter is_open (viols d)))
  end.

(** The test [check_trial_states] applies to one row: [passed] of its result
    for an acked or expired trial; a pending trial gives no result. *)
Definition trial_passes (tr : trial) : bool :=
  match status tr with
  | Acked => match acked_at tr with Some a => (0 <? a)%Z | None => false end
  | Expired => match acked_at tr with None => true | Some _ => false end
  | Pending => true
  end.

End Reads.

(** Violation ids as the [INTEGER PRIMARY KEY AUTOINCREMENT] column keeps
    them, and preservation of a property of the whole world. *)
Module Quiet.
Import Rules Store Server.

(** The ids of the [violations] rows are distinct and below the next one. *)
Definition ids_ok (d : db) : Prop :=
  NoDup (map v_id (viols d)) /\ forall v, In v (viols d) -> (v_id v < next_vid d)%Z.

(** [m] keeps [P] of the world, whether it returns or raises. *)
Definition wpreserves {A} (P : world -> Prop) (m : M A) : Prop :=
  forall t w r w', m t w = (r, w') -> P w -> P w'.

End Quiet.

(** * Properties *)

Module Facts.
Import Rules Store Server.

(** Peeling a successful sequential computation. *)
Lemma bindM_inr {A B} (m : M A) (k : A -> M B) t w b w' :
  bindM m k t w = (inr b, w') ->
  exists a w1, m t w = (inr a, w1) /\ k a t w1 = (inr b, w').
Proof.
  unfold bindM. destruct (m t w) as [[e|a] w1]; intros H.
  - discriminate H.
  - eauto.
Qed.

Lemma for_each_cons {A} (f : A -> M unit) x l :
  for_each f (x :: l) = bindM (f x) (fun _ => for_each f l).
Proof. reflexivity. Qed.

Lemma for_each_app {A} (f : A -> M unit) l1 l2 t w :
  for_each f (l1 ++ l2) t w = bindM (for_each f l1) (fun _ => for_each f l2) t w.
Proof.
  revert w. induction l1 as [|x l1 IH]; intros w.
  - reflexivity.
  - rewrite <- app_comm_cons, !for_each_cons. unfold bindM.
    destruct (f x t w) as [[e|[]] w1]; [reflexivity|].
    apply IH.
Qed.

(** A left fold that keeps its accumulator on rows failing [cond]. *)
(** [next((r for r in rows if pred(r)), None)] finds nothing when no row
    satisfies [pred]. *)
Lemma find_none_all {A} (f : A -> bool) (l : list A) :
  (forall x, In x l -> f x = false) -> List.find f l = None.
Proof.
  induction l as [|x l IH]; intros H; simpl; [reflexivity|].
  rewrite (H x (or_introl eq_refl)). apply IH. intros y Hy. apply H. now right.
Qed.

(** In a list sorted newest first, the first start is at least as new as
    any start. *)
Lemma first_start_newest (o : list observation) (fs r : observation) :
  StronglySorted (fun a b => (observed_at b <= observed_at a)%Z) o ->
  List.find is_start o = Some fs -> In r o -> is_start r = true ->
  (observed_at r <= observed_at fs)%Z.
Proof.
  induction o as [|x o IH]; intros Hs Hf Hr Hst; simpl in *; [contradiction|].
  inversion Hs as [|? ? Hs' Hall]; subst.
  destruct (is_start x) eqn:Ex.
  - injection Hf as <-. destruct Hr as [<-|Hr]; [lia|].
    exact (proj1 (List.Forall_forall _ _) Hall r Hr).
  - destruct Hr as [<-|Hr]; [congruence|]. now apply IH.
Qed.

Lemma find_app {A} (f : A -> bool) (l1 l2 : list A) :
  List.find f (l1 ++ l2) = match List.find f l1 with Some x => Some x | None => List.find f l2 end.
Proof. induction l1 as [|x l1 IH]; simpl; [reflexivity|]. destruct (f x); auto. Qed.

(** A key other than [k'] inserted anywhere in a JSON object does not
    change [d.get(k')]. *)
Lemma dict_get_other (kvs1 kvs2 : list (string * json)) (k k' : string) (v : json) :
  k <> k' -> dict_get (kvs1 ++ (k, v) :: kvs2) k' = dict_get (kvs1 ++ kvs2) k'.
Proof.
  intros Hne. unfold dict_get. rewrite !rev_app_distr. simpl.
  rewrite <- app_assoc, !find_app. simpl.
  destruct (List.find _ (rev kvs2)); [reflexivity|].
  destruct (String.eqb_spec k k'); [contradiction|reflexivity].
Qed.

Lemma fold_keep {A B} (cond : A -> bool) (g : B -> A -> B) (l : list A) (acc : B) :
  (forall v, In v l -> cond v = false) ->
  fold_left (fun acc v => if cond v then g acc v else acc) l acc = acc.
Proof.
  revert acc. induction l as [|v l IH]; intros acc Hl; simpl; [reflexivity|].
  rewrite (Hl v (or_introl eq_refl)). apply IH. intros u Hu. apply Hl. now right.
Qed.

(** After [close_violations(exp_id, [c])] no row of [exp_id] with code
    [c] is open. *)
Lemma open_violation_after_close exp c d :
  open_violation exp c (snd (close_violations exp [c] d)) = None.
Proof.
  unfold open_violation, close_violations; simpl.
  apply (fold_keep (fun v => String.eqb (v_exp v) exp && String.eqb (code v) c && is_open v)).
  intros v Hv. apply in_map_iff in Hv as (u & <- & _).
  unfold closes; simpl.
  destruct (String.eqb (v_exp u) exp) eqn:E1, (is_open u) eqn:E2,
           (String.eqb (code u) c) eqn:E3; simpl;
    rewrite ?E1, ?E2, ?E3; simpl; try reflexivity.
  all: rewrite ?andb_false_r; reflexivity.
Qed.

End Facts.

Module Claims.
Import Rules Store Server Facts Examples Model.
Open Scope Z_scope.

Ltac peel H :=
  repeat (apply bindM_inr in H; destruct H as (? & ? & ? & H); cbv beta in H).

Lemma db_op_inr {A} (f : Z -> db -> A * db) t w a w' :
  db_op f t w = (inr a, w') -> w' = with_db w (snd (f t (wdb w))).
Proof.
  unfold db_op. destruct (f t (wdb w)) as [a' d]. now intros [= _ <-].
Qed.

(** C1 (code bug).  Every completed [_check_alertpath] pass ends with
    [close_violations(exp_id, ["no_ack"])], whatever it did before: after the
    pass no [no_ack] violation of the expectation is open, also when the
    pass has just expired a trial and created that violation. *)
Theorem no_ack_closed_after_alertpath_pass (base : string) (exp : expectation)
  (now t : Z) (w w' : world) :
  check_alertpath base exp now t w = (inr tt, w') ->
  open_violation (exp_id exp) "no_ack" (wdb w') = None.
Proof.
  intros H. unfold check_alertpath in H. peel H.
  unfold retM in H. injection H as <-.
  match goal with Hc : db_op _ _ _ = (inr _, ?w8) |- _ => apply db_op_inr in Hc; subst w8 end.
  apply open_violation_after_close.
Qed.

Lemma no_ack_closed_after_alertpath_pass_witness :
  let r := check_alertpath "https://rewire.example" (alert "E") 400 400 (world_of db_s5) in
  fst r = inr tt
  /\ map (fun v => (code v, v_evidence v, is_open v)) (viols (wdb (snd r)))
     = [("no_ack", [("trial_id", JStr "T"); ("sent_at", JInt 0); ("age_s", JInt 400)], false)]
  /\ open_violation "E" "no_ack" (wdb (snd r)) = None.
Proof.
  simpl. split; [vm_compute; reflexivity|]. split; [vm_compute; reflexivity|].
  apply (no_ack_closed_after_alertpath_pass "https://rewire.example" (alert "E") 400 400
           (world_of db_s5)).
  vm_compute. reflexivity.
Defined.

(** C2 (code bug).  With observations [start@0, end@10, start@50] (newest
    first) and [allow_overlap] false, [schedule_evaluate] opens [overlap]
    against the earlier start although [end@10] ended that run: the list
    [starts_without_end] holds every start. *)
Theorem overlap_opened_after_completed_run :
  schedule_evaluate sched [ob Start 50; ob End 10; ob Start 0] 60
  = inr ([("overlap", "Detected overlapping runs.",
           [("newest_start_at", JInt 50); ("other_start_at", JInt 0)])],
         ["missed"; "longrun"]).
Proof. vm_compute. reflexivity. Qed.

(** C3 (counterexample).  The tick does not isolate expectations: with the
    SMTP relay down, the first alert-path expectation raises while mailing
    its test, and the second is not evaluated in that tick (no trial is
    created for it), unlike the tick of the specification. *)
Lemma tick_not_isolated :
  ~ (forall cfg t w, run_step cfg t w = SpecTick.run_step_isolated cfg t w).
Proof.
  intros H. specialize (H cfg0 0 world_smtp_down).
  apply (f_equal (fun w => length (pending_trials "B" (wdb w)))) in H.
  vm_compute in H. discriminate H.
Qed.

(** C3 (amended).  An exception raised while evaluating an expectation ends
    the tick: the expectations after it in the snapshot are not evaluated,
    [Checker.run] logs the exception once, and the Store writes committed
    before it remain. *)
Theorem tick_stops_at_first_exception (cfg : config) (t : Z) (w : world)
  (pre post : list expectation) (x : expectation) (w1 w2 : world) (e : exc) :
  list_enabled_expectations (wdb w) = (pre ++ x :: post)%list ->
  for_each (check_one cfg (rstrip_slash (base_url cfg)) t) pre t w = (inr tt, w1) ->
  check_one cfg (rstrip_slash (base_url cfg)) t x t w1 = (inl e, w2) ->
  run_step cfg t w = log_error ("[checker] error: " ++ show_exc e) w2.
Proof.
  intros Hl Hpre Hx. unfold run_step, tick.
  unfold bindM at 1. unfold db_read. rewrite Hl. cbv beta.
  unfold bindM at 1. unfold now_i. cbv beta.
  rewrite for_each_app. unfold bindM at 1. rewrite Hpre.
  rewrite for_each_cons. unfold bindM at 1. rewrite Hx. reflexivity.
Qed.

Lemma tick_stops_at_first_exception_witness :
  run_step cfg0 0 world_smtp_down
  = log_error ("[checker] error: " ++ show_exc SMTPError)
      (snd (check_one cfg0 (rstrip_slash (base_url cfg0)) 0 (alert "A") 0 world_smtp_down)).
Proof.
  apply (tick_stops_at_first_exception cfg0 0 world_smtp_down [] [alert "B"] (alert "A")
           world_smtp_down).
  - vm_compute. reflexivity.
  - reflexivity.
  - vm_compute. reflexivity.
Defined.

End Claims.

Module Claims2.
Import Rules Store Server Facts Examples Model.
Open Scope Z_scope.

(** C4.  Let [last_start] be a newest [start] of the observations (sorted
    newest first).  [schedule_evaluate] emits [missed] iff
    [t - last_start.observed_at > E + T], with evidence exactly
    [{last_start_at, age_s, expected_s, tolerance_s}]; otherwise [missed]
    is in the close list. *)
Theorem missed_iff_overdue (e : expectation) (p : ScheduleParams) (o : list observation)
  (t : Z) (ls : observation) :
  parse_schedule (params_json e) = inr p ->
  Sorted (fun a b => observed_at b <= observed_at a) o ->
  In ls o -> kind ls = Start ->
  (forall r, In r o -> kind r = Start -> observed_at r <= observed_at ls) ->
  exists vs cs, schedule_evaluate e o t = inr (vs, cs) /\
    let age := t - observed_at ls in
    let E := expected_interval_s e in
    let T := tolerance_s e in
    (age > E + T ->
       (exists msg, List.filter (is_code "missed") vs
                    = [("missed", msg, [("last_start_at", JInt (observed_at ls));
                                        ("age_s", JInt age); ("expected_s", JInt E);
                                        ("tolerance_s", JInt T)])])
       /\ ~ In "missed" cs) /\
    (age <= E + T -> List.filter (is_code "missed") vs = [] /\ In "missed" cs).
Proof.
  intros Hp Hs Hls Hk Hnew.
  apply Sorted_StronglySorted in Hs; [|intros a b c; lia].
  unfold schedule_evaluate. rewrite Hp. cbn [bind_exc].
  destruct (List.find is_start o) as [fs|] eqn:Hf.
  2:{ exfalso. pose proof (find_none _ _ Hf ls Hls) as Hn. unfold is_start in Hn.
      rewrite Hk in Hn. discriminate. }
  assert (Heq : observed_at fs = observed_at ls).
  { pose proof (first_start_newest o fs ls Hs Hf Hls
                  ltac:(unfold is_start; rewrite Hk; reflexivity)) as H1.
    apply find_some in Hf as [Hin Hst].
    apply Hnew in Hin; [lia|]. unfold is_start in Hst.
    destruct (kind fs); simpl in Hst; congruence. }
  rewrite Heq.
  destruct (t - observed_at ls >? expected_interval_s e + tolerance_s e) eqn:Hage;
    repeat case_match; simplify_eq;
    (eexists _, _; split; [reflexivity|]); cbn zeta;
    rewrite ?filter_app; simpl;
    (split; intros Hc; [|]); try lia; split; eauto;
    rewrite ?filter_app; simpl; try reflexivity; intuition congruence.
Qed.

Lemma missed_iff_overdue_witness :
  exists vs cs, schedule_evaluate sched [ob Start 50; ob End 10; ob Start 0] 200 = inr (vs, cs)
    /\ exists msg, List.filter (is_code "missed") vs
                   = [("missed", msg, [("last_start_at", JInt 50); ("age_s", JInt 150);
                                       ("expected_s", JInt 60); ("tolerance_s", JInt 10)])].
Proof.
  destruct (missed_iff_overdue sched
              {| max_runtime_s := 0; min_spacing_s := 0; allow_overlap := false |}
              [ob Start 50; ob End 10; ob Start 0] 200 (ob Start 50))
    as (vs & cs & H & Hgt & _).
  - reflexivity.
  - repeat constructor; simpl; lia.
  - simpl. auto.
  - reflexivity.
  - intros r Hr Hk. simpl in Hr.
    destruct Hr as [<-|[<-|[<-|[]]]]; simpl in *; [lia|discriminate|lia].
  - exists vs, cs. split; [exact H|]. apply Hgt. simpl. lia.
Defined.
End Claims2.

Module Claims3.
Import Rules Store Server Facts Examples EngineIO Model.
Open Scope Z_scope.

(** C5.  Epistemic silence: when the observations hold no [start],
    [schedule_evaluate] of a schedule expectation returns [([], [])],
    whatever the clock reads and whatever [end], [ping] or [ack] rows
    exist. *)
Theorem no_start_no_codes (e : expectation) (p : ScheduleParams) (o : list observation)
  (t : Z) :
  parse_schedule (params_json e) = inr p ->
  (forall r, In r o -> kind r <> Start) ->
  schedule_evaluate e o t = inr ([], []).
Proof.
  intros Hp Hno. unfold schedule_evaluate. rewrite Hp. cbn [bind_exc].
  rewrite find_none_all; [reflexivity|].
  intros r Hr. specialize (Hno r Hr). unfold is_start.
  destruct (kind r); [contradiction|reflexivity..].
Qed.

Lemma no_start_no_codes_witness :
  schedule_evaluate sched [ob End 9000; ob Ping 500; ob Ack 20] 1000000 = inr ([], []).
Proof.
  apply (no_start_no_codes sched {| max_runtime_s := 0; min_spacing_s := 0;
                                     allow_overlap := false |}).
  - reflexivity.
  - intros r Hr. simpl in Hr.
    destruct Hr as [<-|[<-|[<-|[]]]]; simpl; discriminate.
Defined.

Lemma run_of_exc {A} (r : exc + A) t w : run_eng (of_exc r) t w = (r, w).
Proof. destruct r; reflexivity. Qed.

Lemma clock_reads_of_exc {A} (r : exc + A) t : clock_reads (of_exc r) t = 0%nat.
Proof. destruct r; reflexivity. Qed.

(** C6 (counterexample).  The rule engine reads the wall clock: the same
    expectation and observations give different results at two clock
    readings ([missed] opens at [t = 71], not at [t = 70]). *)
Lemma engine_reads_clock :
  ~ (forall e o t1 t2 w, run_eng (schedule_evaluate_eng e o) t1 w
                         = run_eng (schedule_evaluate_eng e o) t2 w).
Proof.
  intros H. specialize (H sched [ob Start 0] 70 71 (world_of empty_db)).
  vm_compute in H. discriminate H.
Qed.

(** C6 (amended).  Run inside the server, [schedule_evaluate] and
    [alertpath_should_send_test] leave the world as it was, and their
    result is the evaluation at the clock reading.  Once [parse_params]
    succeeds, [schedule_evaluate] reads the clock once;
    [alertpath_should_send_test] reads it once when [last_any_obs_time] is
    given and not at all when it is [None], where its answer ([True])
    is the same at every clock reading. *)
Theorem engine_pure_given_clock :
  (forall e o t w,
     run_eng (schedule_evaluate_eng e o) t w = (schedule_evaluate e o t, w)
     /\ clock_reads (schedule_evaluate_eng e o) t
        = match parse_schedule (params_json e) with inl _ => 0%nat | inr _ => 1%nat end)
  /\ (forall e last t w,
        run_eng (alertpath_should_send_test_eng e last) t w
        = (alertpath_should_send_test e last t, w)
        /\ clock_reads (alertpath_should_send_test_eng e last) t
           = match parse_alertpath (params_json e), last with
             | inr _, Some _ => 1%nat
             | _, _ => 0%nat
             end)
  /\ (forall e t1 t2, alertpath_should_send_test e None t1 = alertpath_should_send_test e None t2).
Proof.
  split; [|split].
  - intros e o t w. unfold schedule_evaluate_eng.
    destruct (parse_schedule (params_json e)) as [ex|p] eqn:Hp.
    + unfold schedule_evaluate. rewrite Hp. split; reflexivity.
    + split; [cbn [run_eng]; unfold bindM, now_i; apply run_of_exc|].
      cbn [clock_reads]. rewrite clock_reads_of_exc. reflexivity.
  - intros e last t w. unfold alertpath_should_send_test_eng, alertpath_should_send_test.
    destruct (parse_alertpath (params_json e)) as [ex|p]; [split; reflexivity|].
    cbn [bind_exc]. destruct last as [l|]; split; reflexivity.
  - intros e t1 t2. unfold alertpath_should_send_test.
    destruct (parse_alertpath (params_json e)); reflexivity.
Qed.

(** C7 (counterexample).  An alert-path [params_json] without
    [ack_window_s] is rejected with [KeyError]. *)
Lemma alert_path_key_required :
  parse_params "alert_path" (JObj [("test_interval_s", JInt 3600)])
  = inl (KeyError "ack_window_s").
Proof. reflexivity. Qed.

(** C7 (amended).  For either type, a key the type does not read is
    ignored: [schedule] reads only [max_runtime_s], [min_spacing_s] and
    [allow_overlap], [alert_path] only [ack_window_s] and [test_interval_s].
    For [schedule], a missing [max_runtime_s] or [min_spacing_s] is 0 and a
    missing [allow_overlap] is false.  For [alert_path], [ack_window_s] and
    [test_interval_s] are required: without [ack_window_s] parsing raises
    [KeyError('ack_window_s')]; without [test_interval_s] it raises
    [KeyError('test_interval_s')], unless reading [ack_window_s] already
    raised, which then propagates. *)
Theorem parse_params_keys :
  (forall ty kvs1 kvs2 k v, ~ In k (keys_read ty) ->
     parse_params ty (JObj (kvs1 ++ (k, v) :: kvs2)) = parse_params ty (JObj (kvs1 ++ kvs2)))
  /\ (forall kvs p, parse_schedule (JObj kvs) = inr p ->
        (dict_get kvs "max_runtime_s" = None -> max_runtime_s p = 0)
        /\ (dict_get kvs "min_spacing_s" = None -> min_spacing_s p = 0)
        /\ (dict_get kvs "allow_overlap" = None -> allow_overlap p = false))
  /\ (forall kvs, dict_get kvs "max_runtime_s" = None -> dict_get kvs "min_spacing_s" = None ->
        dict_get kvs "allow_overlap" = None ->
        parse_schedule (JObj kvs)
        = inr {| max_runtime_s := 0; min_spacing_s := 0; allow_overlap := false |})
  /\ (forall kvs, dict_get kvs "ack_window_s" = None ->
        parse_params "alert_path" (JObj kvs) = inl (KeyError "ack_window_s"))
  /\ (forall kvs, dict_get kvs "test_interval_s" = None ->
        parse_params "alert_path" (JObj kvs)
        = inl (match (let? v := dict_index kvs "ack_window_s" in py_int v) with
               | inl err => err
               | inr _ => KeyError "test_interval_s"
               end)).
Proof.
  split; [|split; [|split; [|split]]].
  - intros ty kvs1 kvs2 k v Hk.
    assert (Hg : forall k', In k' (keys_read ty) ->
              dict_get (kvs1 ++ (k, v) :: kvs2) k' = dict_get (kvs1 ++ kvs2) k').
    { intros k' Hk'. apply dict_get_other. intros ->. contradiction. }
    unfold keys_read in Hg. unfold parse_params, dict_get_default, dict_index.
    destruct (String.eqb_spec ty "schedule") as [->|Hs].
    + cbn in Hg. rewrite !Hg by tauto. reflexivity.
    + destruct (String.eqb_spec ty "alert_path") as [->|Ha]; [|reflexivity].
      cbn in Hg. rewrite !Hg by tauto. reflexivity.
  - intros kvs p Hp. unfold parse_schedule, parse_params, dict_get_default in Hp.
    simpl in Hp.
    destruct (py_int (match dict_get kvs "max_runtime_s" with Some v => v | None => JInt 0 end))
      as [|m] eqn:Hm; [discriminate|].
    destruct (py_int (match dict_get kvs "min_spacing_s" with Some v => v | None => JInt 0 end))
      as [|sp] eqn:Hsp; simpl in Hp; [discriminate|].
    injection Hp as <-. simpl.
    repeat split; intros Hn; rewrite Hn in *; simpl in *; congruence.
  - intros kvs H1 H2 H3. unfold parse_schedule, parse_params, dict_get_default.
    rewrite H1, H2, H3. reflexivity.
  - intros kvs H1. unfold parse_params, dict_index. simpl. rewrite H1. reflexivity.
  - intros kvs H1. unfold parse_params, dict_index. simpl. rewrite H1.
    destruct (dict_get kvs "ack_window_s") as [v|]; simpl; [|reflexivity].
    destruct (py_int v); reflexivity.
Qed.

Lemma parse_params_keys_witness :
  parse_params "alert_path"
      (JObj [("ack_window_s", JInt 300); ("max_runtime_s", JStr "x"); ("test_interval_s", JInt 60)])
    = parse_params "alert_path" (JObj [("ack_window_s", JInt 300); ("test_interval_s", JInt 60)])
  /\ max_runtime_s {| max_runtime_s := 0; min_spacing_s := 5; allow_overlap := false |} = 0
  /\ parse_schedule (JObj [("note", JStr "x")])
     = inr {| max_runtime_s := 0; min_spacing_s := 0; allow_overlap := false |}
  /\ parse_params "alert_path" (JObj [("test_interval_s", JInt 60)])
     = inl (KeyError "ack_window_s")
  /\ parse_params "alert_path" (JObj [("ack_window_s", JStr "1_000")])
     = inl (KeyError "test_interval_s").
Proof.
  destruct parse_params_keys as (H1 & H2 & H3 & H4 & H5).
  split; [|split; [|split; [|split]]].
  - apply (H1 "alert_path" [("ack_window_s", JInt 300)] [("test_interval_s", JInt 60)]
             "max_runtime_s" (JStr "x")).
    vm_compute. intuition discriminate.
  - apply (H2 [("min_spacing_s", JInt 5)]); reflexivity.
  - apply H3; reflexivity.
  - apply H4; reflexivity.
  - rewrite H5 by reflexivity. vm_compute. reflexivity.
Defined.

End Claims3.

Module Claims4.
Import Rules Store Server Facts Examples Model.
Open Scope Z_scope.

Lemma trials_with_trials d m : trials (with_trials d m) = m.
Proof. reflexivity. Qed.

(** [ack_trial] changes the database only when it returns [True]. *)
Lemma ack_trial_false_same now id d :
  fst (ack_trial now id d) = false -> snd (ack_trial now id d) = d.
Proof.
  unfold ack_trial. destruct (trials d !! id) as [tr|]; [|reflexivity].
  destruct (trial_status_eqb (status tr) Pending); simpl; [discriminate|reflexivity].
Qed.

(** C8.  [ack_trial] succeeds exactly on a pending trial, which becomes
    [acked] with [acked_at] set; otherwise (unknown, acked or expired) it
    returns [False] and changes nothing; a second call after a success
    returns [False] and changes nothing; [expire_trial] leaves a database
    whose trial is not pending (or absent) as it is. *)
Theorem ack_trial_only_from_pending (now now' : Z) (id : string) (d : db) :
  (fst (ack_trial now id d) = true <-> exists tr, trials d !! id = Some tr /\ status tr = Pending)
  /\ (fst (ack_trial now id d) = false -> snd (ack_trial now id d) = d)
  /\ (forall tr, trials d !! id = Some tr -> status tr = Pending ->
        trials (snd (ack_trial now id d)) !! id
        = Some {| tr_exp := tr_exp tr; sent_at := sent_at tr; acked_at := Some now;
                  status := Acked; tr_meta := tr_meta tr |})
  /\ (fst (ack_trial now id d) = true ->
        ack_trial now' id (snd (ack_trial now id d)) = (false, snd (ack_trial now id d)))
  /\ ((forall tr, trials d !! id = Some tr -> status tr <> Pending) -> expire_trial id d = d).
Proof.
  split; [|split; [apply ack_trial_false_same|split; [|split]]].
  - unfold ack_trial. destruct (trials d !! id) as [tr|] eqn:Ht.
    + destruct (status tr) eqn:Hs; simpl; split; try discriminate; eauto.
      all: intros (tr' & Ht' & Hs'); injection Ht' as <-; congruence.
    + simpl. split; [discriminate|]. intros (tr' & ? & _). discriminate.
  - intros tr Ht Hs. unfold ack_trial. rewrite Ht, Hs. simpl.
    apply lookup_insert_eq.
  - unfold ack_trial at 1 3 4.
    destruct (trials d !! id) as [tr|] eqn:Ht; [|simpl; intros Hf; discriminate Hf].
    destruct (trial_status_eqb (status tr) Pending); simpl; [|intros Hf; discriminate Hf].
    intros _. unfold ack_trial. rewrite trials_with_trials, lookup_insert_eq. reflexivity.
  - intros Hnp. unfold expire_trial. destruct (trials d !! id) as [tr|] eqn:Ht; [|reflexivity].
    specialize (Hnp tr eq_refl). destruct (status tr); simpl; [contradiction|reflexivity..].
Qed.

Lemma ack_trial_only_from_pending_witness :
  fst (ack_trial 100 "T" db_s5) = true
  /\ ack_trial 200 "T" (snd (ack_trial 100 "T" db_s5)) = (false, snd (ack_trial 100 "T" db_s5))
  /\ expire_trial "T" (snd (ack_trial 100 "T" db_s5)) = snd (ack_trial 100 "T" db_s5).
Proof.
  destruct (ack_trial_only_from_pending 100 200 "T" db_s5) as (_ & _ & _ & H4 & _).
  destruct (ack_trial_only_from_pending 300 300 "T" (snd (ack_trial 100 "T" db_s5)))
    as (_ & _ & _ & _ & H5).
  split; [vm_compute; reflexivity|]. split.
  - apply H4. vm_compute. reflexivity.
  - apply H5. intros tr Ht. vm_compute in Ht. injection Ht as <-. simpl. discriminate.
Defined.

(** Each trial-writing call preserves the trial invariants. *)
Lemma trial_step_inv d d' : trial_inv d -> trial_step d d' -> trial_inv d'.
Proof.
  intros Hinv Hstep. inversion Hstep as [now id exp meta d0 d1 Hc|? ? ? ? ? ? _|now id d0|id d0];
    subst; intros id0 tr0 H0.
  - unfold create_trial in Hc. destruct (trials d !! id); [discriminate|].
    destruct (fk_ok d exp); [|discriminate]. injection Hc as <-.
    cbn [trials with_trials] in H0. destruct (decide (id = id0)) as [<-|Hne].
    + rewrite lookup_insert_eq in H0. injection H0 as <-. reflexivity.
    + rewrite lookup_insert_ne in H0 by exact Hne. eauto.
  - eauto.
  - unfold ack_trial in H0. destruct (trials d !! id) as [tr|] eqn:Ht; [|eauto].
    destruct (trial_status_eqb (status tr) Pending); simpl in H0; [|eauto].
    cbn [trials with_trials] in H0. destruct (decide (id = id0)) as [<-|Hne].
    + rewrite lookup_insert_eq in H0. injection H0 as <-. unfold trial_ok; simpl. discriminate.
    + rewrite lookup_insert_ne in H0 by exact Hne. eauto.
  - unfold expire_trial in H0. destruct (trials d !! id) as [tr|] eqn:Ht; [|eauto].
    destruct (status tr) eqn:Hs; simpl in H0; [|eauto|eauto].
    cbn [trials with_trials] in H0. destruct (decide (id = id0)) as [<-|Hne].
    + rewrite lookup_insert_eq in H0. injection H0 as <-. unfold trial_ok; simpl.
      specialize (Hinv id tr Ht). unfold trial_ok in Hinv. rewrite Hs in Hinv. exact Hinv.
    + rewrite lookup_insert_ne in H0 by exact Hne. eauto.
Qed.

(** [acked] and [expired] rows are never written again. *)
Lemma trial_step_final d d' id tr :
  trial_step d d' -> trials d !! id = Some tr -> status tr <> Pending ->
  trials d' !! id = Some tr.
Proof.
  intros Hstep Ht Hnp. inversion Hstep as [now id1 exp meta d0 d1 Hc|? ? ? ? ? ? _|now id1 d0|id1 d0];
    subst; [| exact Ht | |].
  - unfold create_trial in Hc. destruct (trials d !! id1) eqn:H1; [discriminate|].
    destruct (fk_ok d exp); [|discriminate]. injection Hc as <-.
    cbn [trials with_trials]. rewrite lookup_insert_ne; [exact Ht|].
    intros ->. congruence.
  - unfold ack_trial. destruct (trials d !! id1) as [tr1|] eqn:H1; [|exact Ht].
    destruct (trial_status_eqb (status tr1) Pending) eqn:Hp; simpl; [|exact Ht].
    cbn [trials with_trials]. rewrite lookup_insert_ne; [exact Ht|].
    intros ->. rewrite Ht in H1. injection H1 as ->.
    destruct (status tr1); simpl in Hp; congruence.
  - unfold expire_trial. destruct (trials d !! id1) as [tr1|] eqn:H1; [|exact Ht].
    destruct (trial_status_eqb (status tr1) Pending) eqn:Hp; simpl; [|exact Ht].
    cbn [trials with_trials]. rewrite lookup_insert_ne; [exact Ht|].
    intros ->. rewrite Ht in H1. injection H1 as ->.
    destruct (status tr1); simpl in Hp; congruence.
Qed.

(** C9.  In every database reachable through [create_trial], [ack_trial]
    and [expire_trial]: an acked trial has [acked_at] set, an expired (or
    pending) trial has none, and an acked or expired trial is absorbing, so
    a trial leaves [pending] at most once. *)
Theorem trial_invariants_reachable (d : db) :
  reachable d ->
  trial_inv d
  /\ forall d' id tr, trial_step d d' -> trials d !! id = Some tr -> status tr <> Pending ->
                      trials d' !! id = Some tr.
Proof.
  intros Hr. split.
  - induction Hr as [d Hd|d d' _ IH Hs].
    + intros id tr Ht. rewrite Hd in Ht. discriminate.
    + eapply trial_step_inv; eauto.
  - intros d' id tr Hs Ht Hnp. eapply trial_step_final; eauto.
Qed.

Lemma trial_invariants_reachable_witness :
  let d1 := match create_trial 0 "T" "E" "" db_one with inr d => d | inl _ => db_one end in
  let d2 := snd (ack_trial 100 "T" d1) in
  trial_inv d2
  /\ forall d' id tr, trial_step d2 d' -> trials d2 !! id = Some tr -> status tr <> Pending ->
                      trials d' !! id = Some tr.
Proof.
  intros d1 d2. apply trial_invariants_reachable.
  apply (reach_step d1 d2).
  - apply (reach_step db_one d1).
    + apply reach_init. reflexivity.
    + apply (step_create 0 "T" "E" ""). vm_compute. reflexivity.
  - apply step_ack.
Defined.

(** C10.  An authorized enable/disable request whose (stripped) [id] is
    non-empty but names no expectation gets [200 {ok: true, enabled: ...}]
    and changes nothing; [set_enabled] matched no row and returned [False],
    which the handler discards. *)
Theorem admin_enable_unknown_id_ok (cfg : config) (authorization : string)
  (form : list (string * string)) (enable : bool) (id : string) (t : Z) (w : world) :
  auth_admin cfg authorization = inr true ->
  strip (match form_get form "id" with Some s => s | None => "" end) = id ->
  id <> "" ->
  exps (wdb w) !! id = None ->
  set_enabled t id enable (wdb w) = (false, wdb w)
  /\ handle_admin_enable cfg authorization form enable t w
     = (inr (RJson 200 (JObj [("ok", JBool true); ("enabled", JBool enable)])), w).
Proof.
  intros Ha Hid Hne Hnone.
  assert (Hse : set_enabled t id enable (wdb w) = (false, wdb w)).
  { unfold set_enabled. rewrite Hnone. reflexivity. }
  split; [exact Hse|].
  unfold handle_admin_enable. unfold bindM at 1, lift at 1. rewrite Ha, Hid. simpl.
  destruct (String.eqb_spec id ""); [contradiction|].
  unfold bindM, db_op. rewrite Hse. destruct w; reflexivity.
Qed.

Lemma admin_enable_unknown_id_ok_witness :
  handle_admin_enable cfg0 "Bearer secret" [("id", " no-such-id ")] true 500 (world_of db_one)
  = (inr (RJson 200 (JObj [("ok", JBool true); ("enabled", JBool true)])), world_of db_one).
Proof.
  apply (admin_enable_unknown_id_ok cfg0 "Bearer secret" [("id", " no-such-id ")] true
           "no-such-id" 500 (world_of db_one)).
  - vm_compute. reflexivity.
  - vm_compute. reflexivity.
  - discriminate.
  - vm_compute. reflexivity.
Defined.

End Claims4.

(** * Further properties of the code *)
Module Extras.
Import Rules Store Server Handlers Probe Facts Examples Model.
Open Scope Z_scope.

(** ** Observations *)

Lemma filter_perm {A} (f : A -> bool) (l l' : list A) :
  Permutation l l' -> Permutation (List.filter f l) (List.filter f l').
Proof.
  induction 1 as [|x l l' _ IH|x y l|l l' l'' _ IH1 _ IH2]; simpl.
  - constructor.
  - destruct (f x); [apply perm_skip|]; exact IH.
  - destruct (f x), (f y); try apply perm_swap; apply Permutation_refl.
  - eapply perm_trans; eassumption.
Qed.

Lemma insert_desc_perm r l : Permutation (insert_desc r l) (r :: l).
Proof.
  induction l as [|x l IH]; simpl; [apply Permutation_refl|].
  destruct (observed_at x <=? observed_at r); [apply Permutation_refl|].
  eapply perm_trans; [apply perm_skip, IH|apply perm_swap].
Qed.

Lemma sort_desc_cons r l : sort_desc (r :: l) = insert_desc r (sort_desc l).
Proof. reflexivity. Qed.

Lemma sort_desc_perm l : Permutation (sort_desc l) l.
Proof.
  induction l as [|r l IH]; [apply Permutation_refl|].
  rewrite sort_desc_cons. eapply perm_trans; [apply insert_desc_perm|].
  apply perm_skip, IH.
Qed.

Lemma insert_desc_sorted r l :
  Sorted (fun a b => observed_at b <= observed_at a) l ->
  Sorted (fun a b => observed_at b <= observed_at a) (insert_desc r l).
Proof.
  induction 1 as [|x l Hs IH Hd]; simpl.
  - repeat constructor.
  - destruct (observed_at x <=? observed_at r) eqn:E.
    + constructor; [constructor; assumption|constructor; lia].
    + constructor; [exact IH|].
      destruct l as [|y l]; simpl; [constructor; lia|].
      destruct (observed_at y <=? observed_at r); constructor; [lia|].
      inversion Hd; assumption.
Qed.

Lemma sort_desc_sorted l : Sorted (fun a b => observed_at b <= observed_at a) (sort_desc l).
Proof.
  induction l as [|r l IH]; [constructor|].
  rewrite sort_desc_cons. apply insert_desc_sorted, IH.
Qed.

Lemma sorted_firstn {A} (R : A -> A -> Prop) n l : Sorted R l -> Sorted R (firstn n l).
Proof.
  revert l. induction n as [|n IH]; intros l Hs; simpl; [constructor|].
  destruct l as [|x l]; [constructor|].
  inversion Hs as [|? ? Hs' Hd]; subst. constructor; [apply IH, Hs'|].
  destruct n; simpl; [constructor|]. destruct l; simpl; [constructor|].
  inversion Hd; constructor; assumption.
Qed.

Lemma in_firstn {A} n (l : list A) x : In x (firstn n l) -> In x l.
Proof.
  intros H. rewrite <- (firstn_skipn n l). apply in_or_app. now left.
Qed.

(** The rows [recent_observations] reads, before ordering. *)
Lemma recent_observations_perm exp d :
  Permutation (sort_desc (rev (List.filter (fun r => String.eqb (obs_exp r) exp) (obs d))))
              (List.filter (fun r => String.eqb (obs_exp r) exp) (obs d)).
Proof.
  eapply perm_trans; [apply sort_desc_perm|]. apply Permutation_sym, Permutation_rev.
Qed.

(** [recent_observations(exp_id, limit)] returns rows of [exp_id] only,
    newest first, at most [limit] of them, and all of them when the
    expectation has at most [limit]. *)
Lemma recent_observations_spec (exp : string) (limit : nat) (d : db) :
  Sorted (fun a b => observed_at b <= observed_at a) (recent_observations exp limit d)
  /\ (length (recent_observations exp limit d) <= limit)%nat
  /\ (forall r, In r (recent_observations exp limit d) -> In r (obs d) /\ obs_exp r = exp)
  /\ ((length (List.filter (fun r => String.eqb (obs_exp r) exp) (obs d)) <= limit)%nat ->
      Permutation (recent_observations exp limit d)
                  (List.filter (fun r => String.eqb (obs_exp r) exp) (obs d))).
Proof.
  unfold recent_observations. split; [|split; [|split]].
  - apply sorted_firstn, sort_desc_sorted.
  - apply firstn_le_length.
  - intros r Hr. apply in_firstn in Hr.
    apply (Permutation_in _ (recent_observations_perm exp d)) in Hr.
    apply filter_In in Hr as [Hr He]. split; [exact Hr|]. now apply String.eqb_eq.
  - intros Hlen. rewrite firstn_all2; [apply recent_observations_perm|].
    rewrite (Permutation_length (recent_observations_perm exp d)). exact Hlen.
Qed.

Lemma monotonic_scan_sorted (l : list observation) (p : Z) :
  Sorted (fun a b => observed_at b <= observed_at a) l ->
  match l with [] => True | o :: _ => observed_at o <= p end ->
  monotonic_scan (Some p) l = true.
Proof.
  revert p. induction l as [|o l IH]; intros p Hs Hp; simpl; [reflexivity|].
  destruct (p <? observed_at o) eqn:E; [lia|].
  inversion Hs as [|? ? Hs' Hd]; subst. apply IH; [exact Hs'|].
  destruct l as [|o' l]; [exact I|]. inversion Hd; assumption.
Qed.

(** [check_observation_monotonicity] reports every enabled expectation as
    passed, whatever the table holds: it scans [recent_observations], which
    [ORDER BY observed_at DESC] has already sorted, so the check can never
    fail. *)
Theorem observation_monotonicity_always_passes (d : db) :
  Forall (fun r => passed r = true) (check_observation_monotonicity d).
Proof.
  unfold check_observation_monotonicity. apply List.Forall_forall.
  intros r Hr. apply in_map_iff in Hr as (e & <- & _). simpl.
  destruct (recent_observations_spec (exp_id e) 1000 d) as (Hs & _).
  destruct (recent_observations (exp_id e) 1000 d) as [|o l] eqn:Hl; [reflexivity|].
  simpl. apply monotonic_scan_sorted.
  - inversion Hs; assumption.
  - destruct l as [|o' l]; [exact I|]. inversion Hs as [|? ? _ Hd]; subst.
    inversion Hd; assumption.
Qed.

(** The accumulator of [last_observation_time]'s fold. *)
Lemma last_time_fold_spec (rows : list observation) (acc : option Z) (m : Z) :
  fold_left (fun acc r => match acc with
                          | Some m => Some (Z.max m (observed_at r))
                          | None => Some (observed_at r)
                          end) rows acc = Some m ->
  (forall r, In r rows -> observed_at r <= m)
  /\ (acc = Some m \/ exists r, In r rows /\ observed_at r = m)
  /\ (forall a, acc = Some a -> a <= m).
Proof.
  revert acc. induction rows as [|r rows IH]; intros acc H; simpl in H.
  - subst acc. split; [intros r []|]. split; [now left|]. intros a [= ->]. lia.
  - destruct (IH _ H) as (Hle & Hw & Hacc).
    assert (Hr : observed_at r <= m).
    { destruct acc as [a|]; specialize (Hacc _ eq_refl); lia. }
    split; [intros r' [<-|Hr']; auto|]. split.
    + destruct Hw as [Hw|(r' & Hr' & Hw)]; [|right; exists r'; simpl; auto].
      destruct acc as [a|]; injection Hw as Hw.
      * destruct (Z.max_spec a (observed_at r)) as [[_ E]|[_ E]].
        -- right. exists r. split; [now left|]. lia.
        -- left. f_equal. lia.
      * right. exists r. split; [now left|]. exact Hw.
    + intros a ->. specialize (Hacc _ eq_refl). lia.
Qed.

Lemma last_time_fold_none (rows : list observation) (acc : option Z) :
  fold_left (fun acc r => match acc with
                          | Some m => Some (Z.max m (observed_at r))
                          | None => Some (observed_at r)
                          end) rows acc = None ->
  rows = [] /\ acc = None.
Proof.
  revert acc. induction rows as [|r rows IH]; intros acc H; simpl in H; [auto|].
  destruct (IH _ H) as [_ Hc]. destruct acc; discriminate Hc.
Qed.

Lemma filter_true_r {A} (f : A -> bool) (l : list A) :
  List.filter (fun r => f r && true) l = List.filter f l.
Proof. apply filter_ext. intros a. apply andb_true_r. Qed.

(** [last_observation_time(exp_id)] and the first row of
    [recent_observations(exp_id, limit)] agree for any positive [limit]: both
    are the newest [observed_at] of the expectation, and [None] / the empty
    list exactly when it has no observation. *)
Theorem last_time_is_newest_recent (exp : string) (limit : nat) (d : db) :
  (0 < limit)%nat ->
  last_observation_time exp None d
  = option_map observed_at (head (recent_observations exp limit d)).
Proof.
  intros Hpos. unfold last_observation_time. rewrite filter_true_r.
  pose proof (recent_observations_perm exp d) as Hp.
  pose proof (sort_desc_sorted (rev (List.filter (fun r => String.eqb (obs_exp r) exp) (obs d))))
    as Hs.
  unfold recent_observations.
  destruct (sort_desc (rev (List.filter (fun r => String.eqb (obs_exp r) exp) (obs d))))
    as [|h l] eqn:Hsd.
  - apply Permutation_nil in Hp. rewrite Hp. destruct limit; reflexivity.
  - destruct limit as [|limit]; [lia|]. simpl.
    destruct (fold_left _ (List.filter (fun r => String.eqb (obs_exp r) exp) (obs d)) None)
      as [m|] eqn:Hf.
    + destruct (last_time_fold_spec _ _ _ Hf) as (Hle & [Hw|(r & Hr & Hw)] & _);
        [discriminate Hw|].
      assert (Hh : In h (List.filter (fun r => String.eqb (obs_exp r) exp) (obs d))).
      { apply (Permutation_in _ Hp). now left. }
      apply Sorted_StronglySorted in Hs; [|intros a b c; lia].
      assert (Hrh : In r (h :: l)) by (apply (Permutation_in _ (Permutation_sym Hp)); exact Hr).
      destruct Hrh as [<-|Hrl]; [f_equal; lia|].
      inversion Hs as [|? ? _ Hall]; subst.
      pose proof (proj1 (List.Forall_forall _ _) Hall r Hrl). specialize (Hle h Hh).
      cbv beta in *. f_equal. lia.
    + apply last_time_fold_none in Hf as [Hnil _]. rewrite Hnil in Hp.
      apply Permutation_sym, Permutation_nil in Hp. discriminate Hp.
Qed.

Lemma last_time_is_newest_recent_witness :
  last_observation_time "E" None db_s5
  = option_map observed_at (head (recent_observations "E" 10 db_s5)).
Proof. apply last_time_is_newest_recent. lia. Defined.

Lemma obs_kind_eqb_refl k : obs_kind_eqb k k = true.
Proof. destruct k; reflexivity. Qed.

Lemma insert_desc_newest r l :
  (forall x, In x l -> observed_at x <= observed_at r) -> insert_desc r l = r :: l.
Proof.
  destruct l as [|x l]; intros H; simpl; [reflexivity|].
  specialize (H x (or_introl eq_refl)). destruct (observed_at x <=? observed_at r) eqn:E;
    [reflexivity|lia].
Qed.

(** [add_observation] checks the foreign key: for an unknown expectation it
    raises [IntegrityError].  Otherwise it appends one row stamped with the
    clock and returns its id; when the clock has not gone back past the
    expectation's other rows, the new row is the first of
    [recent_observations] and the value of [last_observation_time], with or
    without its kind. *)
Theorem add_observation_newest (now : Z) (exp : string) (k : obs_kind) (meta : option string)
  (d : db) :
  (fk_ok d exp = false -> add_observation now exp k meta d = inl IntegrityError)
  /\ (fk_ok d exp = true ->
      (forall r, In r (obs d) -> obs_exp r = exp -> observed_at r <= now) ->
      let row := {| obs_id := next_seq d; obs_exp := exp; kind := k; observed_at := now;
                    obs_meta := meta |} in
      exists d', add_observation now exp k meta d = inr (next_seq d, d')
        /\ obs d' = (obs d ++ [row])%list
        /\ recent_observations exp 1 d' = [row]
        /\ last_observation_time exp (Some k) d' = Some now
        /\ last_observation_time exp None d' = Some now).
Proof.
  split; [intros Hf; unfold add_observation; rewrite Hf; reflexivity|].
  intros Hf Hold row. unfold add_observation. rewrite Hf.
  eexists. split; [reflexivity|]. split; [reflexivity|].
  assert (Hlast : forall (f : observation -> bool),
             f row = true -> (forall r, f r = true -> obs_exp r = exp) ->
             fold_left (fun acc r => match acc with
                                     | Some m => Some (Z.max m (observed_at r))
                                     | None => Some (observed_at r)
                                     end) (List.filter f (obs d ++ [row])) None = Some now).
  { intros f Hrow Hexp. rewrite List.filter_app. simpl. rewrite Hrow, fold_left_app. simpl.
    destruct (fold_left _ (List.filter f (obs d)) None) as [m|] eqn:Hm; [|reflexivity].
    destruct (last_time_fold_spec _ _ _ Hm) as (_ & [Hw|(r & Hr & Hw)] & _); [discriminate Hw|].
    apply filter_In in Hr as [Hr Hfr]. specialize (Hold r Hr (Hexp r Hfr)). f_equal. lia. }
  split; [|split].
  - unfold recent_observations. simpl. rewrite List.filter_app. simpl.
    rewrite String.eqb_refl, rev_app_distr. simpl. rewrite insert_desc_newest;
      [reflexivity|].
    intros x Hx. change (fold_right insert_desc [] ?l) with (sort_desc l) in Hx.
    apply (Permutation_in _ (recent_observations_perm exp d)) in Hx.
    apply filter_In in Hx as [Hx He]. apply String.eqb_eq in He. exact (Hold x Hx He).
  - unfold last_observation_time. apply Hlast.
    + simpl. rewrite String.eqb_refl, obs_kind_eqb_refl. reflexivity.
    + intros r Hr. apply andb_prop in Hr as [Hr _]. now apply String.eqb_eq.
  - unfold last_observation_time. rewrite filter_true_r. apply Hlast.
    + simpl. apply String.eqb_refl.
    + intros r Hr. now apply String.eqb_eq.
Qed.

Lemma add_observation_newest_witness :
  add_observation 7 "Z" Start None db_s5 = inl IntegrityError
  /\ exists d', add_observation 7 "E" Start None db_s5 = inr (2, d')
       /\ obs d' = (obs db_s5 ++ [{| obs_id := 2; obs_exp := "E"; kind := Start;
                                    observed_at := 7; obs_meta := None |}])%list
       /\ recent_observations "E" 1 d' = [{| obs_id := 2; obs_exp := "E"; kind := Start;
                                             observed_at := 7; obs_meta := None |}]
       /\ last_observation_time "E" (Some Start) d' = Some 7
       /\ last_observation_time "E" None d' = Some 7.
Proof.
  destruct (add_observation_newest 7 "Z" Start None db_s5) as [H1 _].
  destruct (add_observation_newest 7 "E" Start None db_s5) as [_ H2].
  split; [apply H1; reflexivity|].
  apply H2; [reflexivity|].
  intros r Hr _. simpl in Hr. destruct Hr as [<-|[]]. simpl. lia.
Defined.

End Extras.

Module Extras2.
Import Rules Store Server Facts Examples ViolModel.
Open Scope Z_scope.

(** ** Violations *)

Lemma filter_map_le {A} (cond : A -> bool) (g : A -> A) (l : list A) :
  (forall v, cond (g v) = true -> cond v = true) ->
  (length (List.filter cond (map g l)) <= length (List.filter cond l))%nat.
Proof.
  intros Hg. induction l as [|v l IH]; simpl; [lia|].
  destruct (cond (g v)) eqn:E1; [rewrite (Hg v E1); simpl; lia|].
  destruct (cond v); simpl; lia.
Qed.





(** [next(...)] of [open_violation]'s fold finds a row as soon as one
    matches. *)
Lemma open_violation_none (exp c : string) (d : db) :
  open_violation exp c d = None -> open_rows exp c d = [].
Proof.
  unfold open_violation, open_rows.
  assert (Hs : forall l b,
             fold_left (fun acc v =>
               if String.eqb (v_exp v) exp && String.eqb (code v) c && is_open v then
                 match acc with
                 | Some b => if (detected_at b <? detected_at v)%Z then Some v else acc
                 | None => Some v
                 end
               else acc) l (Some b) <> None).
  { induction l as [|v l IH]; intros b; simpl; [discriminate|].
    destruct (String.eqb (v_exp v) exp && String.eqb (code v) c && is_open v);
      [destruct (detected_at b <? detected_at v)|]; apply IH. }
  induction (viols d) as [|v l IH]; simpl; [reflexivity|].
  destruct (String.eqb (v_exp v) exp && String.eqb (code v) c && is_open v);
    [intros H; exfalso; exact (Hs l v H)|exact IH].
Qed.

(** [create_violation] checks the foreign key; when no row of the
    expectation with that code is open, the row it inserts is the one
    [open_violation] then returns, open and never notified. *)
Theorem create_then_open_violation (now : Z) (exp c msg : string) (ev : evidence) (d : db) :
  (fk_ok d exp = false -> create_violation now exp c msg ev d = inl IntegrityError)
  /\ (fk_ok d exp = true -> open_violation exp c d = None ->
      exists d', create_violation now exp c msg ev d = inr (next_vid d, d')
        /\ next_vid d' = next_vid d + 1
        /\ open_violation exp c d'
           = Some {| v_id := next_vid d; v_exp := exp; detected_at := now; code := c;
                     message := msg; v_evidence := ev; is_open := true;
                     last_notified_at := None |}).
Proof.
  split; [intros Hf; unfold create_violation; rewrite Hf; reflexivity|].
  intros Hf Hn. unfold create_violation. rewrite Hf. eexists. split; [reflexivity|].
  split; [reflexivity|]. unfold open_violation. simpl. rewrite fold_left_app.
  unfold open_violation in Hn. rewrite Hn. simpl.
  rewrite !String.eqb_refl. reflexivity.
Qed.

Lemma create_then_open_violation_witness :
  create_violation 5 "Z" "missed" "m" [] db_s5 = inl IntegrityError
  /\ exists d', create_violation 5 "E" "missed" "m" [] db_s5 = inr (1, d')
       /\ next_vid d' = 2
       /\ open_violation "E" "missed" d'
          = Some {| v_id := 1; v_exp := "E"; detected_at := 5; code := "missed";
                    message := "m"; v_evidence := []; is_open := true;
                    last_notified_at := None |}.
Proof.
  destruct (create_then_open_violation 5 "Z" "missed" "m" [] db_s5) as [H1 _].
  destruct (create_then_open_violation 5 "E" "missed" "m" [] db_s5) as [_ H2].
  split; [apply H1; reflexivity|]. apply H2; reflexivity.
Defined.

(** *** At most one open violation per expectation and code *)

Lemma unique_viols d d' : viols d' = viols d -> unique_open d -> unique_open d'.
Proof. intros He Hu e c. unfold open_rows. rewrite He. apply Hu. Qed.

Lemma create_violation_unique now exp c msg ev d n d' :
  open_violation exp c d = None -> create_violation now exp c msg ev d = inr (n, d') ->
  unique_open d -> unique_open d'.
Proof.
  intros Hn Hc Hu e c'. unfold create_violation in Hc. destruct (fk_ok d exp); [|discriminate].
  injection Hc as <- <-. unfold open_rows. simpl. rewrite List.filter_app, length_app. simpl.
  destruct (String.eqb exp e && String.eqb c c') eqn:E; simpl.
  - apply andb_prop in E as [E1 E2]. apply String.eqb_eq in E1, E2. subst.
    apply open_violation_none in Hn. unfold open_rows in Hn. rewrite Hn. simpl. lia.
  - specialize (Hu e c'). unfold open_rows in Hu. lia.
Qed.

Lemma close_unique exp codes d : unique_open d -> unique_open (snd (close_violations exp codes d)).
Proof.
  intros Hu e c. specialize (Hu e c). unfold close_violations.
  destruct codes as [|c0 cs]; [exact Hu|]. unfold open_rows in *. simpl.
  etransitivity; [|exact Hu]. apply filter_map_le. intros v.
  destruct (closes exp (c0 :: cs) v); [|auto].
  unfold close_row; simpl. rewrite andb_false_r. discriminate.
Qed.

Lemma mark_notified_unique now vid d : unique_open d -> unique_open (mark_notified now vid d).
Proof.
  intros Hu e c. specialize (Hu e c). unfold mark_notified, update_violation, open_rows in *.
  simpl. etransitivity; [|exact Hu]. apply filter_map_le. intros v.
  destruct (v_id v =? vid); simpl; auto.
Qed.

Lemma pres_ret {A} P (a : A) : preserves P (retM a).
Proof. intros t w r w' H HP. injection H as _ <-. exact HP. Qed.

Lemma pres_bind {A B} P (m : M A) (k : A -> M B) :
  preserves P m -> (forall a, preserves P (k a)) -> preserves P (bindM m k).
Proof.
  intros Hm Hk t w r w' H HP. unfold bindM in H.
  destruct (m t w) as [[e|a] w1] eqn:E.
  - injection H as _ <-. exact (Hm _ _ _ _ E HP).
  - exact (Hk a _ _ _ _ H (Hm _ _ _ _ E HP)).
Qed.

Lemma pres_now P : preserves P now_i.
Proof. intros t w r w' H HP. injection H as _ <-. exact HP. Qed.

Lemma pres_lift {A} P (r0 : exc + A) : preserves P (lift r0).
Proof. intros t w r w' H HP. injection H as _ <-. exact HP. Qed.

Lemma pres_read {A} P (f : db -> A) : preserves P (db_read f).
Proof. intros t w r w' H HP. injection H as _ <-. exact HP. Qed.

Lemma pres_token P : preserves P token_urlsafe.
Proof. intros t w r w' H HP. injection H as _ <-. exact HP. Qed.

Lemma pres_email P to subj body : preserves P (send_email to subj body).
Proof.
  intros t w r w' H HP. unfold send_email in H.
  destruct (smtp_host w); [destruct (smtp_up w)|]; injection H as _ <-; exact HP.
Qed.

Lemma pres_hook P p : preserves P (webhook_notify p).
Proof. intros t w r w' H HP. injection H as _ <-. exact HP. Qed.

Lemma pres_db_op {A} P (f : Z -> db -> A * db) :
  (forall t d, P d -> P (snd (f t d))) -> preserves P (db_op f).
Proof.
  intros Hf t w r w' H HP. unfold db_op in H. specialize (Hf t (wdb w) HP).
  destruct (f t (wdb w)) as [a d]. injection H as _ <-. exact Hf.
Qed.

Lemma pres_db_op_exc {A} P (f : Z -> db -> exc + (A * db)) :
  (forall t d a d', f t d = inr (a, d') -> P d -> P d') -> preserves P (db_op_exc f).
Proof.
  intros Hf t w r w' H HP. unfold db_op_exc in H.
  destruct (f t (wdb w)) as [e|[a d]] eqn:E; injection H as _ <-; [exact HP|].
  exact (Hf _ _ _ _ E HP).
Qed.

Lemma pres_for_each {A} P (f : A -> M unit) l :
  (forall x, preserves P (f x)) -> preserves P (for_each f l).
Proof.
  intros Hf. induction l as [|x l IH]; [apply pres_ret|]. apply pres_bind; auto.
Qed.

(** The checker's guard: a violation is inserted only when [open_violation]
    has just found none. *)
Lemma pres_guarded_create {B} (id c msg : string) (ev : evidence) (k : Z -> M B)
  (k' : violation -> M B) :
  (forall a, preserves unique_open (k a)) -> (forall v, preserves unique_open (k' v)) ->
  preserves unique_open
    (bindM (db_read (open_violation id c))
           (fun o => match o with
                     | None => bindM (db_op_exc (fun t => create_violation t id c msg ev)) k
                     | Some v => k' v
                     end)).
Proof.
  intros Hk Hk' t w r w' H HP. unfold bindM at 1, db_read in H. cbv beta iota in H.
  destruct (open_violation id c (wdb w)) as [v|] eqn:Ho; [exact (Hk' v _ _ _ _ H HP)|].
  unfold bindM, db_op_exc in H.
  destruct (create_violation t id c msg ev (wdb w)) as [e|[n d']] eqn:Hc.
  - injection H as _ <-. exact HP.
  - apply (Hk n _ _ _ _ H). exact (create_violation_unique _ _ _ _ _ _ _ _ Ho Hc HP).
Qed.

Lemma pres_notify owner name0 ty c msg ev vid id :
  preserves unique_open (notify_violation owner name0 ty c msg ev vid id).
Proof.
  unfold notify_violation. apply pres_bind; [apply pres_email|intros _].
  apply pres_bind; [apply pres_now|intros ts]. apply pres_bind; [apply pres_hook|intros _].
  apply pres_db_op. intros t d Hd. apply mark_notified_unique, Hd.
Qed.

Lemma pres_check_schedule cfg exp now : preserves unique_open (check_schedule cfg exp now).
Proof.
  unfold check_schedule. apply pres_bind; [apply pres_read|intros obs0].
  apply pres_bind; [apply pres_now|intros t].
  apply pres_bind; [apply pres_lift|intros [vs cs]]. cbv beta iota.
  apply pres_bind.
  { destruct cs; [apply pres_ret|]. apply pres_db_op. intros t' d Hd. apply close_unique, Hd. }
  intros _. apply pres_for_each. intros [[c msg] ev]. cbv beta iota.
  apply pres_guarded_create; [intros vid; apply pres_notify|intros v].
  destruct (last_notified_at v); [|apply pres_ret].
  destruct (negb (renotify_after_s cfg =? 0) && negb (z =? 0));
    [destruct (now - z >=? renotify_after_s cfg); [apply pres_notify|apply pres_ret]|apply pres_ret].
Qed.

Lemma create_trial_viols now id exp meta d d' :
  create_trial now id exp meta d = inr d' -> viols d' = viols d.
Proof.
  unfold create_trial. destruct (trials d !! id); [discriminate|].
  destruct (fk_ok d exp); [|discriminate]. intros [= <-]. reflexivity.
Qed.

Lemma add_observation_viols now exp k meta d n d' :
  add_observation now exp k meta d = inr (n, d') -> viols d' = viols d.
Proof.
  unfold add_observation. destruct (fk_ok d exp); [|discriminate]. intros [= _ <-]. reflexivity.
Qed.

Lemma expire_trial_viols id d : viols (expire_trial id d) = viols d.
Proof.
  unfold expire_trial. destruct (trials d !! id); [|reflexivity].
  destruct (trial_status_eqb _ _); reflexivity.
Qed.

Lemma pres_check_pending exp params now p : preserves unique_open (check_pending exp params now p).
Proof.
  destruct p as [tid tr]. unfold check_pending. cbv beta iota zeta.
  destruct (now - sent_at tr >? ack_window_s params + tolerance_s exp); [|apply pres_ret].
  apply pres_bind.
  { apply pres_db_op. intros t d Hd. apply (unique_viols d); [apply expire_trial_viols|exact Hd]. }
  intros _. apply pres_guarded_create; [intros vid; apply pres_notify|intros v; apply pres_ret].
Qed.

Lemma pres_check_alertpath base exp now : preserves unique_open (check_alertpath base exp now).
Proof.
  unfold check_alertpath. apply pres_bind; [apply pres_read|intros last].
  apply pres_bind; [apply pres_now|intros t].
  apply pres_bind; [apply pres_lift|intros send].
  apply pres_bind.
  { destruct send; [|apply pres_ret].
    apply pres_bind; [apply pres_token|intros tid].
    apply pres_bind.
    { apply pres_db_op_exc. intros t' d a d' H Hd.
      destruct (create_trial t' tid (exp_id exp) _ d) as [e|d1] eqn:E; simpl in H;
        [discriminate H|injection H as _ <-].
      apply (unique_viols d); [exact (create_trial_viols _ _ _ _ _ _ E)|exact Hd]. }
    intros _. apply pres_bind.
    { apply pres_db_op_exc. intros t' d a d' H Hd.
      apply (unique_viols d); [exact (add_observation_viols _ _ _ _ _ _ _ H)|exact Hd]. }
    intros _. apply pres_email. }
  intros _. apply pres_bind; [apply pres_lift|intros params].
  apply pres_bind; [apply pres_read|intros pending].
  apply pres_bind; [apply pres_for_each; intros p; apply pres_check_pending|intros _].
  apply pres_bind; [|intros _; apply pres_ret].
  apply pres_db_op. intros t' d Hd. apply close_unique, Hd.
Qed.

(** Every iteration of [Checker.run] keeps the data-model invariant that an
    expectation has at most one open violation per code: the checker
    inserts a violation only after [open_violation] found none, and
    [close_violations] and [mark_notified] open nothing.  This holds also
    when an exception ends the tick part-way. *)
Theorem run_step_keeps_one_open_per_code (cfg : config) (t : Z) (w : world) :
  unique_open (wdb w) -> unique_open (wdb (run_step cfg t w)).
Proof.
  intros Hu. unfold run_step.
  assert (Hp : preserves unique_open (tick cfg)).
  { unfold tick. apply pres_bind; [apply pres_read|intros exps0].
    apply pres_bind; [apply pres_now|intros now].
    apply pres_for_each. intros e. unfold check_one.
    destruct (String.eqb (exp_type e) "schedule"); [apply pres_check_schedule|].
    destruct (String.eqb (exp_type e) "alert_path"); [apply pres_check_alertpath|apply pres_ret]. }
  destruct (tick cfg t w) as [[e|u] w'] eqn:E; specialize (Hp t w _ w' E Hu); exact Hp.
Qed.

Lemma run_step_keeps_one_open_per_code_witness :
  unique_open (wdb (run_step cfg0 400 (world_of db_s5))).
Proof.
  apply run_step_keeps_one_open_per_code. intros e c. unfold open_rows. simpl. lia.
Defined.

End Extras2.

Module Extras3.
Import Rules Store Server Handlers Facts Examples Extras.
Open Scope Z_scope.

(** ** Alert trials and the HTTP handlers *)




(** [POST /observe/<id>] answers [404] for an unknown expectation and
    [400] for a [kind] other than [start], [end], [ping], [ack] (after
    stripping), writing nothing in both cases; otherwise it appends one
    observation of that kind, stamped with the clock and carrying the
    [meta] field, and answers [200 ok]. *)
Theorem observe_post_records (path : string) (form : list (string * string)) (t : Z)
  (w : world) :
  let id := strip_slash (drop_prefix 9 path) in
  let k := kind_of_string (strip (form_or form "kind" "")) in
  (exps (wdb w) !! id = None ->
     handle_observe_post path form t w = (inr (RText 404 ("unknown expectation" ++ nl)), w))
  /\ (forall e, exps (wdb w) !! id = Some e -> k = None ->
        handle_observe_post path form t w
        = (inr (RJson 400 (JObj [("error", JStr "kind must be start|end|ping|ack")])), w))
  /\ (forall e k', exps (wdb w) !! id = Some e -> k = Some k' ->
        exists d', handle_observe_post path form t w = (inr (RText 200 ("ok" ++ nl)), with_db w d')
          /\ obs d' = (obs (wdb w) ++ [{| obs_id := next_seq (wdb w); obs_exp := id; kind := k';
                                          observed_at := t; obs_meta := form_get form "meta" |}])%list
          /\ next_seq d' = next_seq (wdb w) + 1
          /\ exps d' = exps (wdb w) /\ trials d' = trials (wdb w) /\ viols d' = viols (wdb w)).
Proof.
  intros id k. unfold handle_observe_post. fold id. fold k.
  unfold bindM, db_read, get_expectation. cbv beta iota.
  split; [intros Hn; rewrite Hn; reflexivity|]. split.
  - intros e He Hk. rewrite He, Hk. reflexivity.
  - intros e k' He Hk. rewrite He, Hk. unfold db_op_exc, add_observation, fk_ok.
    rewrite He. eexists. split; [reflexivity|]. repeat split; reflexivity.
Qed.

Lemma observe_post_records_witness :
  handle_observe_post "/observe/Z" [("kind", "start")] 7 (world_of db_s5)
    = (inr (RText 404 ("unknown expectation" ++ nl)), world_of db_s5)
  /\ handle_observe_post "/observe/E" [("kind", "begin")] 7 (world_of db_s5)
    = (inr (RJson 400 (JObj [("error", JStr "kind must be start|end|ping|ack")])), world_of db_s5)
  /\ exists d', handle_observe_post "/observe/E/" [("kind", " end ")] 7 (world_of db_s5)
                = (inr (RText 200 ("ok" ++ nl)), with_db (world_of db_s5) d')
       /\ obs d' = (obs db_s5 ++ [{| obs_id := 2; obs_exp := "E"; kind := End;
                                    observed_at := 7; obs_meta := None |}])%list
       /\ next_seq d' = 3
       /\ exps d' = exps db_s5 /\ trials d' = trials db_s5 /\ viols d' = viols db_s5.
Proof.
  pose proof (observe_post_records "/observe/Z" [("kind", "start")] 7 (world_of db_s5)) as H1.
  pose proof (observe_post_records "/observe/E" [("kind", "begin")] 7 (world_of db_s5)) as H2.
  pose proof (observe_post_records "/observe/E/" [("kind", " end ")] 7 (world_of db_s5)) as H3.
  cbv zeta in H1, H2, H3.
  destruct H1 as (H1 & _ & _). destruct H2 as (_ & H2 & _). destruct H3 as (_ & _ & H3).
  split; [apply H1; reflexivity|]. split; [apply (H2 (alert "E")); reflexivity|].
  apply (H3 (alert "E") End); reflexivity.
Defined.

Lemma in_list_enabled e d :
  In e (list_enabled_expectations d) <-> exists k, exps d !! k = Some e /\ is_enabled e = true.
Proof.
  unfold list_enabled_expectations. rewrite filter_In, in_map_iff. split.
  - intros [([k e'] & Hx & Hin) Hen]. simpl in Hx. subst e'. exists k. split; [|exact Hen].
    apply elem_of_map_to_list, list_elem_of_In, Hin.
  - intros (k & Hk & Hen). split; [|exact Hen]. exists (k, e). split; [reflexivity|].
    apply list_elem_of_In, elem_of_map_to_list, Hk.
Qed.

(** [POST /admin/enable] and [/admin/disable] decide whether the next tick
    evaluates the expectation: after an authorized request naming an
    existing expectation (in a table where each row is stored under its own
    id), the snapshot [list_enabled_expectations] that [Checker.tick] takes
    holds that expectation exactly when the request was an enable. *)
Theorem admin_enable_controls_tick (cfg : config) (authorization : string)
  (form : list (string * string)) (enable : bool) (id : string) (e : expectation) (t : Z)
  (w : world) :
  auth_admin cfg authorization = inr true ->
  strip (match form_get form "id" with Some s => s | None => "" end) = id ->
  id <> "" ->
  exps (wdb w) !! id = Some e ->
  (forall k e', exps (wdb w) !! k = Some e' -> exp_id e' = k) ->
  fst (handle_admin_enable cfg authorization form enable t w)
    = inr (RJson 200 (JObj [("ok", JBool true); ("enabled", JBool enable)]))
  /\ ((exists e', In e' (list_enabled_expectations (wdb (snd (handle_admin_enable cfg authorization
                                                                form enable t w))))
                  /\ exp_id e' = id)
      <-> enable = true).
Proof.
  intros Ha Hid Hne He Hkeys.
  unfold handle_admin_enable. unfold bindM at 1, lift at 1. rewrite Ha, Hid. simpl.
  destruct (String.eqb_spec id ""); [contradiction|].
  unfold bindM, db_op, set_enabled. simpl. rewrite He. simpl. split; [reflexivity|].
  split.
  - intros (e' & Hin & Hid'). apply in_list_enabled in Hin as (k & Hk & Hen).
    simpl in Hk. destruct (decide (id = k)) as [<-|Hnk].
    + rewrite lookup_insert_eq in Hk. injection Hk as <-. exact Hen.
    + rewrite lookup_insert_ne in Hk by exact Hnk. apply Hkeys in Hk. congruence.
  - intros ->. eexists. split.
    + apply in_list_enabled. exists id. simpl. rewrite lookup_insert_eq. split; reflexivity.
    + simpl. exact (Hkeys id e He).
Qed.

Lemma admin_enable_controls_tick_witness :
  ~ (exists e', In e' (list_enabled_expectations
                         (wdb (snd (handle_admin_enable cfg0 "Bearer secret" [("id", "E")] false 5
                                      (world_of db_one)))))
                /\ exp_id e' = "E").
Proof.
  destruct (admin_enable_controls_tick cfg0 "Bearer secret" [("id", "E")] false "E" (alert "E") 5
              (world_of db_one)) as [_ H].
  - vm_compute. reflexivity.
  - vm_compute. reflexivity.
  - discriminate.
  - reflexivity.
  - intros k e' Hk. simpl in Hk. destruct (decide (k = "E")) as [->|Hne].
    + rewrite lookup_insert_eq in Hk. injection Hk as <-. reflexivity.
    + rewrite lookup_insert_ne in Hk by congruence. discriminate Hk.
  - intros Hx. apply H in Hx. discriminate Hx.
Defined.

(** [create_trial] refuses a used id with [IntegrityError]; a fresh one
    (of an existing expectation) adds exactly that trial, pending, to
    [pending_trials].  Acking or expiring a pending trial removes exactly
    it from [pending_trials]. *)
Theorem pending_trials_lifecycle (now : Z) (id exp meta : string) (d : db) :
  ((exists tr, trials d !! id = Some tr) -> create_trial now id exp meta d = inl IntegrityError)
  /\ (trials d !! id = None -> fk_ok d exp = true ->
      exists d', create_trial now id exp meta d = inr d'
        /\ Permutation (pending_trials exp d')
             ((id, {| tr_exp := exp; sent_at := now; acked_at := None; status := Pending;
                      tr_meta := meta |}) :: pending_trials exp d))
  /\ (forall tr, trials d !! id = Some tr -> status tr = Pending ->
        Permutation (pending_trials (tr_exp tr) d)
                    ((id, tr) :: pending_trials (tr_exp tr) (expire_trial id d))
        /\ Permutation (pending_trials (tr_exp tr) d)
                       ((id, tr) :: pending_trials (tr_exp tr) (snd (ack_trial now id d)))).
Proof.
  split; [|split].
  - intros (tr & Ht). unfold create_trial. rewrite Ht. reflexivity.
  - intros Ht Hf. unfold create_trial. rewrite Ht, Hf. eexists. split; [reflexivity|].
    unfold pending_trials. cbn [trials with_trials].
    eapply perm_trans; [apply filter_perm, map_to_list_insert, Ht|].
    simpl. rewrite String.eqb_refl. apply Permutation_refl.
  - intros tr Ht Hs.
    assert (Hrm : forall tr', status tr' <> Pending ->
              Permutation (pending_trials (tr_exp tr) d)
                          ((id, tr) :: pending_trials (tr_exp tr) (with_trials d (<[id := tr']> (trials d))))).
    { intros tr' Hs'. unfold pending_trials. cbn [trials with_trials].
      rewrite <- (insert_delete_id (trials d) id tr Ht) at 1.
      rewrite <- (insert_delete_eq (trials d) id tr').
      eapply perm_trans; [apply filter_perm, map_to_list_insert, lookup_delete_eq|].
      eapply perm_trans; [|apply perm_skip, Permutation_sym, filter_perm, map_to_list_insert,
                             lookup_delete_eq].
      simpl. rewrite String.eqb_refl, Hs. simpl.
      destruct (status tr'); [contradiction|..]; rewrite andb_false_r; apply Permutation_refl. }
    split.
    + unfold expire_trial. rewrite Ht, Hs. apply Hrm. discriminate.
    + unfold ack_trial. rewrite Ht, Hs. apply Hrm. discriminate.
Qed.

Lemma pending_trials_lifecycle_witness :
  create_trial 0 "T" "E" "" db_s5 = inl IntegrityError
  /\ Permutation (pending_trials "E" db_s5)
       (("T", {| tr_exp := "E"; sent_at := 0; acked_at := None; status := Pending;
                 tr_meta := "" |}) :: pending_trials "E" (expire_trial "T" db_s5)).
Proof.
  destruct (pending_trials_lifecycle 0 "T" "E" "" db_s5) as (H1 & _ & H3).
  split; [apply H1; eexists; reflexivity|].
  apply (H3 {| tr_exp := "E"; sent_at := 0; acked_at := None; status := Pending;
               tr_meta := "" |}); reflexivity.
Defined.

End Extras3.

Module Extras4.
Import Rules Store Server Handlers Facts Examples.
Open Scope Z_scope.

(** ** Creating expectations *)

Lemma create_expectation_inr now p d d' :
  create_expectation now p d = inr d' ->
  exps d !! cp_exp_id p = None
  /\ (String.eqb (cp_exp_type p) "schedule" || String.eqb (cp_exp_type p) "alert_path") = true
  /\ 60 <= cp_expected_interval_s p /\ 0 <= cp_tolerance_s p
  /\ d' = with_exps d (<[cp_exp_id p := {| exp_id := cp_exp_id p;
             exp_type := cp_exp_type p; name := cp_name p;
             expected_interval_s := cp_expected_interval_s p;
             tolerance_s := cp_tolerance_s p; params_json := cp_params_json p;
             owner_email := cp_owner_email p; is_enabled := true;
             created_at := now; updated_at := now |}]> (exps d)).
Proof.
  unfold create_expectation.
  destruct (negb (int64_ok (cp_expected_interval_s p) && int64_ok (cp_tolerance_s p)
                  && int64_ok now)); [discriminate|].
  destruct (exps d !! cp_exp_id p); [discriminate|].
  destruct (String.eqb (cp_exp_type p) "schedule" || String.eqb (cp_exp_type p) "alert_path");
    [|discriminate].
  destruct (60 <=? cp_expected_interval_s p) eqn:E1; [|discriminate].
  destruct (0 <=? cp_tolerance_s p) eqn:E2; [|discriminate].
  intros [= <-]. apply Z.leb_le in E1, E2. auto.
Qed.

(** [POST /admin/new] writes to the database only when it answers [200]
    with the new id and its observe URL; the row it writes is new, enabled,
    of a known type, with [expected_interval_s >= 60], [tolerance_s >= 0],
    a non-empty name and email, and a [params_json] that [parse_params]
    accepts for its type.  Every other outcome (401, 400, or an exception)
    leaves the database as it was. *)
Theorem admin_new_writes_only_valid (json_loads : string -> exc + json) (cfg : config)
  (authorization : string) (form : list (string * string)) (t : Z) (w : world)
  (r : exc + response) (w' : world) :
  handle_admin_new json_loads cfg authorization form t w = (r, w') ->
  wdb w' = wdb w
  \/ exists id e,
       r = inr (RJson 200 (JObj [("id", JStr id);
                                 ("observe_url", JStr (rstrip_slash (base_url cfg) ++ "/observe/" ++ id))]))
       /\ exps (wdb w) !! id = None
       /\ wdb w' = with_exps (wdb w) (<[id := e]> (exps (wdb w)))
       /\ exp_id e = id /\ is_enabled e = true /\ created_at e = t
       /\ (exp_type e = "schedule" \/ exp_type e = "alert_path")
       /\ 60 <= expected_interval_s e /\ 0 <= tolerance_s e
       /\ name e <> "" /\ owner_email e <> ""
       /\ (exists p, parse_params (exp_type e) (params_json e) = inr p).
Proof.
  intros H. unfold handle_admin_new in H. unfold bindM at 1, lift at 1 in H. cbv zeta in H.
  destruct (auth_admin cfg authorization) as [ex|[|]]; cbn [negb] in H;
    [injection H as _ <-; left; reflexivity| |injection H as _ <-; left; reflexivity].
  unfold bindM at 1, lift at 1 in H.
  destruct (int_of_string (form_or form "expected_interval_s" "0")) as [ex|expected];
    [injection H as _ <-; left; reflexivity|].
  unfold bindM at 1, lift at 1 in H.
  destruct (int_of_string (form_or form "tolerance_s" "0")) as [ex|tol];
    [injection H as _ <-; left; reflexivity|].
  destruct (String.eqb (strip (form_or form "type" "")) "schedule"
            || String.eqb (strip (form_or form "type" "")) "alert_path") eqn:Ety;
    cbn [negb] in H; [|injection H as _ <-; left; reflexivity].
  destruct (String.eqb (strip (form_or form "name" "")) ""
            || String.eqb (strip (form_or form "email" "")) "" || (expected <? 60)) eqn:Ev;
    [injection H as _ <-; left; reflexivity|].
  destruct (json_loads (form_or form "params_json" "{}")) as [ex|obj] eqn:Ej; cbn [bind_exc] in H;
    [injection H as _ <-; left; reflexivity|].
  destruct (parse_params (strip (form_or form "type" "")) obj) as [ex|p] eqn:Ep; cbn [bind_exc] in H;
    [injection H as _ <-; left; reflexivity|].
  unfold bindM, token_urlsafe, db_op_exc in H. cbn [wdb] in H.
  match type of H with
  | context [create_expectation t ?P ?D] => destruct (create_expectation t P D) as [ex|d'] eqn:Ec
  end; cbn [bind_exc] in H; [injection H as _ <-; left; reflexivity|].
  injection H as <- <-. right.
  apply create_expectation_inr in Ec as (Hn & _ & He & Ht & ->). simpl in *.
  apply orb_false_iff in Ev as [Ev He']. apply orb_false_iff in Ev as [Hname Hmail].
  eexists _, _. split; [reflexivity|]. split; [exact Hn|]. split; [reflexivity|].
  simpl. split; [reflexivity|]. split; [reflexivity|]. split; [reflexivity|].
  split; [apply orb_true_iff in Ety as [E|E]; apply String.eqb_eq in E; auto|].
  split; [exact He|]. split; [exact Ht|].
  split; [intros Hx; rewrite Hx in Hname; discriminate Hname|].
  split; [intros Hx; rewrite Hx in Hmail; discriminate Hmail|].
  eauto.
Qed.

Lemma admin_new_writes_only_valid_witness :
  let jl := fun s : string => if String.eqb s "{}" then inr (JObj [])
                              else inl (ValueError "Expecting value") in
  exists e, wdb (snd (handle_admin_new jl cfg0 "Bearer secret"
                        [("type", "schedule"); ("name", "backup"); ("email", "o@example.com");
                         ("expected_interval_s", "3600")] 9 (world_of db_one)))
            = with_exps db_one (<["tok0" := e]> (exps db_one))
            /\ is_enabled e = true /\ (exists p, parse_params (exp_type e) (params_json e) = inr p).
Proof.
  intros jl.
  destruct (admin_new_writes_only_valid jl cfg0 "Bearer secret"
              [("type", "schedule"); ("name", "backup"); ("email", "o@example.com");
               ("expected_interval_s", "3600")] 9 (world_of db_one) _ _
              (surjective_pairing _)) as [H|(id & e & Hr & _ & Hw & _ & Hen & _ & _ & _ & _ & _ & _ & Hp)].
  - vm_compute in H. discriminate H.
  - vm_compute in Hr. injection Hr as <- _. exists e. auto.
Defined.

(** The handler does not check [tolerance_s]: a request that passes every
    check of [POST /admin/new] but carries a negative tolerance (within the
    signed 64-bit range sqlite3 binds, as are [expected_interval_s] and the
    clock) reaches the insert, which the table's [CHECK(tolerance_s >= 0)]
    rejects; the [IntegrityError] escapes the handler (no response is
    written) and the database is unchanged. *)
Theorem admin_new_negative_tolerance_raises (json_loads : string -> exc + json) (cfg : config)
  (authorization : string) (form : list (string * string)) (expected tol : Z) (obj : json)
  (p : params) (t : Z) (w : world) :
  auth_admin cfg authorization = inr true ->
  (strip (form_or form "type" "") = "schedule" \/ strip (form_or form "type" "") = "alert_path") ->
  strip (form_or form "name" "") <> "" ->
  strip (form_or form "email" "") <> "" ->
  int_of_string (form_or form "expected_interval_s" "0") = inr expected ->
  60 <= expected < 2 ^ 63 ->
  int_of_string (form_or form "tolerance_s" "0") = inr tol -> - 2 ^ 63 <= tol < 0 ->
  json_loads (form_or form "params_json" "{}") = inr obj ->
  parse_params (strip (form_or form "type" "")) obj = inr p ->
  - 2 ^ 63 <= t < 2 ^ 63 ->
  fst (handle_admin_new json_loads cfg authorization form t w) = inl IntegrityError
  /\ wdb (snd (handle_admin_new json_loads cfg authorization form t w)) = wdb w.
Proof.
  intros Ha Hty Hname Hmail Hex Hex60 Htol Hneg Hj Hp Ht.
  assert (Hok : int64_ok expected && int64_ok tol && int64_ok t = true).
  { unfold int64_ok. rewrite !andb_true_iff, !Z.leb_le, !Z.ltb_lt. lia. }
  assert (Ety : (String.eqb (strip (form_or form "type" "")) "schedule"
                 || String.eqb (strip (form_or form "type" "")) "alert_path") = true).
  { destruct Hty as [E|E]; rewrite E; reflexivity. }
  assert (Ev : (String.eqb (strip (form_or form "name" "")) ""
                || String.eqb (strip (form_or form "email" "")) "" || (expected <? 60)) = false).
  { destruct (String.eqb_spec (strip (form_or form "name" "")) ""); [contradiction|].
    destruct (String.eqb_spec (strip (form_or form "email" "")) ""); [contradiction|].
    destruct (expected <? 60) eqn:E60; [apply Z.ltb_lt in E60; lia|reflexivity]. }
  unfold handle_admin_new, bindM, lift, token_urlsafe, db_op_exc. cbv zeta.
  rewrite Ha, Hex, Htol. cbv beta iota. rewrite Ety, Ev. cbn [negb].
  rewrite Hj. cbn [bind_exc]. rewrite Hp. cbn [bind_exc wdb].
  unfold create_expectation at 1 2.
  cbn [cp_exp_id cp_exp_type cp_expected_interval_s cp_tolerance_s].
  rewrite Hok. cbn [negb].
  destruct (exps (wdb w) !! _); [split; reflexivity|]. rewrite Ety.
  destruct (60 <=? expected); [|split; reflexivity].
  destruct (0 <=? tol) eqn:Et; [apply Z.leb_le in Et; lia|]. split; reflexivity.
Qed.

Lemma admin_new_negative_tolerance_raises_witness :
  let jl := fun s : string => if String.eqb s "{}" then inr (JObj [])
                              else inl (ValueError "Expecting value") in
  fst (handle_admin_new jl cfg0 "Bearer secret"
         [("type", "schedule"); ("name", "backup"); ("email", "o@example.com");
          ("expected_interval_s", "3600"); ("tolerance_s", "-5")] 9 (world_of db_one))
  = inl IntegrityError.
Proof.
  intros jl.
  apply (admin_new_negative_tolerance_raises jl cfg0 "Bearer secret"
           [("type", "schedule"); ("name", "backup"); ("email", "o@example.com");
            ("expected_interval_s", "3600"); ("tolerance_s", "-5")] 3600 (-5) (JObj [])
           (PSchedule {| max_runtime_s := 0; min_spacing_s := 0; allow_overlap := false |})
           9 (world_of db_one)).
  - vm_compute. reflexivity.
  - left. vm_compute. reflexivity.
  - vm_compute. discriminate.
  - vm_compute. discriminate.
  - vm_compute. reflexivity.
  - split; vm_compute; congruence.
  - vm_compute. reflexivity.
  - split; vm_compute; congruence.
  - vm_compute. reflexivity.
  - vm_compute. reflexivity.
  - split; vm_compute; congruence.
Defined.

End Extras4.

Module Extras5.
Import Rules Store Server Facts Examples.
Open Scope Z_scope.

Lemma in_str_iff (c : string) (l : list string) :
  In c l <-> existsb (String.eqb c) l = true.
Proof.
  rewrite existsb_exists. split.
  - intros H. exists c. split; [exact H|apply String.eqb_refl].
  - intros (x & Hx & E). apply String.eqb_eq in E. subst x. exact Hx.
Qed.

Lemma find_newest (f : observation -> bool) (o : list observation) (fs r : observation) :
  StronglySorted (fun a b => (observed_at b <= observed_at a)%Z) o ->
  List.find f o = Some fs -> In r o -> f r = true ->
  (observed_at r <= observed_at fs)%Z.
Proof.
  induction o as [|x o IH]; intros Hs Hf Hr Hfr; simpl in *; [contradiction|].
  inversion Hs as [|? ? Hs' Hall]; subst.
  destruct (f x) eqn:Ex.
  - injection Hf as <-. destruct Hr as [<-|Hr]; [lia|].
    exact (proj1 (List.Forall_forall _ _) Hall r Hr).
  - destruct Hr as [<-|Hr]; [congruence|]. now apply IH.
Qed.

(** The codes [schedule_evaluate] returns, opened and closed together, are
    pairwise distinct and drawn from [missed], [longrun], [overlap] and
    [spacing]: no code is both opened and closed, none twice. *)
Theorem schedule_codes_distinct (e : expectation) (o : list observation) (t : Z)
  (vs : list violation_tuple) (cs : list string) :
  schedule_evaluate e o t = inr (vs, cs) ->
  NoDup (map vt_code vs ++ cs) /\
  (forall c, In c (map vt_code vs ++ cs) -> In c ["missed"; "longrun"; "overlap"; "spacing"]).
Proof.
  unfold schedule_evaluate, bind_exc.
  destruct (parse_schedule (params_json e)) as [ex|p]; [discriminate|].
  intros H. repeat case_match; simplify_eq/=;
    (split; [apply (bool_decide_unpack _); vm_compute; exact I
            |intros c Hc; simpl in Hc; simpl; tauto]).
Qed.

Lemma schedule_codes_distinct_witness :
  exists vs cs,
    schedule_evaluate sched [ob Start 50; ob End 10; ob Start 0] 200 = inr (vs, cs) /\
    NoDup (map vt_code vs ++ cs).
Proof.
  destruct (schedule_evaluate sched [ob Start 50; ob End 10; ob Start 0] 200)
    as [ex|[vs cs]] eqn:H.
  - vm_compute in H. discriminate H.
  - exists vs, cs. split; [reflexivity|].
    exact (proj1 (schedule_codes_distinct _ _ _ _ _ H)).
Defined.

(** Each parameter switch of a schedule expectation turns its check off:
    with [max_runtime_s = 0] no [longrun] is opened, with
    [allow_overlap = true] no [overlap] is opened, and with
    [min_spacing_s = 0] [spacing] is neither opened nor closed. *)
Theorem schedule_switches_off (e : expectation) (p : ScheduleParams) (o : list observation)
  (t : Z) (vs : list violation_tuple) (cs : list string) :
  parse_schedule (params_json e) = inr p ->
  schedule_evaluate e o t = inr (vs, cs) ->
  (max_runtime_s p = 0 -> ~ In "longrun" (map vt_code vs)) /\
  (allow_overlap p = true -> ~ In "overlap" (map vt_code vs)) /\
  (min_spacing_s p = 0 -> ~ In "spacing" (map vt_code vs ++ cs)).
Proof.
  intros Hp. unfold schedule_evaluate. rewrite Hp. cbn [bind_exc].
  intros H. rewrite !in_str_iff.
  repeat case_match; simplify_eq/=;
    repeat split; intros Hx; subst; simpl in *; try discriminate; try congruence.
  all: repeat match goal with
         | Hb : (negb (_ =? 0) && _) = true |- _ => rewrite Hx in Hb; discriminate Hb
         | Hb : negb (_ =? 0) = true |- _ => rewrite Hx in Hb; discriminate Hb
         | Hb : negb ?b = true |- _ => rewrite Hx in Hb; discriminate Hb
         end.
Qed.

Lemma schedule_switches_off_witness :
  exists vs cs,
    schedule_evaluate sched [ob Start 50; ob End 10; ob Start 0] 200 = inr (vs, cs) /\
    ~ In "longrun" (map vt_code vs) /\ ~ In "spacing" (map vt_code vs ++ cs).
Proof.
  destruct (schedule_evaluate sched [ob Start 50; ob End 10; ob Start 0] 200)
    as [ex|[vs cs]] eqn:H.
  - vm_compute in H. discriminate H.
  - exists vs, cs. split; [reflexivity|].
    destruct (schedule_switches_off sched
                {| max_runtime_s := 0; min_spacing_s := 0; allow_overlap := false |}
                _ _ _ _ ltac:(reflexivity) H) as (Hl & _ & Hs).
    split; [apply Hl|apply Hs]; reflexivity.
Defined.

(** The [longrun] decision of [schedule_evaluate]. *)
Lemma longrun_iff_overrun_aux (e : expectation) (p : ScheduleParams) (o : list observation)
  (t : Z) (ls : observation) (vs : list violation_tuple) (cs : list string) :
  parse_schedule (params_json e) = inr p ->
  Sorted (fun a b => observed_at b <= observed_at a) o ->
  In ls o -> kind ls = Start ->
  (forall r, In r o -> kind r = Start -> observed_at r <= observed_at ls) ->
  schedule_evaluate e o t = inr (vs, cs) ->
  (In "longrun" (map vt_code vs) <->
     (forall r, In r o -> kind r = End -> observed_at r < observed_at ls) /\
     max_runtime_s p <> 0 /\ t - observed_at ls > max_runtime_s p) /\
  (In "longrun" cs <-> ~ In "longrun" (map vt_code vs)).
Proof.
  intros Hp Hs Hls Hk Hnew H.
  apply Sorted_StronglySorted in Hs; [|intros a b c; lia].
  unfold schedule_evaluate in H. rewrite Hp in H. cbn [bind_exc] in H.
  destruct (List.find is_start o) as [fs|] eqn:Hf.
  2:{ exfalso. pose proof (find_none _ _ Hf ls Hls) as Hn. unfold is_start in Hn.
      rewrite Hk in Hn. discriminate. }
  assert (Heq : observed_at fs = observed_at ls).
  { pose proof (first_start_newest o fs ls Hs Hf Hls
                  ltac:(unfold is_start; rewrite Hk; reflexivity)) as H1.
    apply find_some in Hf as [Hin Hst].
    apply Hnew in Hin; [lia|]. unfold is_start in Hst.
    destruct (kind fs); simpl in Hst; congruence. }
  rewrite Heq in H. rewrite !in_str_iff.
  destruct (List.find (fun r => obs_kind_eqb (kind r) End
                                && (observed_at ls <=? observed_at r)) o) as [ne|] eqn:Hne.
  - apply find_some in Hne as [Hin Hne]. apply andb_prop in Hne as [Hne1 Hne2].
    apply Z.leb_le in Hne2.
    assert (Hkn : kind ne = End) by (destruct (kind ne); simpl in Hne1; congruence).
    repeat case_match; simplify_eq/=; (split; [split|split]);
      intros Hx; try discriminate; try congruence;
      destruct Hx as (Hall & _); specialize (Hall ne Hin Hkn); lia.
  - assert (Hend : forall r, In r o -> kind r = End -> observed_at r < observed_at ls).
    { intros r Hr Hkr. pose proof (find_none _ _ Hne r Hr) as Hn. simpl in Hn.
      rewrite Hkr in Hn. simpl in Hn. apply Z.leb_gt in Hn. exact Hn. }
    destruct (negb (max_runtime_s p =? 0) && (t - observed_at ls >? max_runtime_s p))
      eqn:Elr.
    + apply andb_prop in Elr as [E1 E2]. apply negb_true_iff, Z.eqb_neq in E1.
      apply Z.gtb_lt in E2.
      repeat case_match; simplify_eq/=; (split; [split|split]);
        intros Hx; try discriminate; try congruence; try (split; [exact Hend|lia]).
    + apply andb_false_iff in Elr.
      repeat case_match; simplify_eq/=; (split; [split|split]);
        intros Hx; try discriminate; try congruence;
        destruct Hx as (_ & Hm & Hr);
        (destruct Elr as [E|E]; [apply negb_false_iff, Z.eqb_eq in E; contradiction
                                |rewrite Z.gtb_ltb in E; apply Z.ltb_ge in E; lia]).
Qed.

(** For observations sorted newest first with a newest start [ls],
    [schedule_evaluate] opens [longrun] iff no [end] is at or after
    [ls], [max_runtime_s] is nonzero and [t - ls.observed_at] exceeds it;
    otherwise [longrun] is in the close list. *)
Theorem longrun_iff_overrun (e : expectation) (p : ScheduleParams) (o : list observation)
  (t : Z) (ls : observation) (vs : list violation_tuple) (cs : list string) :
  parse_schedule (params_json e) = inr p ->
  Sorted (fun a b => observed_at b <= observed_at a) o ->
  In ls o -> kind ls = Start ->
  (forall r, In r o -> kind r = Start -> observed_at r <= observed_at ls) ->
  schedule_evaluate e o t = inr (vs, cs) ->
  (In "longrun" (map vt_code vs) <->
     (forall r, In r o -> kind r = End -> observed_at r < observed_at ls) /\
     max_runtime_s p <> 0 /\ t - observed_at ls > max_runtime_s p) /\
  (In "longrun" cs <-> ~ In "longrun" (map vt_code vs)).
Proof.
  intros Hp Hs Hls Hk Hnew H. exact (longrun_iff_overrun_aux e p o t ls vs cs Hp Hs Hls Hk Hnew H).
Qed.

Lemma longrun_iff_overrun_witness :
  let e := {| exp_id := "E"; exp_type := "schedule"; name := "job";
              expected_interval_s := 60; tolerance_s := 10;
              params_json := JObj [("max_runtime_s", JInt 100)];
              owner_email := "o@example.com"; is_enabled := true;
              created_at := 0; updated_at := 0 |} in
  exists vs cs,
    schedule_evaluate e [ob Start 50; ob End 10; ob Start 0] 200 = inr (vs, cs) /\
    In "longrun" (map vt_code vs).
Proof.
  intros e.
  destruct (schedule_evaluate e [ob Start 50; ob End 10; ob Start 0] 200)
    as [ex|[vs cs]] eqn:H.
  - vm_compute in H. discriminate H.
  - exists vs, cs. split; [reflexivity|].
    apply (proj2 (proj1 (longrun_iff_overrun e
             {| max_runtime_s := 100; min_spacing_s := 0; allow_overlap := false |}
             [ob Start 50; ob End 10; ob Start 0] 200 (ob Start 50) vs cs
             ltac:(reflexivity) ltac:(repeat constructor; simpl; lia)
             ltac:(simpl; auto) ltac:(reflexivity)
             ltac:(intros r Hr Hk; simpl in Hr;
                   destruct Hr as [<-|[<-|[<-|[]]]]; simpl in *; [lia|discriminate|lia])
             H))).
    split; [|simpl; lia].
    intros r Hr Hk. simpl in Hr.
    destruct Hr as [<-|[<-|[<-|[]]]]; simpl in *; [discriminate|lia|discriminate].
Defined.

(** For observations sorted newest first with a newest start [ls],
    [schedule_evaluate] opens [spacing] iff some [end] is at or after [ls],
    [min_spacing_s] is nonzero, and the newest [end] before [ls] exists and
    ended less than [min_spacing_s] seconds before [ls]. *)
Theorem spacing_iff_short_gap (e : expectation) (p : ScheduleParams) (o : list observation)
  (t : Z) (ls : observation) (vs : list violation_tuple) (cs : list string) :
  parse_schedule (params_json e) = inr p ->
  Sorted (fun a b => observed_at b <= observed_at a) o ->
  In ls o -> kind ls = Start ->
  (forall r, In r o -> kind r = Start -> observed_at r <= observed_at ls) ->
  schedule_evaluate e o t = inr (vs, cs) ->
  (In "spacing" (map vt_code vs) <->
     (exists r, In r o /\ kind r = End /\ observed_at ls <= observed_at r) /\
     min_spacing_s p <> 0 /\
     exists pe, In pe o /\ kind pe = End /\ observed_at pe < observed_at ls /\
       (forall r, In r o -> kind r = End -> observed_at r < observed_at ls ->
                  observed_at r <= observed_at pe) /\
       observed_at ls - observed_at pe < min_spacing_s p).
Proof.
  intros Hp Hs Hls Hk Hnew H.
  apply Sorted_StronglySorted in Hs; [|intros a b c; lia].
  unfold schedule_evaluate in H. rewrite Hp in H. cbn [bind_exc] in H.
  destruct (List.find is_start o) as [fs|] eqn:Hf.
  2:{ exfalso. pose proof (find_none _ _ Hf ls Hls) as Hn. unfold is_start in Hn.
      rewrite Hk in Hn. discriminate. }
  assert (Heq : observed_at fs = observed_at ls).
  { pose proof (first_start_newest o fs ls Hs Hf Hls
                  ltac:(unfold is_start; rewrite Hk; reflexivity)) as H1.
    apply find_some in Hf as [Hin Hst].
    apply Hnew in Hin; [lia|]. unfold is_start in Hst.
    destruct (kind fs); simpl in Hst; congruence. }
  rewrite Heq in H. rewrite in_str_iff.
  assert (Hend : forall r, obs_kind_eqb (kind r) End = true <-> kind r = End)
    by (intros r; destruct (kind r); simpl; split; congruence).
  destruct (List.find (fun r => obs_kind_eqb (kind r) End
                                && (observed_at ls <=? observed_at r)) o) as [ne|] eqn:Hne.
  - apply find_some in Hne as [Hin Hne]. apply andb_prop in Hne as [Hne1 Hne2].
    apply Z.leb_le in Hne2. apply Hend in Hne1.
    destruct (min_spacing_s p =? 0) eqn:Em; cbn [negb] in H.
    + apply Z.eqb_eq in Em.
      repeat case_match; simplify_eq/=; split; intros Hx; try discriminate;
        destruct Hx as (_ & Hm & _); contradiction.
    + apply Z.eqb_neq in Em.
      destruct (List.find (fun r => obs_kind_eqb (kind r) End
                                    && (observed_at r <? observed_at ls)) o)
        as [pe|] eqn:Hpe.
      * pose proof (fun r => find_newest _ o pe r Hs Hpe) as Hmax.
        apply find_some in Hpe as [Hpin Hpe]. apply andb_prop in Hpe as [Hpe1 Hpe2].
        apply Z.ltb_lt in Hpe2. apply Hend in Hpe1.
        destruct (observed_at ls - observed_at pe <? min_spacing_s p) eqn:Eg.
        -- apply Z.ltb_lt in Eg.
           assert (Hrhs : (exists r, In r o /\ kind r = End /\ observed_at ls <= observed_at r) /\
             min_spacing_s p <> 0 /\
             exists pe, In pe o /\ kind pe = End /\ observed_at pe < observed_at ls /\
               (forall r, In r o -> kind r = End -> observed_at r < observed_at ls ->
                          observed_at r <= observed_at pe) /\
               observed_at ls - observed_at pe < min_spacing_s p).
           { split; [exists ne; auto|]. split; [exact Em|].
             exists pe. split; [exact Hpin|]. split; [exact Hpe1|]. split; [exact Hpe2|].
             split; [|exact Eg].
             intros r Hr Hkr Hlt. apply Hmax; [exact Hr|].
             apply andb_true_intro. split; [apply Hend; exact Hkr|apply Z.ltb_lt; exact Hlt]. }
           clear -H Hrhs.
           repeat case_match; simplify_eq/=; split; intros; first [reflexivity|exact Hrhs].
        -- apply Z.ltb_ge in Eg.
           repeat case_match; simplify_eq/=; split; intros Hx; try discriminate;
             destruct Hx as (_ & _ & pe' & Hin' & Hk' & Hlt' & Hmax' & Hgap');
             (assert (observed_at pe <= observed_at pe') by (apply Hmax'; auto));
             (assert (observed_at pe' <= observed_at pe)
                by (apply Hmax; [exact Hin'|];
                    apply andb_true_intro; split; [apply Hend; exact Hk'|apply Z.ltb_lt; exact Hlt']));
             lia.
      * repeat case_match; simplify_eq/=; split; intros Hx; try discriminate;
          destruct Hx as (_ & _ & pe' & Hin' & Hk' & Hlt' & _);
          pose proof (find_none _ _ Hpe pe' Hin') as Hn; simpl in Hn;
          rewrite (proj2 (Hend pe') Hk') in Hn; simpl in Hn;
          apply Z.ltb_ge in Hn; lia.
  - repeat case_match; simplify_eq/=; split; intros Hx; try discriminate;
      destruct Hx as ((r & Hr & Hkr & Hle) & _);
      pose proof (find_none _ _ Hne r Hr) as Hn; simpl in Hn;
      rewrite (proj2 (Hend r) Hkr) in Hn; simpl in Hn;
      apply Z.leb_gt in Hn; lia.
Qed.

Lemma spacing_iff_short_gap_witness :
  let e := {| exp_id := "E"; exp_type := "schedule"; name := "job";
              expected_interval_s := 60; tolerance_s := 10;
              params_json := JObj [("min_spacing_s", JInt 100)];
              owner_email := "o@example.com"; is_enabled := true;
              created_at := 0; updated_at := 0 |} in
  exists vs cs,
    schedule_evaluate e [ob End 70; ob Start 50; ob End 10; ob Start 0] 80 = inr (vs, cs) /\
    In "spacing" (map vt_code vs).
Proof.
  intros e.
  destruct (schedule_evaluate e [ob End 70; ob Start 50; ob End 10; ob Start 0] 80)
    as [ex|[vs cs]] eqn:H.
  - vm_compute in H. discriminate H.
  - exists vs, cs. split; [reflexivity|].
    apply (proj2 (spacing_iff_short_gap e
             {| max_runtime_s := 0; min_spacing_s := 100; allow_overlap := false |}
             [ob End 70; ob Start 50; ob End 10; ob Start 0] 80 (ob Start 50) vs cs
             ltac:(reflexivity) ltac:(repeat constructor; simpl; lia)
             ltac:(simpl; auto) ltac:(reflexivity)
             ltac:(intros r Hr Hk; simpl in Hr;
                   destruct Hr as [<-|[<-|[<-|[<-|[]]]]]; simpl in *;
                   [discriminate|lia|discriminate|lia])
             H)).
    split; [exists (ob End 70); split; [simpl; auto|split; [reflexivity|simpl; lia]]|].
    split; [simpl; lia|].
    exists (ob End 10). split; [simpl; auto 6|]. split; [reflexivity|].
    split; [simpl; lia|]. split; [|simpl; lia].
    intros r Hr Hk Hlt. simpl in Hr.
    destruct Hr as [<-|[<-|[<-|[<-|[]]]]]; simpl in *; lia.
Defined.

End Extras5.

Module Extras6.
Import Rules Store Server Handlers Probe Reads Examples Extras.
Open Scope Z_scope.

Lemma kind_of_string_str s k : kind_of_string s = Some k -> kind_str k = s.
Proof.
  unfold kind_of_string.
  destruct (String.eqb_spec s "start"); [intros H; injection H as <-; subst; reflexivity|].
  destruct (String.eqb_spec s "end"); [intros H; injection H as <-; subst; reflexivity|].
  destruct (String.eqb_spec s "ping"); [intros H; injection H as <-; subst; reflexivity|].
  destruct (String.eqb_spec s "ack"); [intros H; injection H as <-; subst; reflexivity|].
  discriminate.
Qed.

Lemma observe_get_found path id t w e :
  strip_slash (drop_prefix 9 path) = id -> exps (wdb w) !! id = Some e ->
  handle_observe_get path t w =
  (inr (RJson 200 (JObj [("id", JStr (exp_id e)); ("type", JStr (exp_type e));
              ("name", JStr (name e));
              ("expected_interval_s", JInt (expected_interval_s e));
              ("tolerance_s", JInt (tolerance_s e)); ("params", params_json e);
              ("owner_email", JStr (owner_email e)); ("is_enabled", JBool (is_enabled e));
              ("recent_observations",
               JArr (map obs_json (recent_observations id 10 (wdb w))))])), w).
Proof.
  intros Hid He. unfold handle_observe_get, bindM, db_read, get_expectation.
  cbv zeta. rewrite Hid, He. reflexivity.
Qed.

(** After a successful [POST /observe/<id>] at clock [t] (not behind the
    expectation's other rows), [GET /observe/<id>] answers [200], changes
    nothing, and lists first the new row: the [kind] string as posted, the
    time [t] and the posted [meta]. *)
Theorem observe_get_after_post (path id : string) (form : list (string * string))
  (t t' : Z) (w w1 : world) (r : exc + response) :
  strip_slash (drop_prefix 9 path) = id ->
  (exists e, exps (wdb w) !! id = Some e) ->
  kind_of_string (strip (form_or form "kind" "")) <> None ->
  (forall o, In o (obs (wdb w)) -> obs_exp o = id -> observed_at o <= t) ->
  handle_observe_post path form t w = (r, w1) ->
  r = inr (RText 200 ("ok" ++ nl)) /\
  exists fields rest,
    handle_observe_get path t' w1 = (inr (RJson 200 (JObj fields)), w1) /\
    dict_get fields "recent_observations"
    = Some (JArr (JObj [("kind", JStr (strip (form_or form "kind" "")));
                        ("observed_at", JInt t);
                        ("meta", meta_json (form_get form "meta"))] :: rest)).
Proof.
  intros Hid [e He] Hk Hold Hpost.
  unfold handle_observe_post, bindM, db_read, get_expectation in Hpost. cbv zeta in Hpost.
  rewrite Hid, He in Hpost.
  destruct (kind_of_string (strip (form_or form "kind" ""))) as [k|] eqn:Ek;
    [|contradiction].
  unfold db_op_exc, add_observation, fk_ok in Hpost. rewrite He in Hpost.
  cbn in Hpost. injection Hpost as <- <-. split; [reflexivity|].
  set (row := {| obs_id := next_seq (wdb w); obs_exp := id; kind := k; observed_at := t;
                 obs_meta := form_get form "meta" |}).
  assert (Hrec : exists rest, recent_observations id 10
      (with_obs (wdb w) (obs (wdb w) ++ [row])%list (next_seq (wdb w) + 1)) = row :: rest).
  { unfold recent_observations. simpl. rewrite List.filter_app. simpl.
    rewrite String.eqb_refl, rev_app_distr. simpl. rewrite insert_desc_newest.
    - eexists. reflexivity.
    - intros x Hx. change (fold_right insert_desc [] ?l) with (sort_desc l) in Hx.
      apply (Permutation_in _ (recent_observations_perm id (wdb w))) in Hx.
      apply filter_In in Hx as [Hx Hex]. apply String.eqb_eq in Hex. exact (Hold x Hx Hex). }
  destruct Hrec as [rest Hrec].
  set (w1 := with_db w (with_obs (wdb w) (obs (wdb w) ++ [row])%list (next_seq (wdb w) + 1))).
  assert (He1 : exps (wdb w1) !! id = Some e) by exact He.
  rewrite (observe_get_found path id t' w1 e Hid He1).
  change (wdb w1) with (with_obs (wdb w) (obs (wdb w) ++ [row])%list (next_seq (wdb w) + 1)).
  rewrite Hrec.
  eexists _, (map obs_json rest). split; [reflexivity|].
  cbn. unfold obs_json. cbn. rewrite (kind_of_string_str _ _ Ek). reflexivity.
Qed.

Lemma observe_get_after_post_witness :
  exists fields rest,
    handle_observe_get "/observe/E" 12
      (snd (handle_observe_post "/observe/E" [("kind", " end "); ("meta", "m")] 10
              (world_of db_s5)))
    = (inr (RJson 200 (JObj fields)),
       snd (handle_observe_post "/observe/E" [("kind", " end "); ("meta", "m")] 10
              (world_of db_s5))) /\
    dict_get fields "recent_observations"
    = Some (JArr (JObj [("kind", JStr "end"); ("observed_at", JInt 10);
                        ("meta", JStr "m")] :: rest)).
Proof.
  destruct (observe_get_after_post "/observe/E" "E" [("kind", " end "); ("meta", "m")] 10 12
              (world_of db_s5)
              (snd (handle_observe_post "/observe/E" [("kind", " end "); ("meta", "m")] 10
                      (world_of db_s5)))
              (fst (handle_observe_post "/observe/E" [("kind", " end "); ("meta", "m")] 10
                      (world_of db_s5))))
    as [_ H].
  - vm_compute. reflexivity.
  - eexists. vm_compute. reflexivity.
  - vm_compute. discriminate.
  - intros o Ho He. simpl in Ho. destruct Ho as [<-|[]]. simpl. lia.
  - apply surjective_pairing.
  - exact H.
Defined.

Lemma count_after_close (P : violation -> bool) (cl : violation -> bool)
  (l : list violation) :
  (forall v, cl v = true -> P v = true /\ P (close_row v) = false) ->
  length (List.filter P l)
  = (length (List.filter P (map (fun v => if cl v then close_row v else v) l))
     + length (List.filter cl l))%nat.
Proof.
  intros H. induction l as [|v l IH]; simpl; [reflexivity|].
  destruct (cl v) eqn:Ec.
  - destruct (H v Ec) as [H1 H2]. rewrite H1, H2. simpl. rewrite IH. lia.
  - destruct (P v); simpl; rewrite IH; lia.
Qed.

Lemma count_mark_notified (P : violation -> bool) now vid (d : db) :
  (forall v v', v_exp v' = v_exp v -> is_open v' = is_open v -> P v' = P v) ->
  length (List.filter P (viols (mark_notified now vid d))) = length (List.filter P (viols d)).
Proof.
  intros HP. unfold mark_notified, update_violation. cbn [viols with_viols].
  induction (viols d) as [|v l IH]; simpl; [reflexivity|].
  destruct (v_id v =? vid).
  - rewrite (HP v) by reflexivity. destruct (P v); simpl; rewrite IH; reflexivity.
  - destruct (P v); simpl; rewrite IH; reflexivity.
Qed.

(** [open_violations_count] follows the writes of the violations table:
    [close_violations] lowers the count, for the expectation and overall, by
    the number it returns; a successful [create_violation] raises both by
    one; [mark_notified] leaves both as they were.  An empty id counts every
    open row, as no id does. *)
Theorem open_count_tracks_writes (exp code0 msg : string) (codes : list string)
  (ev : evidence) (now vid : Z) (d : db) :
  (let '(n, d') := close_violations exp codes d in
   open_violations_count (Some exp) d' = open_violations_count (Some exp) d - n /\
   open_violations_count None d' = open_violations_count None d - n) /\
  (forall vid' d', create_violation now exp code0 msg ev d = inr (vid', d') ->
   open_violations_count (Some exp) d' = open_violations_count (Some exp) d + 1 /\
   open_violations_count None d' = open_violations_count None d + 1) /\
  (open_violations_count (Some exp) (mark_notified now vid d) = open_violations_count (Some exp) d
   /\ open_violations_count None (mark_notified now vid d) = open_violations_count None d) /\
  open_violations_count (Some "") d = open_violations_count None d.
Proof.
  assert (Hcl : forall (P : violation -> bool),
             (forall v, closes exp codes v = true -> P v = true /\ P (close_row v) = false) ->
             Z.of_nat (length (List.filter P
               (map (fun v => if closes exp codes v then close_row v else v) (viols d))))
             = Z.of_nat (length (List.filter P (viols d)))
               - Z.of_nat (length (List.filter (closes exp codes) (viols d)))).
  { intros P HP. rewrite (count_after_close P (closes exp codes) (viols d) HP). lia. }
  assert (Hop : forall v, closes exp codes v = true -> is_open v = true /\ is_open (close_row v) = false).
  { intros v Hv. unfold closes in Hv. apply andb_prop in Hv as [Hv _].
    apply andb_prop in Hv as [_ Hv]. split; [exact Hv|reflexivity]. }
  split; [|split; [|split]].
  - destruct codes as [|c cs]; [simpl; lia|].
    unfold close_violations. unfold open_violations_count. cbn [viols with_viols].
    split; [|apply Hcl; exact Hop].
    destruct (String.eqb_spec exp ""); [apply Hcl; exact Hop|].
    apply Hcl. intros v Hv. pose proof (Hop v Hv) as [H1 H2].
    unfold closes in Hv. apply andb_prop in Hv as [Hv _]. apply andb_prop in Hv as [Hv _].
    rewrite H1, H2, Hv. simpl. rewrite Hv. split; reflexivity.
  - intros vid' d' Hc. unfold create_violation in Hc.
    destruct (fk_ok d exp); [|discriminate]. injection Hc as <- <-.
    unfold open_violations_count. cbn [viols with_viols].
    rewrite !List.filter_app. simpl. rewrite String.eqb_refl. simpl.
    rewrite !length_app. simpl.
    destruct (String.eqb exp ""); split; lia.
  - unfold open_violations_count.
    pose proof (fun P => count_mark_notified P now vid d) as Hm.
    assert (H1 : length (List.filter is_open (viols (mark_notified now vid d)))
                 = length (List.filter is_open (viols d)))
      by (apply Hm; intros v v' E1 E2; exact E2).
    assert (H2 : length (List.filter (fun v => String.eqb (v_exp v) exp && is_open v)
                           (viols (mark_notified now vid d)))
                 = length (List.filter (fun v => String.eqb (v_exp v) exp && is_open v)
                             (viols d)))
      by (apply Hm; intros v v' E1 E2; cbv beta; rewrite E1, E2; reflexivity).
    rewrite H1, H2. destruct (String.eqb exp ""); split; reflexivity.
  - reflexivity.
Qed.

Lemma open_count_tracks_writes_witness :
  exists d', create_violation 400 "E" "no_ack" "m" [] db_s5 = inr (1, d') /\
    open_violations_count (Some "E") d' = open_violations_count (Some "E") db_s5 + 1.
Proof.
  destruct (create_violation 400 "E" "no_ack" "m" [] db_s5) as [ex|[vid' d']] eqn:H.
  - vm_compute in H. discriminate H.
  - assert (vid' = 1) as -> by (vm_compute in H; congruence).
    exists d'. split; [reflexivity|].
    exact (proj1 (proj1 (proj2 (open_count_tracks_writes "E" "no_ack" "m" [] [] 400 0 db_s5))
                    1 d' H)).
Defined.

Lemma trial_probe_iff (d : db) :
  Forall (fun r => passed r = true) (check_trial_states d) <->
  (forall i tr, trials d !! i = Some tr -> trial_passes tr = true).
Proof.
  unfold check_trial_states. rewrite List.Forall_forall. split.
  - intros H i tr Hl. unfold trial_passes.
    assert (Hin : In (i, tr) (map_to_list (trials d)))
      by (apply list_elem_of_In, elem_of_map_to_list; exact Hl).
    destruct (status tr) eqn:Es; [reflexivity| |];
      (refine (H {| inv_name := _; passed := _ |} _);
       apply in_flat_map; exists (i, tr); split; [exact Hin|];
       simpl; rewrite Es; left; reflexivity).
  - intros H r Hr. apply in_flat_map in Hr as ([i tr] & Hin & Hr).
    apply list_elem_of_In, elem_of_map_to_list in Hin.
    specialize (H i tr Hin). unfold trial_passes in H.
    destruct (status tr); simpl in Hr; [contradiction| |]; destruct Hr as [<-|[]]; exact H.
Qed.

(** [check_trial_states] keeps passing across the trial writes, from a
    database where it passes and no pending trial carries an [acked_at]:
    after [create_trial] and [expire_trial] it still passes, and after a
    successful [ack_trial] it passes iff the clock [now] of the ack is
    positive ([acked_at > 0] is its test). *)
Theorem trial_probe_across_writes (d : db) (now : Z) (id exp meta : string) :
  Forall (fun r => passed r = true) (check_trial_states d) ->
  (forall i tr, trials d !! i = Some tr -> status tr = Pending -> acked_at tr = None) ->
  (forall d', create_trial now id exp meta d = inr d' ->
     Forall (fun r => passed r = true) (check_trial_states d')) /\
  Forall (fun r => passed r = true) (check_trial_states (expire_trial id d)) /\
  (forall d', ack_trial now id d = (true, d') ->
     (Forall (fun r => passed r = true) (check_trial_states d') <-> 0 < now)).
Proof.
  rewrite !trial_probe_iff. intros Hok Hpend.
  split; [|split].
  - intros d' Hc. rewrite trial_probe_iff. unfold create_trial in Hc.
    destruct (trials d !! id) eqn:Hl; [discriminate|].
    destruct (fk_ok d exp); [|discriminate]. injection Hc as <-.
    intros i tr. cbn [trials with_trials].
    destruct (decide (i = id)) as [->|Hne].
    + rewrite lookup_insert_eq. intros Heq. injection Heq as <-. reflexivity.
    + rewrite lookup_insert_ne by congruence. apply Hok.
  - unfold expire_trial.
    destruct (trials d !! id) as [tr|] eqn:Hl; [|exact Hok].
    destruct (trial_status_eqb (status tr) Pending) eqn:Es; [|exact Hok].
    intros i tr'. cbn [trials with_trials].
    destruct (decide (i = id)) as [->|Hne].
    + rewrite lookup_insert_eq. intros Heq. injection Heq as <-.
      unfold trial_passes. simpl. rewrite (Hpend id tr Hl); [reflexivity|].
      destruct (status tr); simpl in Es; congruence.
    + rewrite lookup_insert_ne by congruence. apply Hok.
  - intros d' Ha. rewrite trial_probe_iff. unfold ack_trial in Ha.
    destruct (trials d !! id) as [tr|] eqn:Hl; [|discriminate].
    destruct (trial_status_eqb (status tr) Pending); [|discriminate].
    injection Ha as <-. cbn [trials with_trials]. split.
    + intros H. specialize (H id _ (lookup_insert_eq _ _ _)).
      unfold trial_passes in H. simpl in H. apply Z.ltb_lt in H. exact H.
    + intros Hnow i tr'. destruct (decide (i = id)) as [->|Hne].
      * rewrite lookup_insert_eq. intros Heq. injection Heq as <-.
        unfold trial_passes. simpl. apply Z.ltb_lt. exact Hnow.
      * rewrite lookup_insert_ne by congruence. apply Hok.
Qed.

Lemma trial_probe_across_writes_witness :
  ~ Forall (fun r => passed r = true) (check_trial_states (snd (ack_trial 0 "T" db_s5))).
Proof.
  intros H.
  pose proof (proj2 (proj2 (trial_probe_across_writes db_s5 0 "T" "E" ""
                ltac:(vm_compute; constructor)
                ltac:(intros i tr Hl _; destruct (decide (i = "T")) as [->|Hne];
                      [vm_compute in Hl; injection Hl as <-; reflexivity
                      |unfold db_s5 in Hl; cbn [trials] in Hl;
                       rewrite lookup_insert_ne in Hl by congruence;
                       rewrite lookup_empty in Hl; discriminate])))
              (snd (ack_trial 0 "T" db_s5)) ltac:(vm_compute; reflexivity)) as Hw.
  apply Hw in H. lia.
Defined.

End Extras6.

Module Extras7.
Import Rules Store Server Probe Facts Examples ViolModel Extras Extras2 Extras3 Extras5 Extras6.
Open Scope Z_scope.

(** With a start among the rows, [missed] is either opened or closed by
    [schedule_evaluate], never both, according to the age of that start. *)
Lemma missed_split e o t vs cs fs :
  schedule_evaluate e o t = inr (vs, cs) -> List.find is_start o = Some fs ->
  if (t - observed_at fs >? expected_interval_s e + tolerance_s e)
  then In "missed" (map vt_code vs) /\ ~ In "missed" cs
  else In "missed" cs /\ ~ In "missed" (map vt_code vs).
Proof.
  intros H Hf. unfold schedule_evaluate, bind_exc in H.
  destruct (parse_schedule (params_json e)) as [ex|p]; [discriminate|]. rewrite Hf in H.
  destruct (t - observed_at fs >? expected_interval_s e + tolerance_s e) eqn:Ha;
    rewrite !in_str_iff; repeat case_match; simplify_eq/=;
    (split; [reflexivity|intros Hx; discriminate Hx]).
Qed.

Lemma open_rows_nil_none exp c d : open_rows exp c d = [] -> open_violation exp c d = None.
Proof.
  unfold open_rows, open_violation. intros H.
  apply (fold_keep (fun v => String.eqb (v_exp v) exp && String.eqb (code v) c && is_open v)).
  intros v Hv. destruct (String.eqb (v_exp v) exp && String.eqb (code v) c && is_open v) eqn:E;
    [|reflexivity].
  exfalso. assert (Hin : In v (List.filter (fun v => String.eqb (v_exp v) exp
                                                 && String.eqb (code v) c && is_open v)
                                           (viols d))) by (apply filter_In; auto).
  rewrite H in Hin. destruct Hin.
Qed.

Lemma open_violation_some_rows exp c d v : open_violation exp c d = Some v -> open_rows exp c d <> [].
Proof. intros H Hn. rewrite (open_rows_nil_none _ _ _ Hn) in H. discriminate H. Qed.

Lemma create_open_rows t exp c msg ev d n d' id c' :
  create_violation t exp c msg ev d = inr (n, d') ->
  (c <> c' -> open_rows id c' d' = open_rows id c' d) /\
  (exp = id -> c = c' -> open_rows id c' d' <> []) /\
  (open_rows id c' d <> [] -> open_rows id c' d' <> []).
Proof.
  unfold create_violation. destruct (fk_ok d exp); [|discriminate]. intros [= <- <-].
  unfold open_rows. cbn [viols with_viols]. rewrite List.filter_app. simpl.
  split; [|split].
  - intros Hne. destruct (String.eqb_spec c c'); [contradiction|].
    rewrite andb_false_r. simpl. apply app_nil_r.
  - intros -> ->. rewrite !String.eqb_refl. simpl. intros Hx.
    apply app_eq_nil in Hx as [_ Hx]. discriminate Hx.
  - intros Hn Hx. apply app_eq_nil in Hx as [Hx _]. contradiction.
Qed.

Lemma mark_open_rows t vid d id c :
  open_rows id c (mark_notified t vid d) = [] <-> open_rows id c d = [].
Proof.
  unfold open_rows, mark_notified, update_violation. cbn [viols with_viols].
  induction (viols d) as [|v l IH]; simpl; [reflexivity|].
  destruct (v_id v =? vid); simpl;
    (destruct (String.eqb (v_exp v) id && String.eqb (code v) c && is_open v);
     [split; discriminate|exact IH]).
Qed.

Lemma close_open_rows exp codes d c :
  In c codes -> open_rows exp c (snd (close_violations exp codes d)) = [].
Proof.
  intros Hc. destruct codes as [|c0 cs]; [destruct Hc|].
  unfold close_violations, open_rows. cbn [snd viols with_viols].
  induction (viols d) as [|v l IH]; simpl; [reflexivity|].
  destruct (closes exp (c0 :: cs) v) eqn:E.
  - unfold close_row at 1. simpl. rewrite andb_false_r. exact IH.
  - destruct (String.eqb (v_exp v) exp && String.eqb (code v) c && is_open v) eqn:E2;
      [|exact IH].
    exfalso. apply andb_prop in E2 as [E2 Eo]. apply andb_prop in E2 as [Ee Ec].
    apply String.eqb_eq in Ec. unfold closes in E. rewrite Ee, Eo in E. simpl in E.
    assert (existsb (String.eqb (code v)) (c0 :: cs) = true) as Hx.
    { apply existsb_exists. exists c. split; [exact Hc|]. rewrite Ec. apply String.eqb_refl. }
    simpl in Hx. congruence.
Qed.

Lemma close_frame exp codes d :
  exps (snd (close_violations exp codes d)) = exps d /\
  obs (snd (close_violations exp codes d)) = obs d.
Proof. destruct codes; split; reflexivity. Qed.

Lemma pres_for_each_in {A} (P : db -> Prop) (f : A -> M unit) l :
  (forall x, In x l -> preserves P (f x)) -> preserves P (for_each f l).
Proof.
  intros Hf. induction l as [|x l IH]; [apply pres_ret|].
  apply pres_bind; [apply Hf; now left|intros _; apply IH; intros y Hy; apply Hf; now right].
Qed.

Lemma pres_notify_gen (P : db -> Prop) owner name0 ty c msg ev vid id :
  (forall t vid' d, P d -> P (mark_notified t vid' d)) ->
  preserves P (notify_violation owner name0 ty c msg ev vid id).
Proof.
  intros Hm. unfold notify_violation. apply pres_bind; [apply pres_email|intros _].
  apply pres_bind; [apply pres_now|intros ts]. apply pres_bind; [apply pres_hook|intros _].
  apply pres_db_op. intros t d Hd. apply Hm, Hd.
Qed.

(** A loop that ends normally ends in [P] when one of its bodies
    establishes [P] and every body keeps it. *)
Lemma for_each_establish {A} (P : db -> Prop) (f : A -> M unit) (l : list A) x t w w' :
  for_each f l t w = (inr tt, w') -> In x l ->
  (forall y, In y l -> preserves P (f y)) ->
  (forall w0 w0', f x t w0 = (inr tt, w0') -> P (wdb w0')) -> P (wdb w').
Proof.
  revert w. induction l as [|y l IH]; intros w H Hx Hp He; [destruct Hx|].
  rewrite for_each_cons in H. apply bindM_inr in H as ([] & w1 & H1 & H2).
  destruct Hx as [<-|Hx].
  - apply (pres_for_each_in P f l (fun z Hz => Hp z (or_intror Hz)) t w1 _ w' H2).
    exact (He _ _ H1).
  - exact (IH w1 H2 Hx (fun z Hz => Hp z (or_intror Hz)) He).
Qed.

(** After a checker pass over a schedule expectation that ends normally,
    the [inv_missed_correct] probe of [invariants.py], run at the same
    clock, passes for it, when the expectation has at most 80 observations
    (the window [_check_schedule] reads) and at least one [start]. *)
Theorem checker_settles_missed_probe (cfg : config) (e : expectation) (now t : Z)
  (w w' : world) :
  exps (wdb w) !! exp_id e = Some e -> is_enabled e = true -> exp_type e = "schedule" ->
  (length (List.filter (fun r => String.eqb (obs_exp r) (exp_id e)) (obs (wdb w))) <= 80)%nat ->
  (exists r, In r (obs (wdb w)) /\ obs_exp r = exp_id e /\ kind r = Start) ->
  check_schedule cfg e now t w = (inr tt, w') ->
  In {| inv_name := "inv_missed_correct:" ++ exp_id e; passed := true |}
     (check_missed_correct t (wdb w')).
Proof.
  intros Hl Hen Hty Hcnt (r0 & Hr0 & Hre0 & Hrk0) Hrun.
  unfold check_schedule in Hrun. cbv zeta in Hrun.
  apply bindM_inr in Hrun as (obs0 & w1 & H1 & Hrun).
  unfold db_read in H1. injection H1 as <- <-.
  apply bindM_inr in Hrun as (t0 & w2 & H2 & Hrun). unfold now_i in H2. injection H2 as <- <-.
  apply bindM_inr in Hrun as ([vs cs] & w3 & H3 & Hrun). unfold lift in H3.
  injection H3 as Hev <-. cbv beta iota in Hrun.
  apply bindM_inr in Hrun as (n & w4 & H4 & Hloop).
  assert (Hw4 : wdb w4 = snd (close_violations (exp_id e) cs (wdb w))).
  { destruct cs as [|c cs'].
    - unfold retM in H4. injection H4 as _ <-. reflexivity.
    - unfold db_op in H4. destruct (close_violations (exp_id e) (c :: cs') (wdb w)) as [k d1].
      injection H4 as _ <-. reflexivity. }
  match type of Hloop with for_each ?f _ _ _ = _ => set (body := f) in Hloop end.
  assert (Hbody : forall (P : db -> Prop) (y : violation_tuple), In y vs ->
    (forall t1 n1 d d', create_violation t1 (exp_id e) (vt_code y) (snd (fst y)) (snd y) d
                        = inr (n1, d') -> P d -> P d') ->
    (forall t1 vid d, P d -> P (mark_notified t1 vid d)) -> preserves P (body y)).
  { intros P [[c msg] ev] _ Hc Hm. unfold body. cbv beta iota.
    apply pres_bind; [apply pres_read|intros [v|]].
    - destruct (last_notified_at v) as [lna|]; [|apply pres_ret].
      destruct (negb (renotify_after_s cfg =? 0) && negb (lna =? 0)); [|apply pres_ret].
      destruct (now - lna >=? renotify_after_s cfg); [apply pres_notify_gen, Hm|apply pres_ret].
    - apply pres_bind; [|intros vid; apply pres_notify_gen, Hm].
      apply pres_db_op_exc. intros t1 d a d' H HP. exact (Hc t1 a d d' H HP). }
  (* the observation rows and the expectations are not written *)
  assert (Hframe : exps (wdb w') = exps (wdb w) /\ obs (wdb w') = obs (wdb w)).
  { refine (pres_for_each_in (fun d => exps d = exps (wdb w) /\ obs d = obs (wdb w))
              body vs _ t w4 _ w' Hloop _).
    - intros y Hy. apply Hbody; [exact Hy| |].
      + intros t1 n1 d d' Hc HP. unfold create_violation in Hc.
        destruct (fk_ok d (exp_id e)); [|discriminate]. injection Hc as _ <-. exact HP.
      + intros t1 vid d HP. exact HP.
    - rewrite Hw4. apply close_frame. }
  destruct Hframe as [Hexps Hobs].
  (* the rows [_check_schedule] reads are all the expectation's rows *)
  set (filt := List.filter (fun r => String.eqb (obs_exp r) (exp_id e)) (obs (wdb w))) in *.
  assert (Hobs0 : recent_observations (exp_id e) 80 (wdb w) = sort_desc (rev filt)).
  { unfold recent_observations, filt. apply firstn_all2.
    rewrite (Permutation_length (recent_observations_perm (exp_id e) (wdb w))). exact Hcnt. }
  rewrite Hobs0 in Hev.
  pose proof (recent_observations_perm (exp_id e) (wdb w)) as Hperm. fold filt in Hperm.
  assert (Hss : StronglySorted (fun a b => observed_at b <= observed_at a) (sort_desc (rev filt))).
  { apply Sorted_StronglySorted; [intros a b c; lia|apply sort_desc_sorted]. }
  assert (Hin_f : forall r, In r filt <-> In r (obs (wdb w)) /\ obs_exp r = exp_id e).
  { intros r. unfold filt. rewrite filter_In, String.eqb_eq. reflexivity. }
  assert (Hr0s : In r0 (sort_desc (rev filt))).
  { apply (Permutation_in _ (Permutation_sym Hperm)). apply Hin_f. auto. }
  destruct (List.find is_start (sort_desc (rev filt))) as [fs|] eqn:Hfs.
  2:{ exfalso. pose proof (find_none _ _ Hfs r0 Hr0s) as Hn. unfold is_start in Hn.
      rewrite Hrk0 in Hn. discriminate Hn. }
  (* [last_observation_time(exp_id, "start")] is the time of that first start *)
  assert (Hlast : last_observation_time (exp_id e) (Some Start) (wdb w') = Some (observed_at fs)).
  { unfold last_observation_time. rewrite Hobs.
    set (rowsS := List.filter (fun r => String.eqb (obs_exp r) (exp_id e)
                                        && obs_kind_eqb (kind r) Start) (obs (wdb w))).
    assert (HinS : forall r, In r rowsS <-> In r filt /\ is_start r = true).
    { intros r. unfold rowsS, is_start. rewrite Hin_f, filter_In, andb_true_iff, String.eqb_eq.
      tauto. }
    pose proof (proj1 (find_some _ _ Hfs)) as Hfs_in.
    pose proof (proj2 (find_some _ _ Hfs)) as Hfs_st.
    assert (HfsS : In fs rowsS).
    { apply HinS. split; [|exact Hfs_st]. exact (Permutation_in _ Hperm Hfs_in). }
    destruct (fold_left _ rowsS None) as [m|] eqn:Hm.
    2:{ apply last_time_fold_none in Hm as [Hm _]. rewrite Hm in HfsS. destruct HfsS. }
    destruct (last_time_fold_spec _ _ _ Hm) as (Hle & [Hw|(rm & Hrm & Hrmv)] & _);
      [discriminate Hw|].
    f_equal. apply Z.le_antisymm; [|exact (Hle fs HfsS)].
    rewrite <- Hrmv. apply HinS in Hrm as [Hrm Hrst].
    exact (first_start_newest _ fs rm Hss Hfs
             (Permutation_in _ (Permutation_sym Hperm) Hrm) Hrst). }
  (* the probe's entry for [e] *)
  unfold check_missed_correct. apply in_map_iff. exists e. split.
  2:{ apply filter_In. split; [|rewrite Hty; reflexivity].
      apply in_list_enabled. exists (exp_id e). rewrite Hexps. auto. }
  rewrite Hlast. f_equal.
  pose proof (missed_split e _ t vs cs fs Hev Hfs) as Hms.
  destruct (t - observed_at fs >? expected_interval_s e + tolerance_s e) eqn:Hage.
  - destruct Hms as [Hmv _]. apply in_map_iff in Hmv as (x & Hxc & Hx).
    assert (Hne : open_rows (exp_id e) "missed" (wdb w') <> []).
    { refine (for_each_establish (fun d => open_rows (exp_id e) "missed" d <> [])
                body vs x t w4 w' Hloop Hx _ _).
      - intros y Hy. apply Hbody; [exact Hy| |].
        + intros t1 n1 d d' Hc HP. exact (proj2 (proj2 (create_open_rows _ _ _ _ _ _ _ _ _ _ Hc)) HP).
        + intros t1 vid d HP Hx'. apply HP, (proj1 (mark_open_rows t1 vid d _ _)), Hx'.
      - intros w0 w0' Hb. destruct x as [[c msg] ev]. cbn in Hxc. subst c.
        unfold body in Hb. cbv beta iota in Hb.
        apply bindM_inr in Hb as (ov & w5 & H5 & Hb). unfold db_read in H5.
        injection H5 as Hov <-.
        destruct ov as [v|].
        + assert (HP : open_rows (exp_id e) "missed" (wdb w0) <> [])
            by exact (open_violation_some_rows _ _ _ _ Hov).
          revert Hb. destruct (last_notified_at v) as [lna|];
            [|intros Hb; injection Hb as <-; exact HP].
          destruct (negb (renotify_after_s cfg =? 0) && negb (lna =? 0));
            [|intros Hb; injection Hb as <-; exact HP].
          destruct (now - lna >=? renotify_after_s cfg);
            [|intros Hb; injection Hb as <-; exact HP].
          intros Hb. refine (pres_notify_gen (fun d => open_rows (exp_id e) "missed" d <> [])
                               _ _ _ _ _ _ _ _ _ t w0 _ w0' Hb HP).
          intros t1 vid d HP' Hx'. apply HP', (proj1 (mark_open_rows t1 vid d _ _)), Hx'.
        + apply bindM_inr in Hb as (vid & w6 & H6 & Hb). unfold db_op_exc in H6.
          destruct (create_violation t (exp_id e) "missed" msg ev (wdb w0)) as [ex|[n1 d1]] eqn:Hc;
            [discriminate H6|]. injection H6 as <- <-.
          refine (pres_notify_gen (fun d => open_rows (exp_id e) "missed" d <> [])
                    _ _ _ _ _ _ _ _ _ t _ _ w0' Hb _).
          * intros t1 vid' d HP' Hx'. apply HP', (proj1 (mark_open_rows t1 vid' d _ _)), Hx'.
          * exact (proj1 (proj2 (create_open_rows _ _ _ _ _ _ _ _ _ _ Hc)) eq_refl eq_refl). }
    destruct (open_violation (exp_id e) "missed" (wdb w')) eqn:Ho; [reflexivity|].
    exfalso. exact (Hne (open_violation_none _ _ _ Ho)).
  - destruct Hms as [Hmc Hmv].
    assert (Hnil : open_rows (exp_id e) "missed" (wdb w') = []).
    { refine (pres_for_each_in (fun d => open_rows (exp_id e) "missed" d = [])
                body vs _ t w4 _ w' Hloop _).
      - intros y Hy. apply Hbody; [exact Hy| |].
        + intros t1 n1 d d' Hc HP.
          rewrite (proj1 (create_open_rows _ _ _ _ _ _ _ _ _ _ Hc)); [exact HP|].
          intros Heq. apply Hmv. rewrite <- Heq. apply in_map, Hy.
        + intros t1 vid d HP. apply mark_open_rows, HP.
      - cbv beta. rewrite Hw4. apply close_open_rows, Hmc. }
    rewrite (open_rows_nil_none _ _ _ Hnil). reflexivity.
Qed.

Lemma checker_settles_missed_probe_witness :
  let w := world_of {| exps := <["E" := sched]> ∅;
                       obs := [ob Start 0; ob End 10; ob Start 50]; next_seq := 51;
                       trials := ∅; viols := []; next_vid := 1 |} in
  In {| inv_name := "inv_missed_correct:" ++ "E"; passed := true |}
     (check_missed_correct 200 (wdb (snd (check_schedule cfg0 sched 200 200 w)))).
Proof.
  intros w.
  pose proof (checker_settles_missed_probe cfg0 sched 200 200 w
                (snd (check_schedule cfg0 sched 200 200 w))) as H.
  change (exp_id sched) with "E" in H.
  apply H; clear H.
  - vm_compute. reflexivity.
  - reflexivity.
  - reflexivity.
  - simpl. lia.
  - exists (ob Start 50). split; [simpl; auto|split; reflexivity].
  - assert (E : fst (check_schedule cfg0 sched 200 200 w) = inr tt)
      by (vm_compute; reflexivity).
    revert E. destruct (check_schedule cfg0 sched 200 200 w). simpl.
    intros ->. reflexivity.
Defined.

End Extras7.

Module Extras8.
Import Rules Store Server Probe Facts Examples ViolModel Extras Extras2 Extras3 Extras5 Extras6
  Extras7.
Open Scope Z_scope.

(** ** The [inv_longrun_correct] probe after a checker pass *)

Lemma obs_kind_eqb_eq a b : obs_kind_eqb a b = true <-> a = b.
Proof. destruct a, b; simpl; split; congruence. Qed.

(** [last_observation_time(exp_id, kind)] is the newest time among the
    expectation's rows of that kind, and [None] when it has none. *)
Lemma last_time_kind_spec id k d :
  match last_observation_time id (Some k) d with
  | None => forall r, In r (obs d) -> obs_exp r = id -> kind r <> k
  | Some m =>
      (forall r, In r (obs d) -> obs_exp r = id -> kind r = k -> observed_at r <= m)
      /\ exists r, In r (obs d) /\ obs_exp r = id /\ kind r = k /\ observed_at r = m
  end.
Proof.
  unfold last_observation_time.
  set (rows := List.filter (fun r => String.eqb (obs_exp r) id && obs_kind_eqb (kind r) k)
                 (obs d)).
  assert (Hin : forall r, In r rows <-> In r (obs d) /\ obs_exp r = id /\ kind r = k).
  { intros r. unfold rows. rewrite filter_In, andb_true_iff, String.eqb_eq, obs_kind_eqb_eq.
    reflexivity. }
  destruct (fold_left _ rows None) as [m|] eqn:Hm.
  - destruct (last_time_fold_spec _ _ _ Hm) as (Hle & [Hw|(r & Hr & Hrv)] & _);
      [discriminate Hw|]. split.
    + intros r' Hr' He Hk. apply Hle, Hin. auto.
    + exists r. apply Hin in Hr as (? & ? & ?). auto.
  - apply last_time_fold_none in Hm as [Hm _]. intros r Hr He Hk.
    assert (Hx : In r rows) by (apply Hin; auto). rewrite Hm in Hx. destruct Hx.
Qed.

(** What a normally ending [_check_schedule] pass leaves for one code: the
    rows it read are the expectation's newest 80, the expectations and the
    observations are not written, a code it reported has an open row
    afterwards, and a code it only closed has none. *)
Lemma check_schedule_code_state cfg e now t w w' c :
  check_schedule cfg e now t w = (inr tt, w') ->
  exists vs cs,
    schedule_evaluate e (recent_observations (exp_id e) 80 (wdb w)) t = inr (vs, cs)
    /\ exps (wdb w') = exps (wdb w) /\ obs (wdb w') = obs (wdb w)
    /\ (In c (map vt_code vs) -> open_rows (exp_id e) c (wdb w') <> [])
    /\ (In c cs -> ~ In c (map vt_code vs) -> open_rows (exp_id e) c (wdb w') = []).
Proof.
  intros Hrun.
  unfold check_schedule in Hrun. cbv zeta in Hrun.
  apply bindM_inr in Hrun as (obs0 & w1 & H1 & Hrun).
  unfold db_read in H1. injection H1 as <- <-.
  apply bindM_inr in Hrun as (t0 & w2 & H2 & Hrun). unfold now_i in H2. injection H2 as <- <-.
  apply bindM_inr in Hrun as ([vs cs] & w3 & H3 & Hrun). unfold lift in H3.
  injection H3 as Hev <-. cbv beta iota in Hrun.
  apply bindM_inr in Hrun as (n & w4 & H4 & Hloop).
  exists vs, cs. split; [exact Hev|].
  assert (Hw4 : wdb w4 = snd (close_violations (exp_id e) cs (wdb w))).
  { destruct cs as [|c0 cs'].
    - unfold retM in H4. injection H4 as _ <-. reflexivity.
    - unfold db_op in H4. destruct (close_violations (exp_id e) (c0 :: cs') (wdb w)) as [k d1].
      injection H4 as _ <-. reflexivity. }
  match type of Hloop with for_each ?f _ _ _ = _ => set (body := f) in Hloop end.
  assert (Hbody : forall (P : db -> Prop) (y : violation_tuple), In y vs ->
    (forall t1 n1 d d', create_violation t1 (exp_id e) (vt_code y) (snd (fst y)) (snd y) d
                        = inr (n1, d') -> P d -> P d') ->
    (forall t1 vid d, P d -> P (mark_notified t1 vid d)) -> preserves P (body y)).
  { intros P [[c0 msg] ev] _ Hc Hm. unfold body. cbv beta iota.
    apply pres_bind; [apply pres_read|intros [v|]].
    - destruct (last_notified_at v) as [lna|]; [|apply pres_ret].
      destruct (negb (renotify_after_s cfg =? 0) && negb (lna =? 0)); [|apply pres_ret].
      destruct (now - lna >=? renotify_after_s cfg); [apply pres_notify_gen, Hm|apply pres_ret].
    - apply pres_bind; [|intros vid; apply pres_notify_gen, Hm].
      apply pres_db_op_exc. intros t1 d a d' H HP. exact (Hc t1 a d d' H HP). }
  split; [|split; [|split]].
  - refine (pres_for_each_in (fun d => exps d = exps (wdb w)) body vs _ t w4 _ w' Hloop _).
    + intros y Hy. apply Hbody; [exact Hy| |].
      * intros t1 n1 d d' Hc HP. unfold create_violation in Hc.
        destruct (fk_ok d (exp_id e)); [|discriminate]. injection Hc as _ <-. exact HP.
      * intros t1 vid d HP. exact HP.
    + cbv beta. rewrite Hw4. apply close_frame.
  - refine (pres_for_each_in (fun d => obs d = obs (wdb w)) body vs _ t w4 _ w' Hloop _).
    + intros y Hy. apply Hbody; [exact Hy| |].
      * intros t1 n1 d d' Hc HP. unfold create_violation in Hc.
        destruct (fk_ok d (exp_id e)); [|discriminate]. injection Hc as _ <-. exact HP.
      * intros t1 vid d HP. exact HP.
    + cbv beta. rewrite Hw4. apply close_frame.
  - intros Hmv. apply in_map_iff in Hmv as (x & Hxc & Hx).
    refine (for_each_establish (fun d => open_rows (exp_id e) c d <> [])
              body vs x t w4 w' Hloop Hx _ _).
    + intros y Hy. apply Hbody; [exact Hy| |].
      * intros t1 n1 d d' Hc HP. exact (proj2 (proj2 (create_open_rows _ _ _ _ _ _ _ _ _ _ Hc)) HP).
      * intros t1 vid d HP Hx'. apply HP, (proj1 (mark_open_rows t1 vid d _ _)), Hx'.
    + intros w0 w0' Hb. destruct x as [[c0 msg] ev]. cbn in Hxc. subst c0.
      unfold body in Hb. cbv beta iota in Hb.
      apply bindM_inr in Hb as (ov & w5 & H5 & Hb). unfold db_read in H5.
      injection H5 as Hov <-.
      destruct ov as [v|].
      * assert (HP : open_rows (exp_id e) c (wdb w0) <> [])
          by exact (open_violation_some_rows _ _ _ _ Hov).
        revert Hb. destruct (last_notified_at v) as [lna|];
          [|intros Hb; injection Hb as <-; exact HP].
        destruct (negb (renotify_after_s cfg =? 0) && negb (lna =? 0));
          [|intros Hb; injection Hb as <-; exact HP].
        destruct (now - lna >=? renotify_after_s cfg);
          [|intros Hb; injection Hb as <-; exact HP].
        intros Hb. refine (pres_notify_gen (fun d => open_rows (exp_id e) c d <> [])
                             _ _ _ _ _ _ _ _ _ t w0 _ w0' Hb HP).
        intros t1 vid d HP' Hx'. apply HP', (proj1 (mark_open_rows t1 vid d _ _)), Hx'.
      * apply bindM_inr in Hb as (vid & w6 & H6 & Hb). unfold db_op_exc in H6.
        destruct (create_violation t (exp_id e) c msg ev (wdb w0)) as [ex|[n1 d1]] eqn:Hc;
          [discriminate H6|]. injection H6 as <- <-.
        refine (pres_notify_gen (fun d => open_rows (exp_id e) c d <> [])
                  _ _ _ _ _ _ _ _ _ t _ _ w0' Hb _).
        -- intros t1 vid' d HP' Hx'. apply HP', (proj1 (mark_open_rows t1 vid' d _ _)), Hx'.
        -- exact (proj1 (proj2 (create_open_rows _ _ _ _ _ _ _ _ _ _ Hc)) eq_refl eq_refl).
  - intros Hmc Hmv.
    refine (pres_for_each_in (fun d => open_rows (exp_id e) c d = [])
              body vs _ t w4 _ w' Hloop _).
    + intros y Hy. apply Hbody; [exact Hy| |].
      * intros t1 n1 d d' Hc HP.
        rewrite (proj1 (create_open_rows _ _ _ _ _ _ _ _ _ _ Hc)); [exact HP|].
        intros Heq. apply Hmv. rewrite <- Heq. apply in_map, Hy.
      * intros t1 vid d HP. apply mark_open_rows, HP.
    + cbv beta. rewrite Hw4. apply close_open_rows, Hmc.
Qed.

(** The loop of [check_longrun_correct] has one entry for every enabled
    schedule expectation whose [max_runtime_s] is not 0. *)
Lemma longrun_results_in now d l rs e p :
  longrun_results now d l = inr rs -> In e l -> exp_type e = "schedule" ->
  parse_schedule (params_json e) = inr p -> max_runtime_s p <> 0 ->
  exists r, In r rs /\ inv_name r = "inv_longrun_correct:" ++ exp_id e /\
    passed r = Bool.eqb
      (match last_observation_time (exp_id e) (Some Start) d with
       | Some s =>
           match last_observation_time (exp_id e) (Some End) d with
           | Some en => (en <? s) | None => true end && (now - s >? max_runtime_s p)
       | None => false
       end)
      (match open_violation (exp_id e) "longrun" d with Some _ => true | None => false end).
Proof.
  revert rs. induction l as [|x l IH]; intros rs H Hin Hty Hp Hm; [destruct Hin|].
  simpl in H. destruct Hin as [->|Hin].
  - rewrite Hty in H. simpl in H. rewrite Hp in H. cbn [bind_exc] in H.
    apply Z.eqb_neq in Hm. rewrite Hm in H.
    destruct (longrun_results now d l) as [ex|rest]; [discriminate H|].
    injection H as <-. eexists. split; [left; reflexivity|split; [reflexivity|]].
    cbn [passed]. f_equal.
    destruct (last_observation_time (exp_id e) (Some Start) d) as [s|]; [|reflexivity].
    destruct (last_observation_time (exp_id e) (Some End) d); reflexivity.
  - destruct (negb (String.eqb (exp_type x) "schedule")); [exact (IH rs H Hin Hty Hp Hm)|].
    destruct (parse_schedule (params_json x)) as [ex|px]; [discriminate H|]. cbn [bind_exc] in H.
    destruct (max_runtime_s px =? 0); [exact (IH rs H Hin Hty Hp Hm)|].
    destruct (longrun_results now d l) as [ex|rest] eqn:Hl; [discriminate H|].
    injection H as <-. destruct (IH rest eq_refl Hin Hty Hp Hm) as (r & Hr & Hr').
    exists r. split; [right; exact Hr|exact Hr'].
Qed.

(** After a checker pass over a schedule expectation that ends normally,
    the [inv_longrun_correct] probe of [invariants.py], run at the same
    clock, passes for it (whenever the probe itself ends normally), when
    the expectation's [max_runtime_s] is not 0 (the probe skips it
    otherwise), it has at most 80 observations (the window
    [_check_schedule] reads) and at least one [start]. *)
Theorem checker_settles_longrun_probe (cfg : config) (e : expectation) (p : ScheduleParams)
  (now t : Z) (w w' : world) (rs : list inv_result) :
  exps (wdb w) !! exp_id e = Some e -> is_enabled e = true -> exp_type e = "schedule" ->
  parse_schedule (params_json e) = inr p -> max_runtime_s p <> 0 ->
  (length (List.filter (fun r => String.eqb (obs_exp r) (exp_id e)) (obs (wdb w))) <= 80)%nat ->
  (exists r, In r (obs (wdb w)) /\ obs_exp r = exp_id e /\ kind r = Start) ->
  check_schedule cfg e now t w = (inr tt, w') ->
  check_longrun_correct t (wdb w') = inr rs ->
  In {| inv_name := "inv_longrun_correct:" ++ exp_id e; passed := true |} rs.
Proof.
  intros Hl Hen Hty Hp Hm Hcnt (r0 & Hr0 & Hre0 & Hrk0) Hrun Hrs.
  destruct (check_schedule_code_state cfg e now t w w' "longrun" Hrun)
    as (vs & cs & Hev & Hexps & Hobs & Hopen & Hclosed).
  set (filt := List.filter (fun r => String.eqb (obs_exp r) (exp_id e)) (obs (wdb w))) in *.
  assert (Hobs0 : recent_observations (exp_id e) 80 (wdb w) = sort_desc (rev filt)).
  { unfold recent_observations, filt. apply firstn_all2.
    rewrite (Permutation_length (recent_observations_perm (exp_id e) (wdb w))). exact Hcnt. }
  rewrite Hobs0 in Hev.
  pose proof (recent_observations_perm (exp_id e) (wdb w)) as Hperm. fold filt in Hperm.
  set (o := sort_desc (rev filt)) in *.
  assert (Hsorted : Sorted (fun a b => observed_at b <= observed_at a) o)
    by apply sort_desc_sorted.
  assert (Hss : StronglySorted (fun a b => observed_at b <= observed_at a) o).
  { apply Sorted_StronglySorted; [intros a b c; lia|exact Hsorted]. }
  assert (Hmem : forall r, In r o <-> In r (obs (wdb w')) /\ obs_exp r = exp_id e).
  { intros r. rewrite Hobs. split.
    - intros Hr. apply (Permutation_in _ Hperm) in Hr. unfold filt in Hr.
      rewrite filter_In, String.eqb_eq in Hr. exact Hr.
    - intros Hr. apply (Permutation_in _ (Permutation_sym Hperm)). unfold filt.
      rewrite filter_In, String.eqb_eq. exact Hr. }
  assert (Hr0s : In r0 o) by (apply Hmem; rewrite Hobs; auto).
  destruct (List.find is_start o) as [fs|] eqn:Hfs.
  2:{ exfalso. pose proof (find_none _ _ Hfs r0 Hr0s) as Hn. unfold is_start in Hn.
      rewrite Hrk0 in Hn. discriminate Hn. }
  pose proof (proj1 (find_some _ _ Hfs)) as Hfs_in.
  assert (Hkfs : kind fs = Start) by apply obs_kind_eqb_eq, (proj2 (find_some _ _ Hfs)).
  assert (Hnew : forall r, In r o -> kind r = Start -> observed_at r <= observed_at fs).
  { intros r Hr Hk. apply (first_start_newest o fs r Hss Hfs Hr).
    unfold is_start. rewrite Hk. reflexivity. }
  destruct (longrun_iff_overrun_aux e p o t fs vs cs Hp Hsorted Hfs_in Hkfs Hnew Hev)
    as [Hlr Hcs].
  (* [last_observation_time(exp_id, "start")] is the time of the newest start *)
  assert (Hstart : last_observation_time (exp_id e) (Some Start) (wdb w')
                   = Some (observed_at fs)).
  { pose proof (last_time_kind_spec (exp_id e) Start (wdb w')) as Hsp.
    destruct (last_observation_time (exp_id e) (Some Start) (wdb w')) as [ms|].
    - destruct Hsp as [Hle (rm & Hrm & Hrme & Hrmk & <-)]. f_equal.
      apply Z.le_antisymm.
      + apply Hnew; [apply Hmem; auto|exact Hrmk].
      + apply Hmem in Hfs_in as [Hf1 Hf2]. exact (Hle fs Hf1 Hf2 Hkfs).
    - exfalso. apply Hmem in Hfs_in as [Hf1 Hf2]. exact (Hsp fs Hf1 Hf2 Hkfs). }
  (* [is_running] holds exactly when no end is at or after that start *)
  assert (Hrunning : match last_observation_time (exp_id e) (Some End) (wdb w') with
                     | Some en => (en <? observed_at fs) | None => true end = true
                     <-> (forall r, In r o -> kind r = End -> observed_at r < observed_at fs)).
  { pose proof (last_time_kind_spec (exp_id e) End (wdb w')) as Hsp.
    destruct (last_observation_time (exp_id e) (Some End) (wdb w')) as [me|].
    - destruct Hsp as [Hle (rm & Hrm & Hrme & Hrmk & <-)]. rewrite Z.ltb_lt. split.
      + intros Hlt r Hr Hk. apply Hmem in Hr as [Hr1 Hr2].
        pose proof (Hle r Hr1 Hr2 Hk). lia.
      + intros Hall. apply Hall; [apply Hmem; auto|exact Hrmk].
    - split; [|reflexivity]. intros _ r Hr Hk. apply Hmem in Hr as [Hr1 Hr2].
      exfalso. exact (Hsp r Hr1 Hr2 Hk). }
  (* the probe's entry for [e] *)
  unfold check_longrun_correct in Hrs.
  assert (Hin_en : In e (list_enabled_expectations (wdb w'))).
  { apply in_list_enabled. exists (exp_id e). rewrite Hexps. auto. }
  destruct (longrun_results_in t (wdb w') _ rs e p Hrs Hin_en Hty Hp Hm)
    as ([nm ps] & Hr & Hn & Hpass).
  cbn [inv_name passed] in Hn, Hpass. subst nm.
  enough (Hb : ps = true) by (rewrite Hb in Hr; exact Hr). rewrite Hpass, Hstart. clear Hpass Hr.
  destruct (in_dec string_dec "longrun" (map vt_code vs)) as [Hv|Hv].
  - destruct (proj1 Hlr Hv) as (Hall & _ & Hgt).
    destruct (open_violation (exp_id e) "longrun" (wdb w')) eqn:Ho.
    2:{ exfalso. exact (Hopen Hv (open_violation_none _ _ _ Ho)). }
    rewrite (proj2 Hrunning Hall). replace (t - observed_at fs >? max_runtime_s p) with true; [reflexivity|symmetry; apply Z.gtb_lt; lia].
  - rewrite (open_rows_nil_none _ _ _ (Hclosed (proj2 Hcs Hv) Hv)).
    destruct (match last_observation_time (exp_id e) (Some End) (wdb w') with
              | Some en => (en <? observed_at fs) | None => true end) eqn:Er;
      [|reflexivity].
    destruct (t - observed_at fs >? max_runtime_s p) eqn:Eg; [|reflexivity].
    exfalso. apply Hv, Hlr. split; [exact (proj1 Hrunning eq_refl)|split; [exact Hm|]].
    apply Z.gtb_lt in Eg. lia.
Qed.

Lemma checker_settles_longrun_probe_witness :
  let e := {| exp_id := "E"; exp_type := "schedule"; name := "job";
              expected_interval_s := 60; tolerance_s := 10;
              params_json := JObj [("max_runtime_s", JInt 100)];
              owner_email := "o@example.com"; is_enabled := true;
              created_at := 0; updated_at := 0 |} in
  let w := world_of {| exps := <["E" := e]> ∅;
                       obs := [ob Start 0; ob End 10; ob Start 50]; next_seq := 51;
                       trials := ∅; viols := []; next_vid := 1 |} in
  exists rs,
    check_longrun_correct 200 (wdb (snd (check_schedule cfg0 e 200 200 w))) = inr rs /\
    In {| inv_name := "inv_longrun_correct:" ++ "E"; passed := true |} rs.
Proof.
  intros e w.
  destruct (check_longrun_correct 200 (wdb (snd (check_schedule cfg0 e 200 200 w))))
    as [ex|rs] eqn:Hc; [vm_compute in Hc; discriminate Hc|].
  exists rs. split; [reflexivity|].
  pose proof (checker_settles_longrun_probe cfg0 e
                {| max_runtime_s := 100; min_spacing_s := 0; allow_overlap := false |}
                200 200 w (snd (check_schedule cfg0 e 200 200 w)) rs) as H.
  change (exp_id e) with "E" in H.
  apply H; clear H.
  - vm_compute. reflexivity.
  - reflexivity.
  - reflexivity.
  - vm_compute. reflexivity.
  - discriminate.
  - simpl. lia.
  - exists (ob Start 50). split; [simpl; auto|split; reflexivity].
  - assert (E : fst (check_schedule cfg0 e 200 200 w) = inr tt)
      by (vm_compute; reflexivity).
    revert E. destruct (check_schedule cfg0 e 200 200 w). simpl.
    intros ->. reflexivity.
  - exact Hc.
Defined.

End Extras8.

Module Extras9.
Import Rules Store Server Facts Examples ViolModel Quiet Extras2 Extras7 Extras8.
Open Scope Z_scope.

(** ** A violation whose first notification failed *)

Lemma bindM_cases {A B} (m : M A) (k : A -> M B) t w r w' :
  bindM m k t w = (r, w') ->
  (exists ex, m t w = (inl ex, w') /\ r = inl ex)
  \/ exists a w1, m t w = (inr a, w1) /\ k a t w1 = (r, w').
Proof.
  unfold bindM. destruct (m t w) as [[ex|a] w1]; intros H.
  - injection H as <- <-. left. eauto.
  - right. eauto.
Qed.

Lemma wpres_ret {A} P (a : A) : wpreserves P (retM a).
Proof. intros t w r w' H HP. injection H as _ <-. exact HP. Qed.

Lemma wpres_bind {A B} P (m : M A) (k : A -> M B) :
  wpreserves P m -> (forall a, wpreserves P (k a)) -> wpreserves P (bindM m k).
Proof.
  intros Hm Hk t w r w' H HP. apply bindM_cases in H as [(ex & H & _)|(a & w1 & H1 & H)].
  - exact (Hm _ _ _ _ H HP).
  - exact (Hk a _ _ _ _ H (Hm _ _ _ _ H1 HP)).
Qed.

Lemma wpres_for_each_in {A} P (f : A -> M unit) l :
  (forall x, In x l -> wpreserves P (f x)) -> wpreserves P (for_each f l).
Proof.
  intros Hf. induction l as [|x l IH]; [apply wpres_ret|].
  apply wpres_bind; [apply Hf; now left|intros _; apply IH; intros y Hy; apply Hf; now right].
Qed.

(** [_notify_violation] sends at most one email, with the subject of its
    code, and at most one webhook payload of that code, and at most marks
    [viol_id] notified. *)
Lemma notify_effects owner name0 ty c msg ev vid id t w r w' :
  notify_violation owner name0 ty c msg ev vid id t w = (r, w') ->
  (exists sent, outbox w' = (outbox w ++ sent)%list /\
     forall m, In m sent -> snd (fst m) = "[rewire] VIOLATION " ++ c ++ ": " ++ name0) /\
  (exists hk, hooks w' = (hooks w ++ hk)%list /\ forall p, In p hk -> violation_code p = c) /\
  (wdb w' = wdb w \/ wdb w' = mark_notified t vid (wdb w)).
Proof.
  unfold notify_violation, bindM, send_email, now_i, webhook_notify, db_op. cbv zeta.
  destruct (smtp_host w) as [h|]; [destruct (smtp_up w)|]; intros H; injection H as _ <-.
  - split; [|split]; [eexists; split; [reflexivity|]|eexists; split; [reflexivity|]|].
    + intros m [<-|[]]. reflexivity.
    + intros p [<-|[]]. reflexivity.
    + right. reflexivity.
  - split; [|split]; [exists []; split; [symmetry; apply app_nil_r|intros m []]
                     |exists []; split; [symmetry; apply app_nil_r|intros p []]|].
    left. reflexivity.
  - split; [|split]; [eexists; split; [reflexivity|]|eexists; split; [reflexivity|]|].
    + intros m [<-|[]]. reflexivity.
    + intros p [<-|[]]. reflexivity.
    + right. reflexivity.
Qed.

Lemma open_violation_in exp c d v :
  open_violation exp c d = Some v -> In v (open_rows exp c d).
Proof.
  unfold open_violation, open_rows.
  set (cond := fun v => String.eqb (v_exp v) exp && String.eqb (code v) c && is_open v).
  assert (G : forall l acc,
    fold_left (fun acc v =>
      if cond v then
        match acc with
        | Some b => if (detected_at b <? detected_at v)%Z then Some v else acc
        | None => Some v
        end
      else acc) l acc = Some v -> acc = Some v \/ In v (List.filter cond l)).
  { induction l as [|x l IH]; intros acc H; simpl in H; [left; exact H|].
    simpl. destruct (cond x) eqn:Ex; [|exact (IH _ H)].
    destruct acc as [b|]; [destruct (detected_at b <? detected_at x)|];
      (destruct (IH _ H) as [Hx|Hx]; [|right; right; exact Hx]);
      try (injection Hx as ->; right; left; reflexivity).
    left. exact Hx. }
  intros H. destruct (G _ _ H) as [Hx|Hx]; [discriminate Hx|exact Hx].
Qed.

Lemma in_open_rows v exp c d :
  In v (open_rows exp c d) <-> In v (viols d) /\ v_exp v = exp /\ code v = c /\ is_open v = true.
Proof.
  unfold open_rows. rewrite filter_In, !andb_true_iff, !String.eqb_eq. tauto.
Qed.

Lemma ids_inj d u v :
  ids_ok d -> In u (viols d) -> In v (viols d) -> v_id u = v_id v -> u = v.
Proof.
  intros [Hnd _]. revert Hnd. generalize (viols d) as l.
  induction l as [|x l IH]; intros Hnd Hu Hv He; [destruct Hu|].
  simpl in Hnd. inversion Hnd as [|? ? Hx Hnd']; subst.
  destruct Hu as [<-|Hu], Hv as [<-|Hv]; [reflexivity| | |exact (IH Hnd' Hu Hv He)].
  - exfalso. apply Hx, list_elem_of_In. rewrite He. apply in_map, Hv.
  - exfalso. apply Hx, list_elem_of_In. rewrite <- He. apply in_map, Hu.
Qed.

Lemma mark_ids_ok t vid d : ids_ok d -> ids_ok (mark_notified t vid d).
Proof.
  unfold ids_ok, mark_notified, update_violation. cbn [viols next_vid with_viols].
  intros [Hnd Hlt]. rewrite map_map.
  replace (map (fun x => v_id (if v_id x =? vid then _ else x)) (viols d))
    with (map v_id (viols d)).
  2:{ apply map_ext. intros v. destruct (v_id v =? vid); reflexivity. }
  split; [exact Hnd|]. intros v Hv. apply in_map_iff in Hv as (u & <- & Hu).
  destruct (v_id u =? vid); cbn [v_id]; apply Hlt, Hu.
Qed.

Lemma mark_rows_same t vid d exp c :
  (forall v, In v (open_rows exp c d) -> v_id v <> vid) ->
  open_rows exp c (mark_notified t vid d) = open_rows exp c d.
Proof.
  unfold open_rows, mark_notified, update_violation. cbn [viols with_viols].
  induction (viols d) as [|v l IH]; intros H; [reflexivity|].
  cbn [List.filter map] in H |- *. destruct (v_id v =? vid) eqn:E; cbn [v_exp code is_open];
    destruct (String.eqb (v_exp v) exp && String.eqb (code v) c && is_open v) eqn:Ec;
    try rewrite Ec in H.
  - exfalso. apply Z.eqb_eq in E. exact (H v (or_introl eq_refl) E).
  - apply IH, H.
  - f_equal. apply IH. intros u Hu. apply H. right. exact Hu.
  - apply IH, H.
Qed.

Lemma create_ids_ok t exp c msg ev d n d' :
  create_violation t exp c msg ev d = inr (n, d') -> ids_ok d ->
  ids_ok d' /\ n = next_vid d /\ forall v, In v (viols d) -> In v (viols d').
Proof.
  unfold create_violation. destruct (fk_ok d exp); [|discriminate]. intros [= <- <-] [Hnd Hlt].
  unfold ids_ok. cbn [viols next_vid with_viols]. split; [split|split; [reflexivity|]].
  - rewrite map_app. simpl. apply NoDup_app; split; [exact Hnd|split].
    + intros x Hx Hx'. apply list_elem_of_In in Hx, Hx'. destruct Hx' as [<-|[]].
      apply in_map_iff in Hx as (u & Hu & Hin). specialize (Hlt u Hin). lia.
    + apply NoDup_singleton.
  - intros v Hv. apply in_app_or in Hv as [Hv|[<-|[]]]; [specialize (Hlt v Hv)|simpl]; lia.
  - intros v Hv. apply in_or_app. left. exact Hv.
Qed.

Lemma close_ids_ok exp codes d : ids_ok d -> ids_ok (snd (close_violations exp codes d)).
Proof.
  destruct codes as [|c0 cs]; [intros H; exact H|].
  unfold ids_ok, close_violations. cbn [snd viols next_vid with_viols].
  intros [Hnd Hlt]. rewrite map_map.
  replace (map (fun x => v_id (if closes exp (c0 :: cs) x then close_row x else x)) (viols d))
    with (map v_id (viols d)).
  2:{ apply map_ext. intros v. destruct (closes exp (c0 :: cs) v); reflexivity. }
  split; [exact Hnd|]. intros v Hv. apply in_map_iff in Hv as (u & <- & Hu).
  destruct (closes exp (c0 :: cs) u); unfold close_row; cbn [v_id]; apply Hlt, Hu.
Qed.

Lemma close_rows_other exp codes d c :
  ~ In c codes -> open_rows exp c (snd (close_violations exp codes d)) = open_rows exp c d.
Proof.
  intros Hc. destruct codes as [|c0 cs]; [reflexivity|].
  unfold close_violations, open_rows. cbn [snd viols with_viols].
  induction (viols d) as [|v l IH]; simpl; [reflexivity|].
  destruct (closes exp (c0 :: cs) v) eqn:E; [|destruct (_ && _ && _); [f_equal|]; exact IH].
  unfold close_row at 1. simpl. rewrite andb_false_r.
  destruct (String.eqb (v_exp v) exp && String.eqb (code v) c && is_open v) eqn:E2;
    [|exact IH].
  exfalso. apply Hc. apply andb_prop in E2 as [E2 _]. apply andb_prop in E2 as [_ Ec].
  apply String.eqb_eq in Ec. subst c. unfold closes in E.
  apply andb_prop in E as [_ E]. apply existsb_exists in E as (x & Hx & Ex).
  apply String.eqb_eq in Ex. rewrite Ex. exact Hx.
Qed.

Lemma eval_codes_nodup e o t vs cs :
  schedule_evaluate e o t = inr (vs, cs) -> NoDup (map vt_code vs ++ cs)%list.
Proof.
  unfold schedule_evaluate, bind_exc.
  destruct (parse_schedule (params_json e)) as [ex|p]; [discriminate|].
  intros H. repeat case_match; simplify_eq/=; apply (bool_decide_unpack _); vm_compute; exact I.
Qed.

Lemma nodup_app_disj {A} (l1 l2 : list A) x : NoDup (l1 ++ l2)%list -> In x l1 -> In x l2 -> False.
Proof.
  induction l1 as [|a l1 IH]; intros Hnd H1 H2; [destruct H1|].
  simpl in Hnd. inversion Hnd as [|? ? Ha Hnd']; subst.
  destruct H1 as [<-|H1]; [apply Ha, list_elem_of_In, in_or_app; right; exact H2|exact (IH Hnd' H1 H2)].
Qed.

(** While an expectation has an open violation of code [c] none of whose
    open rows was ever notified ([last_notified_at] is [NULL], as after a
    first email that failed), a [_check_schedule] pass, whether it ends
    normally or raises, sends no email and no webhook payload for [c] and
    leaves every open row of [c] unnotified: the pass renotifies only a row
    whose [last_notified_at] is set.  The violation ids stay well formed,
    so the same holds again in every later pass. *)
Theorem unnotified_violation_stays_silent (cfg : config) (e : expectation) (c : string)
  (now t : Z) (w : world) (r : exc + unit) (w' : world) :
  ids_ok (wdb w) ->
  open_rows (exp_id e) c (wdb w) <> [] ->
  (forall v, In v (open_rows (exp_id e) c (wdb w)) -> last_notified_at v = None) ->
  check_schedule cfg e now t w = (r, w') ->
  ids_ok (wdb w') /\
  (forall v, In v (open_rows (exp_id e) c (wdb w')) -> last_notified_at v = None) /\
  (exists sent, outbox w' = (outbox w ++ sent)%list /\
     forall m, In m sent ->
       exists c', c' <> c /\ snd (fst m) = "[rewire] VIOLATION " ++ c' ++ ": " ++ name e) /\
  (exists hk, hooks w' = (hooks w ++ hk)%list /\ forall p, In p hk -> violation_code p <> c).
Proof.
  intros Hids Hne Hnone Hrun.
  set (Wp := fun w0 : world =>
    (exists sent, outbox w0 = (outbox w ++ sent)%list /\
       forall m, In m sent ->
         exists c', c' <> c /\ snd (fst m) = "[rewire] VIOLATION " ++ c' ++ ": " ++ name e) /\
    (exists hk, hooks w0 = (hooks w ++ hk)%list /\ forall p, In p hk -> violation_code p <> c)).
  assert (Hw : Wp w).
  { split; [exists []|exists []]; (split; [symmetry; apply app_nil_r|intros _ []]). }
  unfold check_schedule in Hrun. cbv zeta in Hrun.
  apply bindM_cases in Hrun as [(ex & H1 & _)|(obs0 & w1 & H1 & Hrun)];
    unfold db_read in H1; [discriminate H1|injection H1 as _ <-].
  apply bindM_cases in Hrun as [(ex & H2 & _)|(t0 & w2 & H2 & Hrun)];
    unfold now_i in H2; [discriminate H2|injection H2 as <- <-].
  apply bindM_cases in Hrun as [(ex & H3 & _)|([vs cs] & w3 & H3 & Hrun)]; unfold lift in H3.
  { injection H3 as _ <-. split; [exact Hids|split; [exact Hnone|exact Hw]]. }
  injection H3 as Hev <-. cbv beta iota in Hrun.
  pose proof (eval_codes_nodup _ _ _ _ _ Hev) as Hnd.
  apply bindM_cases in Hrun as [(ex & H4 & _)|(n & w4 & H4 & Hloop)].
  { exfalso. destruct cs as [|c0 cs']; [discriminate H4|]. unfold db_op in H4.
    destruct (close_violations _ _ _); discriminate H4. }
  assert (Hw4 : wdb w4 = snd (close_violations (exp_id e) cs (wdb w)) /\ Wp w4).
  { destruct cs as [|c0 cs'].
    - unfold retM in H4. injection H4 as _ <-. split; [reflexivity|exact Hw].
    - unfold db_op in H4. destruct (close_violations (exp_id e) (c0 :: cs') (wdb w)) as [k d1].
      injection H4 as _ <-. split; [reflexivity|exact Hw]. }
  destruct Hw4 as [Hd4 Hw4].
  match type of Hloop with for_each ?f _ _ _ = _ => set (body := f) in Hloop end.
  set (Q := fun d => ids_ok d /\
              (forall v, In v (open_rows (exp_id e) c d) -> last_notified_at v = None) /\
              (In c (map vt_code vs) -> open_rows (exp_id e) c d <> [])).
  (* after the [close_violations] step *)
  assert (HQ4 : Q (wdb w4)).
  { rewrite Hd4. split; [apply close_ids_ok, Hids|].
    destruct (in_dec string_dec c cs) as [Hc|Hc].
    - rewrite (close_open_rows _ _ _ _ Hc). split; [intros v []|].
      intros Hv. exfalso. exact (nodup_app_disj _ _ _ Hnd Hv Hc).
    - rewrite (close_rows_other _ _ _ _ Hc). split; [exact Hnone|intros _; exact Hne]. }
  (* every round of the loop keeps [Q] and sends nothing for [c] *)
  assert (Hp : wpreserves (fun w0 => Q (wdb w0) /\ Wp w0) (for_each body vs)).
  { apply wpres_for_each_in. intros [[c0 msg] ev] Hy t1 w0 r0 w1 Hb [HQ HW].
    unfold body in Hb. cbv beta iota in Hb.
    apply bindM_cases in Hb as [(ex & H5 & _)|(ov & w5 & H5 & Hb)];
      unfold db_read in H5; [discriminate H5|injection H5 as Hov <-].
    destruct HQ as (Hi0 & Hn0 & Hne0).
    destruct (string_dec c0 c) as [->|Hc0].
    - (* the round for [c] itself finds the unnotified row and does nothing *)
      assert (Hc : In c (map vt_code vs)).
      { apply in_map_iff. exists (c, msg, ev). split; [reflexivity|exact Hy]. }
      destruct ov as [v|]; [|exfalso; exact (Hne0 Hc (open_violation_none _ _ _ Hov))].
      rewrite (Hn0 v (open_violation_in _ _ _ _ Hov)) in Hb. unfold retM in Hb.
      injection Hb as _ <-. split; [exact (conj Hi0 (conj Hn0 Hne0))|exact HW].
    - (* a round for another code may notify, but never a row of [c] *)
      assert (Hnot : forall w6 r6 w7 vid msg' ev',
        Q (wdb w6) -> Wp w6 ->
        (forall u, In u (open_rows (exp_id e) c (wdb w6)) -> v_id u <> vid) ->
        notify_violation (owner_email e) (name e) "schedule" c0 msg' ev' vid (exp_id e) t1 w6
          = (r6, w7) ->
        Q (wdb w7) /\ Wp w7).
      { intros w6 r6 w7 vid msg' ev' (Hi6 & Hn6 & Hne6) ((sent & Ho6 & Hs6) & (hk & Hh6 & Hk6))
          Hid Hn.
        destruct (notify_effects _ _ _ _ _ _ _ _ _ _ _ _ Hn)
          as ((sent1 & Ho & Hs1) & (hk1 & Hh & Hk1) & Hdb).
        split.
        - assert (Hd : wdb w7 = wdb w6 \/
                       open_rows (exp_id e) c (wdb w7) = open_rows (exp_id e) c (wdb w6)
                       /\ ids_ok (wdb w7)).
          { destruct Hdb as [Hdb|Hdb]; [left; exact Hdb|right].
            rewrite Hdb. split; [apply mark_rows_same, Hid|apply mark_ids_ok, Hi6]. }
          destruct Hd as [Hd|[Hd Hi7]]; [rewrite Hd; exact (conj Hi6 (conj Hn6 Hne6))|].
          split; [exact Hi7|]. rewrite Hd. split; [exact Hn6|exact Hne6].
        - split.
          + exists (sent ++ sent1)%list. split; [rewrite Ho, Ho6; symmetry; apply app_assoc|].
            intros m Hm. apply in_app_or in Hm as [Hm|Hm]; [exact (Hs6 m Hm)|].
            exists c0. split; [exact Hc0|exact (Hs1 m Hm)].
          + exists (hk ++ hk1)%list. split; [rewrite Hh, Hh6; symmetry; apply app_assoc|].
            intros p Hpp. apply in_app_or in Hpp as [Hpp|Hpp]; [exact (Hk6 p Hpp)|].
            rewrite (Hk1 p Hpp). exact Hc0. }
      destruct ov as [v|].
      + pose proof (open_violation_in _ _ _ _ Hov) as Hv.
        assert (Hid : forall u, In u (open_rows (exp_id e) c (wdb w0)) -> v_id u <> v_id v).
        { intros u Hu Heq. apply in_open_rows in Hu as (Hu & _ & Hcu & _).
          apply in_open_rows in Hv as (Hv' & _ & Hcv & _).
          pose proof (ids_inj _ _ _ Hi0 Hu Hv' Heq) as ->. congruence. }
        revert Hb. destruct (last_notified_at v) as [lna|];
          [|intros Hb; injection Hb as _ <-; exact (conj (conj Hi0 (conj Hn0 Hne0)) HW)].
        destruct (negb (renotify_after_s cfg =? 0) && negb (lna =? 0));
          [|intros Hb; injection Hb as _ <-; exact (conj (conj Hi0 (conj Hn0 Hne0)) HW)].
        destruct (now - lna >=? renotify_after_s cfg);
          [|intros Hb; injection Hb as _ <-; exact (conj (conj Hi0 (conj Hn0 Hne0)) HW)].
        intros Hb. exact (Hnot w0 r0 w1 (v_id v) _ _ (conj Hi0 (conj Hn0 Hne0)) HW Hid Hb).
      + apply bindM_cases in Hb as [(ex & H6 & _)|(vid & w6 & H6 & Hb)]; unfold db_op_exc in H6.
        * destruct (create_violation t1 (exp_id e) c0 msg ev (wdb w0)) as [ex'|[n1 d1]];
            [injection H6 as _ <-; exact (conj (conj Hi0 (conj Hn0 Hne0)) HW)|discriminate H6].
        * destruct (create_violation t1 (exp_id e) c0 msg ev (wdb w0)) as [ex'|[n1 d1]] eqn:Hcr;
            [discriminate H6|injection H6 as <- <-].
          pose proof (proj1 (create_open_rows _ _ _ _ _ _ _ _ (exp_id e) c Hcr) Hc0) as Hr1.
          destruct (create_ids_ok _ _ _ _ _ _ _ _ Hcr Hi0) as (Hi1 & Hn1 & _).
          apply (Hnot (with_db w0 d1) r0 w1 n1 msg ev); [| exact HW | | exact Hb].
          -- change (wdb (with_db w0 d1)) with d1. split; [exact Hi1|].
             rewrite Hr1. split; [exact Hn0|exact Hne0].
          -- change (wdb (with_db w0 d1)) with d1. rewrite Hr1. intros u Hu.
             apply in_open_rows in Hu as (Hu & _). destruct Hi0 as [_ Hlt].
             specialize (Hlt u Hu). lia. }
  destruct (Hp t w4 r w' Hloop (conj HQ4 Hw4)) as [(Hi & Hn & _) Hwp].
  split; [exact Hi|split; [exact Hn|exact Hwp]].
Qed.

Lemma unnotified_violation_stays_silent_witness :
  let w0 := {| wdb := {| exps := <["E" := sched]> ∅; obs := [ob Start 0]; next_seq := 1;
                         trials := ∅; viols := []; next_vid := 1 |};
               next_token := 0; smtp_host := Some "smtp.example.com"; smtp_up := false;
               outbox := []; hooks := []; errlog := [] |} in
  let w1 := {| wdb := wdb (snd (check_schedule cfg0 sched 100 100 w0));
               next_token := 0; smtp_host := Some "smtp.example.com"; smtp_up := true;
               outbox := []; hooks := []; errlog := [] |} in
  fst (check_schedule cfg0 sched 100 100 w0) = inl SMTPError /\
  forall v, In v (open_rows "E" "missed" (wdb (snd (check_schedule cfg0 sched 200 200 w1)))) ->
    last_notified_at v = None.
Proof.
  intros w0 w1. split; [vm_compute; reflexivity|].
  pose proof (unnotified_violation_stays_silent cfg0 sched "missed" 200 200 w1
                (fst (check_schedule cfg0 sched 200 200 w1))
                (snd (check_schedule cfg0 sched 200 200 w1))) as H.
  change (exp_id sched) with "E" in H.
  refine (proj1 (proj2 (H _ _ _ _))); clear H.
  - vm_compute. split; [apply NoDup_singleton|intros v [<-|[]]; reflexivity].
  - vm_compute. discriminate.
  - intros v Hv. vm_compute in Hv. destruct Hv as [<-|[]]. reflexivity.
  - apply surjective_pairing.
Defined.

End Extras9.

Module Extras10.
Import Rules Store Server Handlers Facts Examples Quiet Extras9.
Open Scope Z_scope.

(** ** The ack link of an alert-path test *)

















End Extras10.
